(** * cli.h: the argument classifier and its two container back ends

    A shallow embedding of [src/cli.h]: [cli_parse], the [cli_da_init] and
    [cli_da_append] macros in their heap form (the default build) and in
    their [CLI_NOHEAP_IMPLEMENTATION] form, and [cli_parse_noheap]. *)

From Stdlib Require Import ZArith QArith Qpower String Ascii List Lia Permutation.
From stdpp Require Import base list.
Import ListNotations.

Local Open Scope Z_scope.

(** ** Machine-level conventions *)

(** [unsigned short]: the type of [CliArray.length] and [CliArray.capacity]. *)
Definition wrap16 (z : Z) : Z := z mod 65536.

(** A token is one [argv] element, a NUL-terminated C string.  [char_at s i]
    is [s[i]]: the characters of [s], then the terminator.  The parser reads
    [arg[1]] only after a '-' at [arg[0]], and [arg[2]] only after a '-' at
    [arg[1]], so it never reads past the terminator. *)
Definition token : Type := string.

Definition NUL : ascii := "000"%char.

Definition char_at (s : token) (i : nat) : ascii :=
  match String.get i s with
  | Some c => c
  | None => NUL
  end.

(** A Rocq string denotes an [argv] element when it holds no NUL. *)
Fixpoint c_string (s : token) : Prop :=
  match s with
  | EmptyString => True
  | String c s' => c <> NUL /\ c_string s'
  end.

(** What [cli_print_error] and [cli_printf_error] hand to [fprintf]: the
    title, the message format, and the strings substituted for its [%s]. *)
Record diagnostic : Type := Diag {
  title : string;
  message : string;
  operands : list token
}.

Inductive CliError : Type :=
| CliErrorOk
| CliErrorUser
| CliErrorFatal.

(** ** Programs over a world

    A computation runs in a world [W] (memory and [stderr]) and either
    completes, trips [CLI_ASSERT] (the default, [assert] without [NDEBUG],
    aborts the process), or performs an invalid memory access. *)
Inductive result (W A : Type) : Type :=
| Done (a : A) (w : W)
| AssertFailed (expr : string) (w : W)
| MemFault.

Arguments Done {W A} a w.
Arguments AssertFailed {W A} expr w.
Arguments MemFault {W A}.

Definition prog (W A : Type) : Type := W -> result W A.

Definition ret {W A} (a : A) : prog W A := fun w => Done a w.

Definition bind {W A B} (m : prog W A) (k : A -> prog W B) : prog W B :=
  fun w =>
    match m w with
    | Done a w' => k a w'
    | AssertFailed e w' => AssertFailed e w'
    | MemFault => MemFault
    end.

Definition CLI_ASSERT {W} (cond : bool) (expr : string) : prog W unit :=
  fun w => if cond then Done tt w else AssertFailed expr w.

Definition fault {W A} : prog W A := fun _ => MemFault.

Declare Scope prog_scope.
Delimit Scope prog_scope with prog.
Notation "x <- m ;; k" := (bind m (fun x => k))
  (at level 100, m at next level, right associativity) : prog_scope.
Notation "m ;;; k" := (bind m (fun _ => k))
  (at level 100, right associativity) : prog_scope.
Local Open Scope prog_scope.

(** [struct Cli], over either definition of [struct CliArray]. *)
Record Cli (A : Type) : Type := mkCli {
  execfile : option token;
  args : A;
  cmd_options : A;
  program_options : A
}.

Arguments mkCli {A} execfile args cmd_options program_options.
Arguments execfile {A} c.
Arguments args {A} c.
Arguments cmd_options {A} c.
Arguments program_options {A} c.

(** The targets of [struct CliArray* option_array] and of the direct
    member accesses [cli->args] and [cli->cmd_options]. *)
Inductive member : Type := Args | CmdOptions | ProgramOptions.

Definition get {A} (f : member) (cli : Cli A) : A :=
  match f with
  | Args => args cli
  | CmdOptions => cmd_options cli
  | ProgramOptions => program_options cli
  end.

Definition set {A} (f : member) (a : A) (cli : Cli A) : Cli A :=
  match f with
  | Args => mkCli (execfile cli) a (cmd_options cli) (program_options cli)
  | CmdOptions => mkCli (execfile cli) (args cli) a (program_options cli)
  | ProgramOptions => mkCli (execfile cli) (args cli) (cmd_options cli) a
  end.

(** How one iteration of [while (argc)] ends: it falls through to the next
    iteration, or it executes [return]. *)
Inductive control (A : Type) : Type :=
| Continue (is_cmd_option : bool) (cli : Cli A)
| Return (e : CliError) (cli : Cli A).

Arguments Continue {A} is_cmd_option cli.
Arguments Return {A} e cli.

(** ** Diagnostics: the [cli_print_error] and [cli_printf_error] macros

    The world of every program below pairs a memory [M] with the lines sent
    to [stderr]. *)
Definition cli_print_error {M} (ttl msg : string) : prog (M * list diagnostic) unit :=
  fun w => Done tt (fst w, snd w ++ [Diag ttl msg []]).

Definition cli_printf_error {M} (ttl msg : string) (va : list token)
  : prog (M * list diagnostic) unit :=
  fun w => Done tt (fst w, snd w ++ [Diag ttl msg va]).

(** ** The container interface

    [cli_parse] is written once against the [cli_da_init] and
    [cli_da_append] macros; the preprocessor picks the heap or the noheap
    definition of [struct CliArray] and of the two macros. *)
Class DynArray : Type := {
  CliArray : Type;
  memory : Type;
  (** the all-zero struct of [(struct Cli) { 0 }] *)
  zeroed : CliArray;
  (** [(array).length] *)
  da_length : CliArray -> Z;
  (** [(array).data == NULL] *)
  data_is_null : CliArray -> bool;
  (** reading [(array).data[i]] *)
  data_at : CliArray -> Z -> memory -> option token;
  cli_da_init : CliArray -> prog (memory * list diagnostic) CliArray;
  cli_da_append : CliArray -> token -> prog (memory * list diagnostic) CliArray
}.

Section Classifier.
Context `{DynArray}.

(** The world of a parse: the container memory and what went to [stderr]. *)
Definition world : Type := (memory * list diagnostic)%type.

(** [*(char** )(&array.data[i])] as a [%s] operand. *)
Definition read_item (a : CliArray) (i : Z) : prog world token :=
  fun w =>
    match data_at a i (fst w) with
    | Some t => Done t w
    | None => MemFault
    end.

(** [cli_pop_argv]: with [argc] the length of [argv]. *)
Definition cli_pop_argv (argv : list token) : prog world (token * list token) :=
  match argv with
  | [] => fun w => AssertFailed "*argc" w
  | t :: rest => ret (t, rest)
  end.

Definition double_dash_msg : string :=
  "Double dash ('%s') cannot be specified after the positional argument ('%s').".

Definition positional_msg : string :=
  "Positional arguments ('%s') should be specified prior to command options.".

(** The body of the loop, lines 398 to 428. *)
Definition loop_body (arg : token) (is_cmd_option : bool) (cli : Cli CliArray)
  : prog world (control CliArray) :=
  if Ascii.eqb (char_at arg 0) "-" then
    let option_array := if is_cmd_option then CmdOptions else ProgramOptions in
    if Ascii.eqb (char_at arg 1) "-" && Ascii.eqb (char_at arg 2) NUL then
      if 0 <? da_length (args cli) then
        prev <- read_item (args cli) (da_length (args cli) - 1);;
        cli_printf_error "CLI error" double_dash_msg [arg; prev];;;
        ret (Return CliErrorUser cli)
      else ret (Continue true cli)
    else
      a <- cli_da_append (get option_array cli) arg;;
      ret (Continue is_cmd_option (set option_array a cli))
  else
    if 0 <? da_length (cmd_options cli) then
      cli_printf_error "CLI error" positional_msg [arg];;;
      ret (Return CliErrorUser cli)
    else
      a <- cli_da_append (args cli) arg;;
      ret (Continue true (set Args a cli)).

(** [while (argc) { ... } ... return CliErrorOk;] *)
Fixpoint cli_parse_loop (argv : list token) (is_cmd_option : bool) (cli : Cli CliArray)
  : prog world (CliError * Cli CliArray) :=
  match argv with
  | [] => ret (CliErrorOk, cli)
  | arg :: argv' =>
      c <- loop_body arg is_cmd_option cli;;
      match c with
      | Continue b cli' => cli_parse_loop argv' b cli'
      | Return e cli' => ret (e, cli')
      end
  end.

(** Lines 378 to 393: the three initialisations, each followed by its
    [data == NULL] test. *)
Definition cli_parse_init (exe : token) (cli : Cli CliArray)
  : prog world (control CliArray) :=
  let cli := mkCli (Some exe) (args cli) (cmd_options cli) (program_options cli) in
  a <- cli_da_init (args cli);;
  let cli := set Args a cli in
  if data_is_null (args cli) then
    cli_print_error "Memory error" "Unable to allocate memory for CLI arguments.";;;
    ret (Return CliErrorFatal cli)
  else
    a <- cli_da_init (cmd_options cli);;
    let cli := set CmdOptions a cli in
    if data_is_null (cmd_options cli) then
      cli_print_error "Memory error" "Unable to allocate memory for command options.";;;
      ret (Return CliErrorFatal cli)
    else
      a <- cli_da_init (program_options cli);;
      let cli := set ProgramOptions a cli in
      if data_is_null (program_options cli) then
        cli_print_error "Memory error" "Unable to allocate memory for program options.";;;
        ret (Return CliErrorFatal cli)
      else ret (Continue false cli).

(** [cli_parse]: with more than the execution path, the initialisations and
    the loop; otherwise [*cli = (struct Cli) { 0 }], then [execfile]. *)
Definition cli_parse (argv : list token) (cli : Cli CliArray)
  : prog world (CliError * Cli CliArray) :=
  r <- cli_pop_argv argv;;
  let '(exe, argv) := r in
  match argv with
  | _ :: _ =>
      c <- cli_parse_init exe cli;;
      match c with
      | Continue b cli' => cli_parse_loop argv b cli'
      | Return e cli' => ret (e, cli')
      end
  | [] =>
      let cli := mkCli None zeroed zeroed zeroed in
      ret (CliErrorOk, mkCli (Some exe) (args cli) (cmd_options cli) (program_options cli))
  end.

(** The state of the loop once it has consumed the tokens [pre]: the
    iterations of [cli_parse_loop], without the final [return CliErrorOk]. *)
Fixpoint scan (pre : list token) (is_cmd_option : bool) (cli : Cli CliArray)
  : prog world (control CliArray) :=
  match pre with
  | [] => ret (Continue is_cmd_option cli)
  | arg :: pre' =>
      c <- loop_body arg is_cmd_option cli;;
      match c with
      | Continue b cli' => scan pre' b cli'
      | Return e cli' => ret (Return e cli')
      end
  end.

(** [cli_parse] on an input that starts with [exe :: pre] and goes on,
    stopped when it is about to read the token after [pre]. *)
Definition cli_parse_upto (exe : token) (pre : list token) (cli : Cli CliArray)
  : prog world (control CliArray) :=
  c <- cli_parse_init exe cli;;
  match c with
  | Continue b cli' => scan pre b cli'
  | Return e cli' => ret (Return e cli')
  end.

(** The test of line 403 together with that of line 399. *)
Definition is_double_dash (arg : token) : bool :=
  Ascii.eqb (char_at arg 0) "-"
  && (Ascii.eqb (char_at arg 1) "-" && Ascii.eqb (char_at arg 2) NUL).

(** The two grammar errors, as the loop tests them on the token [t] in the
    state [cli]: a "--" while [args] has a length above 0, or a token that
    does not begin with '-' while [cmd_options] has a length above 0;
    [d] is the line that the error prints. *)
Definition grammar_error (t : token) (cli : Cli CliArray) (m : memory) (d : diagnostic)
  : Prop :=
  (is_double_dash t = true /\ 0 < da_length (args cli) /\
   exists prev,
     data_at (args cli) (da_length (args cli) - 1) m = Some prev /\
     d = Diag "CLI error" double_dash_msg [t; prev])
  \/
  (char_at t 0 <> "-"%char /\ 0 < da_length (cmd_options cli) /\
   d = Diag "CLI error" positional_msg [t]).

(** The container to which the loop body appends [arg], when it appends it:
    the choice of lines 400 and 401 for a token that begins with '-' and is
    not "--", and [cli->args] for a positional token that is accepted. *)
Definition target (arg : token) (is_cmd_option : bool) (cli : Cli CliArray)
  : option member :=
  if Ascii.eqb (char_at arg 0) "-" then
    if is_double_dash arg then None
    else Some (if is_cmd_option then CmdOptions else ProgramOptions)
  else if 0 <? da_length (cmd_options cli) then None
  else Some Args.

End Classifier.

(** ** The heap containers of the default build *)
Module Owned.

(** [data] is null or a buffer of [const char*] cells; [None] is a cell
    never written. *)
Record CliArray : Type := mkArray {
  length : Z;
  capacity : Z;
  data : option (list (option token))
}.

(** The allocator behind [CLI_MALLOC] and [CLI_REALLOC]: [oracle] decides,
    call by call, whether the next request succeeds (it succeeds once the
    list is used up); [calls] records the requests, sizes counted in
    items. *)
Inductive alloc_call : Type :=
| Malloc (items : Z)
| Realloc (old_items new_items : Z).

Record heap : Type := mkHeap {
  oracle : list bool;
  calls : list alloc_call
}.

Definition granted (h : heap) : bool :=
  match oracle h with
  | false :: _ => false
  | _ => true
  end.

Definition CLI_MALLOC (n : Z)
  : prog (heap * list diagnostic) (option (list (option token))) :=
  fun w =>
    let h := fst w in
    let h' := mkHeap (tail (oracle h)) (calls h ++ [Malloc n]) in
    Done (if granted h then Some (replicate (Z.to_nat n) None) else None) (h', snd w).

(** [realloc] keeps the common prefix of the old and the new block. *)
Definition CLI_REALLOC (p : option (list (option token))) (n : Z)
  : prog (heap * list diagnostic) (option (list (option token))) :=
  fun w =>
    let h := fst w in
    let old := match p with Some b => b | None => [] end in
    let h' := mkHeap (tail (oracle h))
                (calls h ++ [Realloc (Z.of_nat (List.length old)) n]) in
    Done (if granted h then Some (resize (Z.to_nat n) None old) else None) (h', snd w).

Section Macros.
(** The overridable macro, 5 unless the includer defines it. *)
Variable CLI_DEFAULT_ARR_CAP : nat.

Definition cli_da_init (array : CliArray) : prog (heap * list diagnostic) CliArray :=
  p <- CLI_MALLOC (Z.of_nat CLI_DEFAULT_ARR_CAP);;
  ret (mkArray 0 (wrap16 (Z.of_nat CLI_DEFAULT_ARR_CAP)) p).

(** [(array).data[i] = (item)] *)
Definition store (array : CliArray) (i : Z) (item : token)
  : prog (heap * list diagnostic) CliArray :=
  match data array with
  | Some b =>
      if (0 <=? i) && (i <? Z.of_nat (List.length b)) then
        ret (mkArray (length array) (capacity array)
               (Some (<[Z.to_nat i := Some item]> b)))
      else fault
  | None => fault
  end.

Definition cli_da_append (array : CliArray) (item : token)
  : prog (heap * list diagnostic) CliArray :=
  let array := mkArray (wrap16 (length array + 1)) (capacity array) (data array) in
  array <-
    (if capacity array <? length array then
       let array := mkArray (length array) (wrap16 (capacity array * 2)) (data array) in
       p <- CLI_REALLOC (data array) (capacity array);;
       let array := mkArray (length array) (capacity array) p in
       match data array with
       | None =>
           cli_print_error "Memory error"
             "Unable to reallocate memory for more array items.";;;
           CLI_ASSERT false "0 && 'Memory error'";;;
           ret array
       | Some _ => ret array
       end
     else ret array);;
  store array (length array - 1) item.

Definition load (array : CliArray) (i : Z) (_ : heap) : option token :=
  match data array with
  | Some b => if 0 <=? i then mjoin (b !! Z.to_nat i) else None
  | None => None
  end.

Definition container : DynArray :=
  Build_DynArray CliArray heap (mkArray 0 0 None) length
    (fun a => match data a with None => true | Some _ => false end)
    load cli_da_init cli_da_append.

End Macros.

(** The cells a container holds: the first [length] cells of its buffer. *)
Definition elements (a : CliArray) : list (option token) :=
  match data a with
  | Some b => take (Z.to_nat (length a)) b
  | None => []
  end.

(** [holds a toks]: the container is in a sound state and stores [toks]:
    its buffer is allocated, [toks] are its first [length] cells, and
    [length <= capacity <= size of the buffer]. *)
Definition holds (a : CliArray) (toks : list token) : Prop :=
  exists b,
    data a = Some b /\
    length a = Z.of_nat (List.length toks) /\
    length a <= capacity a /\
    capacity a <= Z.of_nat (List.length b) /\
    capacity a < 65536 /\
    take (List.length toks) b = Some <$> toks.

(** [room a h]: an append to [a] finds a free cell, or can grow the buffer:
    the allocator grants the request and the doubled capacity is a larger
    [unsigned short]. *)
Definition room (a : CliArray) (h : heap) : Prop :=
  length a < capacity a \/
  (granted h = true /\ 0 < capacity a /\ capacity a * 2 < 65536).

(** The allocator state after one more request. *)
Definition asked (h : heap) (c : alloc_call) : heap :=
  mkHeap (tail (oracle h)) (calls h ++ [c]).

(** Appending the items of a list one by one. *)
Fixpoint append_all (items : list token) (a : CliArray)
  : prog (heap * list diagnostic) CliArray :=
  match items with
  | [] => ret a
  | t :: items' => a' <- cli_da_append a t;; append_all items' a'
  end.

(** An initialised container of initial capacity [cap], then the appends. *)
Definition fill (cap : nat) (items : list token)
  : prog (heap * list diagnostic) CliArray :=
  a <- cli_da_init cap (mkArray 0 0 None);; append_all items a.

(** The number of [CLI_REALLOC] requests among the recorded calls. *)
Definition reallocations (cs : list alloc_call) : Z :=
  Z.of_nat (List.length
    (List.filter (fun c => match c with Realloc _ _ => true | Malloc _ => false end) cs)).

(** The loop invariant of [cli_parse] over [pre], the tokens consumed so
    far: the three containers are sound and store, in order, the tokens of
    [pre] that are not separators, program options first, then positional
    arguments, then command options; before the scope flag is set only
    program options have been stored. *)
Definition partitioned (pre : list token) (is_cmd_option : bool) (cli : Cli CliArray)
  : Prop :=
  exists po ar co,
    holds (program_options cli) po /\
    holds (args cli) ar /\
    holds (cmd_options cli) co /\
    po ++ ar ++ co = List.filter (fun t => negb (is_double_dash t)) pre /\
    (is_cmd_option = false -> ar = [] /\ co = []).

(** The default build: [CLI_DEFAULT_ARR_CAP] is 5. *)
Definition default : DynArray := container 5.

(** A caller's [Cli] before the call (its content is overwritten), and a
    world whose allocator grants every request and whose [stderr] is empty. *)
Definition blank : Cli CliArray :=
  mkCli None (mkArray 0 0 None) (mkArray 0 0 None) (mkArray 0 0 None).

Definition generous : heap * list diagnostic := (mkHeap [] [], []).

(** Example states: a container of capacity 5 that stores [toks], the
    struct made of three of them, and the allocator once it has granted the
    three initial requests. *)
Definition packed (toks : list token) : CliArray :=
  mkArray (Z.of_nat (List.length toks)) 5
    (Some ((Some <$> toks) ++ replicate (5 - List.length toks) None)).

Definition struct (exe : token) (ar co po : list token) : Cli CliArray :=
  mkCli (Some exe) (packed ar) (packed co) (packed po).

Definition settled : heap := mkHeap [] [Malloc 5; Malloc 5; Malloc 5].

(** The requests of [k] successive growths from capacity [c]: each asks
    for twice the capacity before it. *)
Fixpoint doublings (k : nat) (c : Z) : list alloc_call :=
  match k with
  | O => []
  | S k' => Realloc c (c * 2) :: doublings k' (c * 2)
  end.

End Owned.

(** ** The arena containers of [CLI_NOHEAP_IMPLEMENTATION] *)
Module Borrowed.

(** A [const char**]: null, the marker [CLI_INVALID_PTR] (0xCA10CAFE), or
    the address of a cell of the caller's array, [&stack[i]]. *)
Inductive pointer : Type :=
| NULL
| CLI_INVALID_PTR
| Cell (i : Z).

(** A [const char***]: null, or the address of the variable [unused] of
    [cli_parse_noheap], which the three containers of one [Cli] share. *)
Inductive cursor_ref : Type :=
| NoCursor
| AddrUnused.

Record CliArray : Type := mkArray {
  length : Z;
  stack : pointer;
  data : pointer;
  next_unused : cursor_ref
}.

(** The memory the macros touch: the caller's array and the cursor. *)
Record arena : Type := mkArena {
  cells : list (option token);
  unused : pointer
}.

Definition is_null (p : pointer) : bool :=
  match p with
  | NULL => true
  | _ => false
  end.

Definition cli_da_init (array : CliArray) : prog (arena * list diagnostic) CliArray :=
  CLI_ASSERT (negb (is_null (stack array)))
    ("(array).stack && (array).stack is not initalized. "
     ++ "Use cli_parse_noheap() instead of cli_parse().")%string;;;
  ret (mkArray (length array) (stack array) CLI_INVALID_PTR (next_unused array)).

Definition cli_da_append (array : CliArray) (item : token)
  : prog (arena * list diagnostic) CliArray :=
  match next_unused array with
  | NoCursor => fault
  | AddrUnused =>
      fun w =>
        let node := unused (fst w) in
        let array :=
          match data array with
          | CLI_INVALID_PTR =>
              mkArray (length array) (stack array) node (next_unused array)
          | _ => array
          end in
        match node with
        | Cell i =>
            if (0 <=? i) && (i <? Z.of_nat (List.length (cells (fst w)))) then
              Done (mkArray (wrap16 (length array + 1)) (stack array) (data array)
                      (next_unused array))
                   (mkArena (<[Z.to_nat i := Some item]> (cells (fst w))) (Cell (i + 1)),
                    snd w)
            else MemFault
        | _ => MemFault
        end
  end.

Definition load (array : CliArray) (i : Z) (m : arena) : option token :=
  match data array with
  | Cell d => if 0 <=? d + i then mjoin (cells m !! Z.to_nat (d + i)) else None
  | _ => None
  end.

Definition container : DynArray :=
  Build_DynArray CliArray arena (mkArray 0 NULL NULL NoCursor) length
    (fun a => is_null (data a)) load cli_da_init cli_da_append.

(** [cli_parse_noheap]: [stack] is the caller's array, whose cells are
    those of the arena. *)
Definition cli_parse_noheap (argv : list token) (cli : Cli CliArray) (stack : pointer)
  : prog (arena * list diagnostic) (CliError * Cli CliArray) :=
  fun w =>
    let w := (mkArena (cells (fst w)) stack, snd w) in
    let cli := mkCli (execfile cli)
                 (mkArray 0 stack NULL AddrUnused)
                 (cmd_options cli) (program_options cli) in
    let cli := mkCli (execfile cli) (args cli)
                 (mkArray 0 stack NULL AddrUnused)
                 (program_options cli) in
    let cli := mkCli (execfile cli) (args cli) (cmd_options cli)
                 (mkArray 0 stack NULL AddrUnused) in
    @cli_parse container argv cli w.

(** The cells a container spans: [length] cells from [data]. *)
Definition elements (a : CliArray) (m : arena) : list (option token) :=
  match data a with
  | Cell d => take (Z.to_nat (length a)) (drop (Z.to_nat d) (cells m))
  | _ => []
  end.

(** A caller's [Cli] before the call: [cli_parse_noheap] overwrites its
    three containers. *)
Definition blank : Cli CliArray :=
  mkCli None (mkArray 0 NULL NULL NoCursor) (mkArray 0 NULL NULL NoCursor)
    (mkArray 0 NULL NULL NoCursor).

(** The tokens of [pre] that the loop stores: all but the separators. *)
Definition stored (pre : list token) : list token :=
  List.filter (fun t => negb (is_double_dash t)) pre.

(** A container set up by [cli_parse_noheap] over the array at [stk]. *)
Definition linked (stk : pointer) (a : CliArray) : Prop :=
  stack a = stk /\ next_unused a = AddrUnused.

(** A container that received nothing yet, or whose cells lie between the
    cells [lo] and [hi] of the array. *)
Definition within (lo hi : Z) (a : CliArray) : Prop :=
  (data a = CLI_INVALID_PTR /\ length a = 0) \/
  (exists d, data a = Cell d /\ lo <= d /\ 0 <= length a /\ d + length a <= hi).

(** A container whose [length] counts [toks] and whose cells, if any,
    start at cell [d]. *)
Definition region (a : CliArray) (d : Z) (toks : list token) : Prop :=
  length a = Z.of_nat (List.length toks) /\
  data a = match toks with [] => CLI_INVALID_PTR | _ :: _ => Cell d end.

(** The three containers have received [k] tokens between them, and each
    [length], an [unsigned short], counts those of its container. *)
Definition counted (k : nat) (cli : Cli CliArray) : Prop :=
  exists n_po n_ar n_co : nat,
    (n_po + n_ar + n_co)%nat = k /\
    length (program_options cli) = wrap16 (Z.of_nat n_po) /\
    length (args cli) = wrap16 (Z.of_nat n_ar) /\
    length (cmd_options cli) = wrap16 (Z.of_nat n_co).

(** The loop invariant of [cli_parse] under [cli_parse_noheap], over [pre],
    the tokens consumed so far; the array starts at cell [s] of an arena
    whose cells were [cells0].  The cursor has advanced by one cell per
    stored token; those cells hold the stored tokens in input order, and
    no other cell has changed; the containers have received these tokens
    and no other.  While fewer than 65536 tokens have been
    consumed, the three containers split the stored tokens into three
    adjacent regions: program options, positional arguments, command
    options. *)
Definition laid_out (s : nat) (cells0 : list (option token)) (pre : list token)
  (is_cmd_option : bool) (cli : Cli CliArray) (m : arena) : Prop :=
  let k := List.length (stored pre) in
  linked (Cell (Z.of_nat s)) (args cli) /\
  linked (Cell (Z.of_nat s)) (cmd_options cli) /\
  linked (Cell (Z.of_nat s)) (program_options cli) /\
  unused m = Cell (Z.of_nat (s + k)) /\
  List.length (cells m) = List.length cells0 /\
  take k (drop s (cells m)) = Some <$> stored pre /\
  take s (cells m) = take s cells0 /\
  drop (s + k) (cells m) = drop (s + k) cells0 /\
  within (Z.of_nat s) (Z.of_nat (s + k)) (args cli) /\
  counted k cli /\
  (Z.of_nat (List.length pre) < 65536 ->
   exists po ar co,
     po ++ ar ++ co = stored pre /\
     (is_cmd_option = false -> ar = [] /\ co = []) /\
     region (program_options cli) (Z.of_nat s) po /\
     region (args cli) (Z.of_nat (s + List.length po)) ar /\
     region (cmd_options cli) (Z.of_nat (s + List.length po + List.length ar)) co).

End Borrowed.

(** ** The growth formula of the specification

    [ceil_log2_ratio n c] is [ceil (log2 (n / c))] for positive [n] and [c],
    the least integer [k] with [n / c <= 2 ^ k]; it is negative when
    [n <= c / 2]. *)
Definition ceil_log2_ratio (n c : Z) : Z :=
  if n <=? c then - Z.log2 (c / n) else Z.log2_up ((n + c - 1) / c).

(** ** The grammar, on lists of tokens

    The three kinds of token that the loop body tells apart, and what a run
    of tokens amounts to: the options that come before anything else, the
    positional tokens, and the options that come after the first token that
    is not an option. *)
Definition begins_with_dash (t : token) : bool := Ascii.eqb (char_at t 0) "-".

Definition is_option (t : token) : bool := begins_with_dash t && negb (is_double_dash t).

Definition is_positional (t : token) : bool := negb (begins_with_dash t).

Fixpoint leading_options (l : list token) : list token :=
  match l with
  | t :: l' => if is_option t then t :: leading_options l' else []
  | [] => []
  end.

Fixpoint after_options (l : list token) : list token :=
  match l with
  | t :: l' => if is_option t then after_options l' else l
  | [] => []
  end.

Definition positionals (l : list token) : list token := List.filter is_positional l.

Definition later_options (l : list token) : list token :=
  List.filter is_option (after_options l).

Definition nonempty {A} (l : list A) : bool :=
  match l with
  | [] => false
  | _ :: _ => true
  end.

(** A token is misplaced after [pre] when it is a "--" and [pre] has a
    positional token, or it is positional and [pre] has an option after its
    first token that is not an option. *)
Definition misplaced (pre : list token) (t : token) : bool :=
  (is_double_dash t && nonempty (positionals pre))
  || (is_positional t && nonempty (later_options pre)).

(** The tokens of [rest] up to the first one that is misplaced, appended to
    [pre], and the tokens from that one on. *)
Fixpoint sift (pre rest : list token) : list token * list token :=
  match rest with
  | [] => (pre, [])
  | t :: rest' => if misplaced pre t then (pre, rest) else sift (pre ++ [t]) rest'
  end.

(** The line printed for the token [t] misplaced after [pre]. *)
Definition complaint (pre : list token) (t : token) : diagnostic :=
  if is_double_dash t then
    Diag "CLI error" double_dash_msg
      [t; match last (positionals pre) with Some p => p | None => EmptyString end]
  else Diag "CLI error" positional_msg [t].

(** The heap containers store the three runs of [pre], and the scope flag
    is set once [pre] has a token that is not an option. *)
Definition owned_sifted (pre : list token) (is_cmd_option : bool)
  (cli : Cli Owned.CliArray) : Prop :=
  Owned.holds (program_options cli) (leading_options pre) /\
  Owned.holds (args cli) (positionals pre) /\
  Owned.holds (cmd_options cli) (later_options pre) /\
  is_cmd_option = negb (forallb is_option pre).

(** The token [t] is out of order after the tokens [a]: it is a "--" and
    [a] has a positional token, or it is positional and [a] has an option
    somewhere after a token that is not an option. *)
Definition out_of_order (a : list token) (t : token) : Prop :=
  (is_double_dash t = true /\ exists p, In p a /\ is_positional p = true) \/
  (is_positional t = true /\
   exists a1 x a2 o a3,
     a = a1 ++ x :: a2 ++ o :: a3 /\ is_option x = false /\ is_option o = true).

(** Every container of the struct has a capacity above 0. *)
Definition owned_sturdy (cli : Cli Owned.CliArray) : Prop :=
  forall f, 0 < Owned.capacity (get f cli).

(** [cli_free] of the heap build, as the pointers it hands to [CLI_FREE],
    in order.  (The noheap build compiles it to nothing.) *)
Definition owned_cli_free (cli : Cli Owned.CliArray) : list (option (list (option token))) :=
  [Owned.data (args cli); Owned.data (cmd_options cli); Owned.data (program_options cli)].

(** The order of the three initialisations in [cli_parse], and the line
    that each prints when its [CLI_MALLOC] request is refused. *)
Definition init_order (f : member) : nat :=
  match f with
  | Args => 0
  | CmdOptions => 1
  | ProgramOptions => 2
  end.

Definition init_failure (f : member) : diagnostic :=
  Diag "Memory error"
    match f with
    | Args => "Unable to allocate memory for CLI arguments."
    | CmdOptions => "Unable to allocate memory for command options."
    | ProgramOptions => "Unable to allocate memory for program options."
    end [].

(** The runs of [pre] in the order in which the arena stores them. *)
Definition sorted_runs (pre : list token) : list token :=
  leading_options pre ++ positionals pre ++ later_options pre.

(** The loop invariant of [cli_parse] under [cli_parse_noheap] against the
    grammar, over the accepted tokens [pre]; the array starts at cell [s]
    of an arena whose cells were [cells0].  The cursor has advanced by one
    cell per stored token; these cells hold the three runs of [pre] one
    after the other, and no other cell has changed; each container spans
    its run. *)
Definition borrowed_sifted (s : nat) (cells0 : list (option token)) (pre : list token)
  (is_cmd_option : bool) (cli : Cli Borrowed.CliArray) (m : Borrowed.arena) : Prop :=
  let po := leading_options pre in
  let ar := positionals pre in
  let k := List.length (sorted_runs pre) in
  Borrowed.linked (Borrowed.Cell (Z.of_nat s)) (args cli) /\
  Borrowed.linked (Borrowed.Cell (Z.of_nat s)) (cmd_options cli) /\
  Borrowed.linked (Borrowed.Cell (Z.of_nat s)) (program_options cli) /\
  Borrowed.unused m = Borrowed.Cell (Z.of_nat (s + k)) /\
  List.length (Borrowed.cells m) = List.length cells0 /\
  take k (drop s (Borrowed.cells m)) = Some <$> sorted_runs pre /\
  take s (Borrowed.cells m) = take s cells0 /\
  drop (s + k) (Borrowed.cells m) = drop (s + k) cells0 /\
  Borrowed.region (program_options cli) (Z.of_nat s) po /\
  Borrowed.region (args cli) (Z.of_nat (s + List.length po)) ar /\
  Borrowed.region (cmd_options cli)
    (Z.of_nat (s + List.length po + List.length ar)) (later_options pre) /\
  is_cmd_option = negb (forallb is_option pre).

(** ** The styles

    The five globals that the print macros read, lines 120 to 124, and
    [cli_toggle_styles]; [CLI_NO_STYLES] tells whether the macro of that
    name is defined. *)
Record styles : Type := mkStyles {
  CLI_RESET : string;
  CLI_BOLD : string;
  CLI_DIM : string;
  CLI_FORE_RED : string;
  CLI_FORE_BRBLUE : string
}.

Definition initial_styles : styles := mkStyles "" "" "" "" "".

(** The character [\033]. *)
Definition ESC : ascii := ascii_of_nat 27.

Definition cli_toggle_styles (CLI_NO_STYLES : bool) (g : styles) : styles :=
  if CLI_NO_STYLES then g
  else if negb (Ascii.eqb (char_at (CLI_RESET g) 0) NUL) then
    mkStyles "" "" "" "" ""
  else
    mkStyles (String ESC "[0m") (String ESC "[1m") (String ESC "[2m")
      (String ESC "[31m") (String ESC "[94m").

(** ** [cli_parse_noheap], token by token *)

(** The struct that [cli_parse_noheap] hands to [cli_parse], lines 334 to
    336. *)
Definition prepared (cli : Cli Borrowed.CliArray) (stack : Borrowed.pointer)
  : Cli Borrowed.CliArray :=
  mkCli (execfile cli)
    (Borrowed.mkArray 0 stack Borrowed.NULL Borrowed.AddrUnused)
    (Borrowed.mkArray 0 stack Borrowed.NULL Borrowed.AddrUnused)
    (Borrowed.mkArray 0 stack Borrowed.NULL Borrowed.AddrUnused).

(** [cli_parse_noheap] on an input that starts with [exe :: pre] and goes
    on, stopped when it is about to read the token after [pre]. *)
Definition cli_parse_noheap_upto (exe : token) (pre : list token)
  (cli : Cli Borrowed.CliArray) (stack : Borrowed.pointer)
  : prog (Borrowed.arena * list diagnostic) (control Borrowed.CliArray) :=
  fun w =>
    @cli_parse_upto Borrowed.container exe pre (prepared cli stack)
      (Borrowed.mkArena (Borrowed.cells (fst w)) stack, snd w).

(** The cursor points at a cell of the arena. *)
Definition borrowed_room (m : Borrowed.arena) : Prop :=
  exists i, Borrowed.unused m = Borrowed.Cell i /\
            0 <= i < Z.of_nat (List.length (Borrowed.cells m)).

(** The run of [pre] that a container stores. *)
Definition run_of (f : member) (pre : list token) : list token :=
  match f with
  | Args => positionals pre
  | CmdOptions => later_options pre
  | ProgramOptions => leading_options pre
  end.

(** Each of the three runs of [pre] (its leading options, its tokens that
    do not begin with '-', its options after the first token that is not
    an option) has fewer than 65536 tokens: the [length] of the container
    that stores the run, an [unsigned short], counts it exactly. *)
Definition unwrapped (pre : list token) : Prop :=
  forall f, Z.of_nat (List.length (run_of f pre)) < 65536.

(** Inputs at the limit of [unsigned short]: 65536 copies of a token, and
    an array of [n] cells never written. *)
Definition many (t : token) : list token := replicate (Z.to_nat 65536) t.

Definition free_cells (n : Z) : list (option token) := replicate (Z.to_nat n) None.

(** Example states of the arena build, the array at cell 0: a container of
    [n] cells from cell [start] on, and the struct whose containers span
    [po], [ar] and [co] cells one after the other. *)
Definition spanning (start n : Z) : Borrowed.CliArray :=
  Borrowed.mkArray n (Borrowed.Cell 0)
    (if 0 <? n then Borrowed.Cell start else Borrowed.CLI_INVALID_PTR)
    Borrowed.AddrUnused.

Definition arranged (exe : token) (po ar co : Z) : Cli Borrowed.CliArray :=
  mkCli (Some exe) (spanning po ar) (spanning (po + ar) co) (spanning 0 po).

(** ** Proof tactics *)

(** Case analysis on the test or the scrutinee at the head of a hypothesis
    about a run. *)
Ltac case_branch H :=
  match type of H with
  | context [if ?c then _ else _] => destruct c eqn:?
  | context [match ?x with _ => _ end] => destruct x eqn:?
  end.

(** Unfolds the interface at the heap instance. *)
Ltac owned_methods :=
  cbn [CliArray memory zeroed da_length data_is_null data_at cli_da_init
       cli_da_append Owned.container Owned.default] in *.

(** Unfolds the interface at the arena instance. *)
Ltac borrowed_methods :=
  cbn [CliArray memory zeroed da_length data_is_null data_at cli_da_init
       cli_da_append Borrowed.container] in *.

(** * Properties *)

Local Open Scope string_scope.
Local Open Scope list_scope.
Local Open Scope Z_scope.

(** ** Programs *)

Lemma bind_Done {W A B} (m : prog W A) (k : A -> prog W B) w b w2 :
  bind m k w = Done b w2 <-> exists a w1, m w = Done a w1 /\ k a w1 = Done b w2.
Proof.
  unfold bind. split.
  - destruct (m w) as [a w1| |]; try discriminate. eauto.
  - intros (a & w1 & -> & Hk). exact Hk.
Qed.

Lemma bind_eq_Done {W A B} (m : prog W A) (k : A -> prog W B) w a w1 :
  m w = Done a w1 -> bind m k w = k a w1.
Proof. unfold bind. now intros ->. Qed.

(** ** Tokens *)

Lemma is_double_dash_iff (t : token) :
  c_string t -> is_double_dash t = true <-> t = "--".
Proof.
  intros Hc. split.
  - unfold is_double_dash, char_at.
    destruct t as [|c0 [|c1 [|c2 t]]]; cbn; try discriminate.
    + rewrite andb_false_r. discriminate.
    + intros Ht. apply andb_prop in Ht as [H0 H1]. rewrite andb_true_r in H1.
      apply Ascii.eqb_eq in H0, H1. now subst.
    + intros Ht. apply andb_prop in Ht as [_ Ht]. apply andb_prop in Ht as [_ Ht].
      apply Ascii.eqb_eq in Ht. cbn in Hc. tauto.
  - now intros ->.
Qed.

Lemma is_double_dash_false (t : token) :
  c_string t -> t <> "--" -> is_double_dash t = false.
Proof.
  intros Hc Hne. destruct (is_double_dash t) eqn:E; [|reflexivity].
  apply is_double_dash_iff in E; tauto.
Qed.

(** ** The loop, for either container *)

Section ClassifierFacts.
Context `{DynArray}.

Lemma loop_body_double_dash t b cli :
  is_double_dash t = true ->
  loop_body t b cli =
    (if 0 <? da_length (args cli) then
       prev <- read_item (args cli) (da_length (args cli) - 1);;
       cli_printf_error "CLI error" double_dash_msg [t; prev];;;
       ret (Return CliErrorUser cli)
     else ret (Continue true cli)).
Proof.
  unfold is_double_dash, loop_body. intros Ht.
  apply andb_prop in Ht as [-> ->]. reflexivity.
Qed.

Lemma loop_body_option t b cli :
  Ascii.eqb (char_at t 0) "-" = true -> is_double_dash t = false ->
  loop_body t b cli =
    (let dest := if b then CmdOptions else ProgramOptions in
     a <- cli_da_append (get dest cli) t;;
     ret (Continue b (set dest a cli))).
Proof.
  unfold is_double_dash, loop_body. intros -> Ht. cbn in Ht. now rewrite Ht.
Qed.

Lemma loop_body_positional t b cli :
  Ascii.eqb (char_at t 0) "-" = false ->
  loop_body t b cli =
    (if 0 <? da_length (cmd_options cli) then
       cli_printf_error "CLI error" positional_msg [t];;;
       ret (Return CliErrorUser cli)
     else
       a <- cli_da_append (args cli) t;;
       ret (Continue true (set Args a cli))).
Proof. unfold loop_body. now intros ->. Qed.

(** Running the loop on [pre ++ post] is scanning [pre], then running the
    loop on [post] from the state reached. *)
Lemma cli_parse_loop_app pre post b cli w :
  cli_parse_loop (pre ++ post) b cli w =
    match scan pre b cli w with
    | Done (Continue b' cli') w' => cli_parse_loop post b' cli' w'
    | Done (Return e cli') w' => Done (e, cli') w'
    | AssertFailed e w' => AssertFailed e w'
    | MemFault => MemFault
    end.
Proof.
  revert b cli w. induction pre as [|t pre IH]; intros b cli w; [reflexivity|].
  cbn [app cli_parse_loop scan]. unfold bind.
  destruct (loop_body t b cli w) as [[b' cli'|e cli'] w'| |]; try reflexivity.
  apply IH.
Qed.

Lemma scan_app pre post b cli w :
  scan (pre ++ post) b cli w =
    match scan pre b cli w with
    | Done (Continue b' cli') w' => scan post b' cli' w'
    | r => r
    end.
Proof.
  revert b cli w. induction pre as [|t pre IH]; intros b cli w; [reflexivity|].
  cbn [app scan]. unfold bind.
  destruct (loop_body t b cli w) as [[b' cli'|e cli'] w'| |]; try reflexivity.
  apply IH.
Qed.

Lemma cli_parse_at exe pre t post cli0 w0 :
  cli_parse (exe :: pre ++ t :: post) cli0 w0 =
    match cli_parse_upto exe pre cli0 w0 with
    | Done (Continue b cli) w => cli_parse_loop (t :: post) b cli w
    | Done (Return e cli) w => Done (e, cli) w
    | AssertFailed e w => AssertFailed e w
    | MemFault => MemFault
    end.
Proof.
  unfold cli_parse, cli_parse_upto. cbn [cli_pop_argv].
  unfold bind at 1. cbn [ret].
  destruct (pre ++ t :: post) as [|x l] eqn:E; [now destruct pre|]. rewrite <- E.
  unfold bind.
  destruct (cli_parse_init exe cli0 w0) as [[b cli|e cli] w| |]; try reflexivity.
  apply cli_parse_loop_app.
Qed.

Lemma cli_parse_all exe t rest cli0 w0 :
  cli_parse (exe :: t :: rest) cli0 w0 =
    match cli_parse_upto exe (t :: rest) cli0 w0 with
    | Done (Continue b cli) w => Done (CliErrorOk, cli) w
    | Done (Return e cli) w => Done (e, cli) w
    | AssertFailed e w => AssertFailed e w
    | MemFault => MemFault
    end.
Proof.
  unfold cli_parse, cli_parse_upto. cbn [cli_pop_argv].
  unfold bind at 1. cbn [ret]. unfold bind.
  destruct (cli_parse_init exe cli0 w0) as [[b cli|e cli] w| |]; try reflexivity.
  rewrite <- (app_nil_r (t :: rest)) at 1. apply cli_parse_loop_app.
Qed.

(** A [return] inside the loop is one of the two grammar errors: the struct
    and the memory are those the iteration started with, and one line went
    to [stderr]. *)
Lemma loop_body_Return t b cli w e cli' w' :
  loop_body t b cli w = Done (Return e cli') w' ->
  e = CliErrorUser /\ cli' = cli /\ fst w' = fst w /\
  ((is_double_dash t = true /\ 0 < da_length (args cli) /\
    exists prev,
      data_at (args cli) (da_length (args cli) - 1) (fst w) = Some prev /\
      snd w' = snd w ++ [Diag "CLI error" double_dash_msg [t; prev]])
   \/
   (Ascii.eqb (char_at t 0) "-" = false /\ 0 < da_length (cmd_options cli) /\
    snd w' = snd w ++ [Diag "CLI error" positional_msg [t]])).
Proof.
  destruct (Ascii.eqb (char_at t 0) "-") eqn:E0.
  - destruct (is_double_dash t) eqn:Ed.
    + rewrite loop_body_double_dash by assumption.
      destruct (0 <? da_length (args cli)) eqn:El; [|discriminate].
      apply Z.ltb_lt in El. unfold bind, read_item, cli_printf_error, ret.
      destruct (data_at _ _ _) as [prev|] eqn:Ep; [|discriminate].
      intros [= <- <- <-]. cbn. repeat split; trivial. left. eauto.
    + rewrite loop_body_option by assumption. cbn zeta. unfold bind, ret.
      destruct (cli_da_append _ _ _); discriminate.
  - rewrite loop_body_positional by assumption.
    destruct (0 <? da_length (cmd_options cli)) eqn:El.
    + apply Z.ltb_lt in El. unfold bind, cli_printf_error, ret.
      intros [= <- <- <-]. cbn. repeat split; trivial. right. auto.
    + unfold bind, ret. destruct (cli_da_append _ _ _); discriminate.
Qed.

Lemma loop_body_execfile t b cli w c w' :
  loop_body t b cli w = Done c w' ->
  execfile (match c with Continue _ cli' | Return _ cli' => cli' end) = execfile cli.
Proof.
  unfold loop_body, bind, ret, read_item, cli_printf_error.
  repeat match goal with
         | |- context [if ?c then _ else _] => destruct c
         | |- context [match ?x with _ => _ end] => destruct x eqn:?
         end;
    intros [= <- <-]; reflexivity.
Qed.

Lemma scan_execfile pre b cli w c w' :
  scan pre b cli w = Done c w' ->
  execfile (match c with Continue _ cli' | Return _ cli' => cli' end) = execfile cli.
Proof.
  revert b cli w. induction pre as [|t pre IH]; intros b cli w.
  - now intros [= <- <-].
  - cbn [scan]. intros Hs. apply bind_Done in Hs as (c1 & w1 & Hb & Hs).
    apply loop_body_execfile in Hb. destruct c1 as [b1 cli1|e1 cli1].
    + apply IH in Hs. congruence.
    + injection Hs as <- <-. exact Hb.
Qed.

Lemma cli_parse_init_execfile exe cli w c w' :
  cli_parse_init exe cli w = Done c w' ->
  execfile (match c with Continue _ cli' | Return _ cli' => cli' end) = Some exe.
Proof.
  unfold cli_parse_init, bind, ret, cli_print_error.
  cbn [set args cmd_options program_options execfile].
  repeat match goal with
         | |- context [if ?c then _ else _] => destruct c
         | |- context [match ?x with _ => _ end] => destruct x eqn:?
         end;
    intros [= <- <-]; reflexivity.
Qed.

(** Only the loop returns [CliErrorUser], and [cli_parse_init] returns
    nothing but [CliErrorFatal]. *)
Lemma cli_parse_init_Return exe cli w e cli' w' :
  cli_parse_init exe cli w = Done (Return e cli') w' -> e = CliErrorFatal.
Proof.
  unfold cli_parse_init, bind, ret, cli_print_error.
  cbn [set args cmd_options program_options execfile].
  repeat match goal with
         | |- context [if ?c then _ else _] => destruct c
         | |- context [match ?x with _ => _ end] => destruct x eqn:?
         end;
    intros [= <- <-]; reflexivity.
Qed.

Lemma cli_parse_init_Continue exe cli w b cli' w' :
  cli_parse_init exe cli w = Done (Continue b cli') w' -> b = false.
Proof.
  unfold cli_parse_init, bind, ret, cli_print_error.
  cbn [set args cmd_options program_options execfile].
  repeat match goal with
         | |- context [if ?c then _ else _] => destruct c
         | |- context [match ?x with _ => _ end] => destruct x eqn:?
         end;
    intros [= <- <-]; reflexivity.
Qed.

(** A scan that ends in a [return] stopped at some token [t]: it had
    scanned the tokens before [t] and never looked at those after it. *)
Lemma scan_Return pre b cli w e cli' w' :
  scan pre b cli w = Done (Return e cli') w' ->
  exists pre1 t pre2 b1 cli1 w1,
    pre = pre1 ++ t :: pre2 /\
    scan pre1 b cli w = Done (Continue b1 cli1) w1 /\
    loop_body t b1 cli1 w1 = Done (Return e cli') w'.
Proof.
  revert b cli w. induction pre as [|t pre IH]; intros b cli w; [discriminate|].
  cbn [scan]. intros Hs. apply bind_Done in Hs as (c1 & w1 & Hb & Hs).
  destruct c1 as [b1 cli1|e1 cli1].
  - apply IH in Hs as (pre1 & t' & pre2 & b2 & cli2 & w2 & -> & Hs & Hb').
    exists (t :: pre1), t', pre2, b2, cli2, w2. split; [reflexivity|]. split; [|exact Hb'].
    cbn [scan]. rewrite (bind_eq_Done _ _ _ _ _ Hb). exact Hs.
  - injection Hs as <- <- <-.
    exists [], t, pre, b, cli, w. repeat split; trivial.
Qed.

Lemma loop_body_target t b cli dest :
  target t b cli = Some dest ->
  loop_body t b cli =
    (a <- cli_da_append (get dest cli) t;;
     ret (Continue (match dest with Args => true | _ => b end) (set dest a cli))).
Proof.
  unfold target. destruct (Ascii.eqb (char_at t 0) "-") eqn:E0.
  - destruct (is_double_dash t) eqn:Ed; [discriminate|].
    intros [= <-]. rewrite loop_body_option by assumption. now destruct b.
  - rewrite loop_body_positional by assumption.
    destruct (0 <? da_length (cmd_options cli)); [discriminate|].
    now intros [= <-].
Qed.

End ClassifierFacts.

(** ** The heap container *)

Lemma wrap16_small z : 0 <= z < 65536 -> wrap16 z = z.
Proof. intros Hz. unfold wrap16. now apply Z.mod_small. Qed.

Lemma wrap16_range z : 0 <= wrap16 z < 65536.
Proof. unfold wrap16. apply Z.mod_pos_bound. lia. Qed.

Lemma take_snoc_insert {A} (b : list A) (n : nat) (x : A) :
  (n < List.length b)%nat -> take (S n) (<[n := x]> b) = take n b ++ [x].
Proof.
  intros Hn. rewrite (take_S_r _ _ x) by now apply list_lookup_insert_eq.
  now rewrite take_insert_ge by lia.
Qed.

Lemma owned_store_Done a b i t w :
  Owned.data a = Some b -> 0 <= i < Z.of_nat (List.length b) ->
  Owned.store a i t w =
    Done (Owned.mkArray (Owned.length a) (Owned.capacity a)
            (Some (<[Z.to_nat i := Some t]> b))) w.
Proof.
  intros Hd Hi. unfold Owned.store. rewrite Hd.
  replace (0 <=? i) with true by (symmetry; apply Z.leb_le; lia).
  replace (i <? Z.of_nat (List.length b)) with true by (symmetry; apply Z.ltb_lt; lia).
  reflexivity.
Qed.

Lemma owned_store_fault a b i t w :
  Owned.data a = Some b -> ~ 0 <= i < Z.of_nat (List.length b) ->
  Owned.store a i t w = MemFault.
Proof.
  intros Hd Hi. unfold Owned.store. rewrite Hd.
  destruct (0 <=? i) eqn:E1; [|reflexivity].
  destruct (i <? Z.of_nat (List.length b)) eqn:E2; [|reflexivity].
  apply Z.leb_le in E1. apply Z.ltb_lt in E2. lia.
Qed.

(** The stored tokens of a sound container are its [elements]. *)
Lemma holds_elements a toks : Owned.holds a toks -> Owned.elements a = Some <$> toks.
Proof.
  intros (b & Hd & Hl & _ & _ & _ & Ht). unfold Owned.elements.
  rewrite Hd, Hl, Nat2Z.id. exact Ht.
Qed.

Lemma holds_length a toks :
  Owned.holds a toks -> Owned.length a = Z.of_nat (List.length toks).
Proof. now intros (b & _ & Hl & _). Qed.

Lemma holds_extend a b toks t n cap :
  Owned.holds a toks -> Owned.data a = Some b ->
  n = Z.of_nat (List.length toks) + 1 ->
  n <= cap -> cap < 65536 ->
  forall b', cap <= Z.of_nat (List.length b') ->
  take (List.length toks) b' = take (List.length toks) b ->
  Owned.holds (Owned.mkArray n cap (Some (<[List.length toks := Some t]> b'))) (toks ++ [t]).
Proof.
  intros (b0 & Hd & Hl & Hlc & Hcb & Hc & Ht) Hb -> Hn Hcap b' Hb' Hpre.
  rewrite Hb in Hd. injection Hd as <-.
  exists (<[List.length toks := Some t]> b'). cbn.
  rewrite length_app, length_insert. cbn [List.length].
  repeat split; try lia.
  rewrite Nat.add_1_r, take_snoc_insert by lia.
  now rewrite Hpre, Ht, fmap_app.
Qed.

(** An append that finds a free cell writes it and calls no allocator. *)
Lemma owned_append_room a toks t w :
  Owned.holds a toks -> Owned.length a < Owned.capacity a ->
  exists a',
    Owned.cli_da_append a t w = Done a' w /\
    Owned.holds a' (toks ++ [t]) /\
    Owned.capacity a' = Owned.capacity a /\
    (forall b, Owned.data a = Some b ->
       exists b', Owned.data a' = Some b' /\ List.length b' = List.length b).
Proof.
  intros Hh Hlt. pose proof Hh as (b & Hd & Hl & Hlc & Hcb & Hc & Ht).
  unfold Owned.cli_da_append. cbn [Owned.length Owned.capacity Owned.data].
  rewrite wrap16_small by lia.
  replace (Owned.capacity a <? Owned.length a + 1) with false
    by (symmetry; apply Z.ltb_ge; lia).
  unfold bind at 1. cbn [ret Owned.length].
  erewrite owned_store_Done; [|cbn; exact Hd|lia].
  cbn [Owned.length Owned.capacity].
  replace (Z.to_nat (Owned.length a + 1 - 1)) with (List.length toks) by lia.
  eexists. split; [reflexivity|]. split; [|split; [reflexivity|]].
  - eapply holds_extend; eauto; lia.
  - intros b1 Hb1. rewrite Hd in Hb1. injection Hb1 as <-.
    eexists. split; [reflexivity|]. apply length_insert.
Qed.

(** An append to a full container asks [CLI_REALLOC] for the doubled
    capacity: refused, it prints and trips [CLI_ASSERT]; granted, it stores
    the item, unless the doubled capacity does not fit [unsigned short]. *)
Lemma owned_append_full a toks b t h err :
  Owned.holds a toks -> Owned.data a = Some b ->
  Owned.length a = Owned.capacity a ->
  let c := Owned.Realloc (Z.of_nat (List.length b)) (wrap16 (Owned.capacity a * 2)) in
  (Owned.granted h = false -> Owned.capacity a < 65535 ->
   Owned.cli_da_append a t (h, err) =
     AssertFailed "0 && 'Memory error'"
       (Owned.asked h c,
        err ++ [Diag "Memory error" "Unable to reallocate memory for more array items." []]))
  /\
  (Owned.granted h = true -> 0 < Owned.capacity a -> Owned.capacity a * 2 < 65536 ->
   exists a' b',
     Owned.cli_da_append a t (h, err) = Done a' (Owned.asked h c, err) /\
     Owned.holds a' (toks ++ [t]) /\
     Owned.capacity a' = Owned.capacity a * 2 /\
     Owned.data a' = Some b' /\ Z.of_nat (List.length b') = Owned.capacity a * 2)
  /\
  (Owned.granted h = true -> ~ (0 < Owned.capacity a /\ Owned.capacity a * 2 < 65536) ->
   Owned.cli_da_append a t (h, err) = MemFault).
Proof.
  intros Hh Hd Hfull c. pose proof Hh as (b0 & Hd0 & Hl & Hlc & Hcb & Hc & Ht).
  rewrite Hd in Hd0. injection Hd0 as <-.
  assert (Hgrow : Owned.capacity a < 65535 ->
    Owned.cli_da_append a t (h, err) =
      bind (bind (Owned.CLI_REALLOC (Some b) (wrap16 (Owned.capacity a * 2)))
              (fun p =>
                 let array := Owned.mkArray (Owned.length a + 1)
                                (wrap16 (Owned.capacity a * 2)) p in
                 match p with
                 | None =>
                     bind (cli_print_error "Memory error"
                             "Unable to reallocate memory for more array items.")
                       (fun _ => bind (CLI_ASSERT false "0 && 'Memory error'")
                                   (fun _ => ret array))
                 | Some _ => ret array
                 end))
        (fun array => Owned.store array (Owned.length array - 1) t) (h, err)).
  { intros Hsmall. unfold Owned.cli_da_append.
    cbn [Owned.length Owned.capacity Owned.data].
    rewrite wrap16_small by lia.
    replace (Owned.capacity a <? Owned.length a + 1) with true
      by (symmetry; apply Z.ltb_lt; lia).
    rewrite Hd. reflexivity. }
  split; [|split].
  - intros Hg Hsmall. rewrite Hgrow by assumption.
    unfold bind, Owned.CLI_REALLOC, cli_print_error, CLI_ASSERT. cbn [fst snd].
    rewrite Hg. reflexivity.
  - intros Hg Hpos Hfit. rewrite Hgrow by lia.
    unfold bind at 1. unfold bind at 1. unfold Owned.CLI_REALLOC. cbn [fst snd].
    rewrite Hg. cbn [ret]. subst c.
    rewrite (wrap16_small (Owned.capacity a * 2)) by lia.
    erewrite owned_store_Done; [|cbn; reflexivity|].
    2:{ cbn [Owned.length]. rewrite length_resize. lia. }
    cbn [Owned.length Owned.capacity].
    replace (Z.to_nat (Owned.length a + 1 - 1)) with (List.length toks) by lia.
    eexists _, _. split; [reflexivity|]. split; [|split; [reflexivity|split; [reflexivity|]]].
    + eapply holds_extend; eauto; try lia.
      * rewrite length_resize. lia.
      * rewrite take_resize_le by lia. rewrite resize_le by lia. reflexivity.
    + rewrite length_insert, length_resize. lia.
  - intros Hg Hbad.
    destruct (Z.eq_dec (Owned.capacity a) 65535) as [E|E].
    + unfold Owned.cli_da_append. cbn [Owned.length Owned.capacity Owned.data].
      rewrite Hfull, E.
      change (wrap16 (65535 + 1)) with 0. change (65535 <? 0) with false.
      unfold bind at 1. cbn [ret].
      erewrite owned_store_fault; [reflexivity|cbn; exact Hd|cbn; lia].
    + rewrite Hgrow by lia.
      unfold bind at 1. unfold bind at 1. unfold Owned.CLI_REALLOC. cbn [fst snd].
      rewrite Hg. cbn [ret].
      erewrite owned_store_fault; [reflexivity|cbn; reflexivity|].
      cbn [Owned.length]. rewrite length_resize.
      pose proof (wrap16_range (Owned.capacity a * 2)) as Hw.
      assert (wrap16 (Owned.capacity a * 2) <= Owned.capacity a).
      { unfold wrap16.
        destruct (Z_lt_le_dec (Owned.capacity a * 2) 65536).
        - rewrite Z.mod_small by lia. lia.
        - replace (Owned.capacity a * 2) with (Owned.capacity a * 2 - 65536 + 1 * 65536) by lia.
          rewrite Z.mod_add by lia. rewrite Z.mod_small by lia. lia. }
      lia.
Qed.

Lemma owned_append_Done a toks t w a' w' :
  Owned.holds a toks -> Owned.cli_da_append a t w = Done a' w' ->
  Owned.holds a' (toks ++ [t]) /\ snd w' = snd w /\ Owned.room a (fst w).
Proof.
  intros Hh Hrun. pose proof Hh as (b & Hd & Hl & Hlc & Hcb & Hc & Ht).
  destruct w as [h err].
  destruct (Z_lt_le_dec (Owned.length a) (Owned.capacity a)) as [Hlt|Hge].
  - destruct (owned_append_room a toks t (h, err) Hh Hlt) as (a1 & Hr & Hh1 & _).
    rewrite Hr in Hrun. injection Hrun as <- <-. repeat split; trivial. now left.
  - assert (Hfull : Owned.length a = Owned.capacity a) by lia.
    destruct (owned_append_full a toks b t h err Hh Hd Hfull) as (Hno & Hyes & Hbad).
    destruct (Owned.granted h) eqn:Hg.
    + destruct (Z_lt_le_dec 0 (Owned.capacity a)) as [Hpos|Hz];
        [destruct (Z_lt_le_dec (Owned.capacity a * 2) 65536) as [Hfit|Hbig]|].
      * destruct (Hyes eq_refl Hpos Hfit) as (a1 & b1 & Hr & Hh1 & _).
        rewrite Hr in Hrun. injection Hrun as <- <-. repeat split; trivial.
        right. cbn. auto.
      * rewrite Hbad in Hrun; [discriminate|reflexivity|lia].
      * rewrite Hbad in Hrun; [discriminate|reflexivity|lia].
    + destruct (Z.eq_dec (Owned.capacity a) 65535) as [E|E].
      * exfalso. revert Hrun. unfold Owned.cli_da_append.
        cbn [Owned.length Owned.capacity Owned.data]. rewrite Hfull, E.
        change (wrap16 (65535 + 1)) with 0. change (65535 <? 0) with false.
        unfold bind at 1. cbn [ret].
        erewrite owned_store_fault; [discriminate|cbn; exact Hd|cbn; lia].
      * rewrite Hno in Hrun; [discriminate|reflexivity|lia].
Qed.

(** On a sound container the append completes exactly when there is room. *)
Lemma owned_append_room_iff a toks t w :
  Owned.holds a toks ->
  Owned.room a (fst w) <-> exists a' w', Owned.cli_da_append a t w = Done a' w'.
Proof.
  intros Hh. split.
  - intros [Hlt|(Hg & Hpos & Hfit)].
    + destruct (owned_append_room a toks t w Hh Hlt) as (a1 & Hr & _). eauto.
    + pose proof Hh as (b & Hd & Hl & Hlc & Hcb & Hc & Ht).
      destruct (Z_lt_le_dec (Owned.length a) (Owned.capacity a)) as [Hlt|Hge].
      * destruct (owned_append_room a toks t w Hh Hlt) as (a1 & Hr & _). eauto.
      * assert (Hfull : Owned.length a = Owned.capacity a) by lia.
        destruct w as [h err].
        destruct (owned_append_full a toks b t h err Hh Hd Hfull) as (_ & Hyes & _).
        destruct (Hyes Hg Hpos Hfit) as (a1 & b1 & Hr & _). eauto.
  - intros (a' & w' & Hr). eapply owned_append_Done; eauto.
Qed.

Section OwnedLoop.
Variable cap : nat.
Let OC : DynArray := Owned.container cap.
#[local] Existing Instance OC.

Lemma owned_init_holds junk w a w' :
  Owned.cli_da_init cap junk w = Done a w' ->
  Owned.data a <> None -> Owned.holds a [].
Proof.
  unfold Owned.cli_da_init, Owned.CLI_MALLOC, bind, ret. intros [= <- <-]. cbn.
  destruct (Owned.granted (fst w)); [intros _|congruence].
  eexists. split; [reflexivity|]. cbn.
  pose proof (wrap16_range (Z.of_nat cap)). rewrite length_replicate, Nat2Z.id.
  repeat split; try lia.
  unfold wrap16. apply Z.mod_le; lia.
Qed.

Lemma owned_partitioned_init exe cli0 w0 b cli w :
  @cli_parse_init OC exe cli0 w0 = Done (Continue b cli) w ->
  b = false /\ Owned.partitioned [] false cli.
Proof.
  intros Hi. split; [exact (cli_parse_init_Continue _ _ _ _ _ _ Hi)|].
  revert Hi. unfold cli_parse_init.
  cbn [set args cmd_options program_options execfile cli_da_init data_is_null OC
       Owned.container].
  intros Hi.
  apply bind_Done in Hi as (a1 & w1 & H1 & Hi).
  destruct (Owned.data a1) eqn:D1; [|unfold bind, ret, cli_print_error in Hi; discriminate].
  apply bind_Done in Hi as (a2 & w2 & H2 & Hi).
  destruct (Owned.data a2) eqn:D2; [|unfold bind, ret, cli_print_error in Hi; discriminate].
  apply bind_Done in Hi as (a3 & w3 & H3 & Hi).
  destruct (Owned.data a3) eqn:D3; [|unfold bind, ret, cli_print_error in Hi; discriminate].
  injection Hi as <- <- <-.
  exists [], [], []. cbn [args cmd_options program_options].
  repeat split; eauto using owned_init_holds;
    eapply owned_init_holds; eauto; congruence.
Qed.

Lemma holds_nil_length a toks : Owned.holds a toks -> (0 <? Owned.length a) = false -> toks = [].
Proof.
  intros Hh Hz. apply holds_length in Hh. apply Z.ltb_ge in Hz.
  destruct toks; [reflexivity|]. cbn in Hh. lia.
Qed.

Lemma owned_partitioned_step pre t b cli w b' cli' w' :
  Owned.partitioned pre b cli ->
  @loop_body OC t b cli w = Done (Continue b' cli') w' ->
  Owned.partitioned (pre ++ [t]) b' cli'.
Proof.
  intros (po & ar & co & Hpo & Har & Hco & Hcat & Hb) Hrun.
  unfold Owned.partitioned. rewrite List.filter_app. cbn [List.filter].
  destruct (Ascii.eqb (char_at t 0) "-") eqn:E0.
  - destruct (is_double_dash t) eqn:Ed.
    + rewrite loop_body_double_dash in Hrun by assumption.
      case_branch Hrun.
      * unfold bind, read_item, cli_printf_error, ret in Hrun.
        case_branch Hrun; discriminate.
      * injection Hrun as <- <- <-. exists po, ar, co. cbn [negb].
        rewrite app_nil_r. repeat split; trivial; discriminate.
    + rewrite loop_body_option in Hrun by assumption. cbn zeta in Hrun.
      apply bind_Done in Hrun as (a1 & w1 & Ha & Hrun). injection Hrun as <- <- <-.
      cbn [negb]. destruct b.
      * cbn [get set] in Ha |- *.
        apply (owned_append_Done _ co) in Ha as (Hh1 & _); [|assumption].
        exists po, ar, (co ++ [t]). cbn [args cmd_options program_options].
        repeat split; trivial; try discriminate.
        rewrite <- Hcat. now rewrite <- !app_assoc.
      * cbn [get set] in Ha |- *.
        apply (owned_append_Done _ po) in Ha as (Hh1 & _); [|assumption].
        destruct (Hb eq_refl) as [-> ->].
        exists (po ++ [t]), [], []. cbn [args cmd_options program_options].
        repeat split; trivial.
        rewrite <- Hcat. now rewrite !app_nil_r.
  - rewrite loop_body_positional in Hrun by assumption.
    case_branch Hrun.
    + unfold bind, cli_printf_error, ret in Hrun. discriminate.
    + apply bind_Done in Hrun as (a1 & w1 & Ha & Hrun). injection Hrun as <- <- <-.
      apply (owned_append_Done _ ar) in Ha as (Hh1 & _); [|assumption].
      assert (co = []) as -> by (eapply holds_nil_length; eassumption).
      exists po, (ar ++ [t]), []. cbn [set args cmd_options program_options].
      repeat split; trivial; try discriminate.
      unfold is_double_dash at 2. rewrite E0. cbn [andb negb].
      rewrite <- Hcat. now rewrite !app_nil_r, app_assoc.
Qed.

Lemma owned_partitioned_scan pre0 pre b cli w b' cli' w' :
  Owned.partitioned pre0 b cli ->
  @scan OC pre b cli w = Done (Continue b' cli') w' ->
  Owned.partitioned (pre0 ++ pre) b' cli'.
Proof.
  revert pre0 b cli w. induction pre as [|t pre IH]; intros pre0 b cli w Hp.
  - intros [= <- <- <-]. now rewrite app_nil_r.
  - cbn [scan]. intros Hs. apply bind_Done in Hs as (c1 & w1 & Hb & Hs).
    destruct c1 as [b1 cli1|e1 cli1]; [|discriminate].
    replace (pre0 ++ t :: pre) with ((pre0 ++ [t]) ++ pre) by now rewrite <- app_assoc.
    eapply IH; [|exact Hs]. eapply owned_partitioned_step; eauto.
Qed.

(** Whenever [cli_parse] is about to read the token after [pre], the
    invariant holds of [pre]. *)
Lemma owned_partitioned_upto exe pre cli0 w0 b cli w :
  @cli_parse_upto OC exe pre cli0 w0 = Done (Continue b cli) w ->
  Owned.partitioned pre b cli.
Proof.
  unfold cli_parse_upto. intros Hu. apply bind_Done in Hu as (c & w1 & Hi & Hs).
  destruct c as [b1 cli1|e1 cli1]; [|discriminate].
  apply owned_partitioned_init in Hi as [-> Hp].
  exact (owned_partitioned_scan [] pre _ _ _ _ _ _ Hp Hs).
Qed.

End OwnedLoop.

(** The cell [data[length - 1]] of a sound, non-empty container is the
    token appended last. *)
Lemma holds_last a toks h :
  Owned.holds a toks -> toks <> [] ->
  0 < Owned.length a /\
  exists prev, last toks = Some prev /\ Owned.load a (Owned.length a - 1) h = Some prev.
Proof.
  intros (b & Hd & Hl & Hlc & Hcb & Hc & Ht) Hne.
  destruct (last toks) as [prev|] eqn:Hlast; [|now apply last_None in Hlast].
  assert (0 < List.length toks)%nat by (destruct toks; [congruence|cbn; lia]).
  split; [lia|]. exists prev. split; [reflexivity|].
  unfold Owned.load. rewrite Hd.
  replace (0 <=? Owned.length a - 1) with true by (symmetry; apply Z.leb_le; lia).
  replace (Z.to_nat (Owned.length a - 1)) with (pred (List.length toks)) by lia.
  rewrite <- (lookup_take_lt b (List.length toks)) by lia.
  rewrite Ht, list_lookup_fmap, <- last_lookup, Hlast. reflexivity.
Qed.

Lemma holds_elements_nil a toks :
  Owned.holds a toks -> Owned.elements a = [] <-> toks = [].
Proof.
  intros Hh. rewrite (holds_elements _ _ Hh). split.
  - apply fmap_nil_inv.
  - now intros ->.
Qed.

Lemma filter_double_dash (l : list token) :
  Forall c_string l ->
  List.filter (fun t => negb (is_double_dash t)) l =
  List.filter (fun t => negb (String.eqb t "--")) l.
Proof.
  intros Hl. apply List.filter_ext_in. intros t Ht. f_equal.
  apply List.Forall_forall with (x := t) in Hl; [|exact Ht].
  destruct (String.eqb_spec t "--") as [->|Hne]; [reflexivity|].
  now apply is_double_dash_false.
Qed.

(** ** The grammar rules, on the heap build *)

(** The separator on the heap build.  Whenever [cli_parse] meets the token
    "--" after the tokens [pre]:
    if [args] is non-empty it stops with [CliErrorUser], the struct and the
    heap left as they were, and prints the double-dash message with the
    token and the positional argument recorded last; if [args] is empty it
    goes on with the rest of the input, the scope flag set and the three
    containers untouched, so the separator is stored nowhere. *)
Lemma owned_separator_step (cap : nat) exe pre post cli0 w0 b
  (cli : Cli Owned.CliArray) h err :
  @cli_parse_upto (Owned.container cap) exe pre cli0 w0 = Done (Continue b cli) (h, err) ->
  (Owned.elements (args cli) <> [] ->
   exists prev,
     last (Owned.elements (args cli)) = Some (Some prev) /\
     @cli_parse (Owned.container cap) (exe :: pre ++ "--" :: post) cli0 w0 =
       Done (CliErrorUser, cli)
         (h, err ++ [Diag "CLI error" double_dash_msg ["--"; prev]]))
  /\
  (Owned.elements (args cli) = [] ->
   @cli_parse (Owned.container cap) (exe :: pre ++ "--" :: post) cli0 w0 =
     @cli_parse_loop (Owned.container cap) post true cli (h, err)).
Proof.
  intros Hu. pose proof (owned_partitioned_upto _ _ _ _ _ _ _ _ Hu)
    as (po & ar & co & Hpo & Har & Hco & Hcat & Hb).
  rewrite cli_parse_at, Hu. cbn [cli_parse_loop].
  rewrite loop_body_double_dash by reflexivity.
  owned_methods.
  rewrite (holds_elements_nil _ _ Har). split.
  - intros Hne. destruct (holds_last _ _ h Har Hne) as (Hpos & prev & Hlast & Hload).
    exists prev. split.
    + rewrite (holds_elements _ _ Har), fmap_last, Hlast. reflexivity.
    + replace (0 <? Owned.length (args cli)) with true by (symmetry; now apply Z.ltb_lt).
      unfold bind, read_item, cli_printf_error, ret. owned_methods. cbn [fst snd].
      rewrite Hload. reflexivity.
  - intros ->. rewrite (holds_length _ _ Har). reflexivity.
Qed.

(** A positional token on the heap build.  Whenever [cli_parse] meets a
    token that does not begin with '-'
    (the empty string is one) after the tokens [pre]: if [cmd_options] is
    non-empty it stops with [CliErrorUser], the struct and the heap left as
    they were, and prints the positional message with the token; otherwise
    it appends the token to [args] and goes on with the scope flag set.
    The append completes exactly when [args] has room, and then [args]
    holds its former cells followed by the token. *)
Lemma owned_positional_step (cap : nat) exe pre post cli0 w0 b
  (cli : Cli Owned.CliArray) h err t :
  char_at t 0 <> "-"%char ->
  @cli_parse_upto (Owned.container cap) exe pre cli0 w0 = Done (Continue b cli) (h, err) ->
  (Owned.elements (cmd_options cli) <> [] ->
   @cli_parse (Owned.container cap) (exe :: pre ++ t :: post) cli0 w0 =
     Done (CliErrorUser, cli) (h, err ++ [Diag "CLI error" positional_msg [t]]))
  /\
  (Owned.elements (cmd_options cli) = [] ->
   @cli_parse (Owned.container cap) (exe :: pre ++ t :: post) cli0 w0 =
     (a <- Owned.cli_da_append (args cli) t;;
      @cli_parse_loop (Owned.container cap) post true
        (mkCli (execfile cli) a (cmd_options cli) (program_options cli))) (h, err)
   /\
   (Owned.room (args cli) h <->
    exists a w, Owned.cli_da_append (args cli) t (h, err) = Done a w)
   /\
   (forall a w, Owned.cli_da_append (args cli) t (h, err) = Done a w ->
      Owned.elements a = Owned.elements (args cli) ++ [Some t])).
Proof.
  intros Ht Hu. pose proof (owned_partitioned_upto _ _ _ _ _ _ _ _ Hu)
    as (po & ar & co & Hpo & Har & Hco & Hcat & Hb).
  assert (E0 : Ascii.eqb (char_at t 0) "-" = false) by now apply Ascii.eqb_neq.
  rewrite cli_parse_at, Hu. cbn [cli_parse_loop].
  rewrite loop_body_positional by assumption.
  owned_methods.
  rewrite (holds_elements_nil _ _ Hco). split.
  - intros Hne. destruct (holds_last _ _ h Hco Hne) as (Hpos & _).
    replace (0 <? Owned.length (cmd_options cli)) with true
      by (symmetry; now apply Z.ltb_lt).
    reflexivity.
  - intros ->. rewrite (holds_length _ _ Hco). cbn [List.length].
    change (0 <? Z.of_nat 0) with false.
    split; [|split].
    + cbn [set]. unfold bind, ret.
      destruct (Owned.cli_da_append (args cli) t (h, err)) as [a w| |]; reflexivity.
    + exact (owned_append_room_iff _ _ t (h, err) Har).
    + intros a w Ha. apply (owned_append_Done _ _ _ _ _ _ Har) in Ha as (Hh & _).
      now rewrite (holds_elements _ _ Hh), (holds_elements _ _ Har), fmap_app.
Qed.

(** An option on the heap build.  Whenever [cli_parse] meets, after the
    tokens [pre], a token that
    begins with '-' and is not "--" (a lone "-" is one), it appends the
    token to [cmd_options] if the scope flag is set and to
    [program_options] otherwise, and goes on with the flag unchanged and the
    two other containers untouched.  The append completes exactly when the
    destination has room, and then the destination holds its former cells
    followed by the token. *)
Lemma owned_option_step (cap : nat) exe pre post cli0 w0 b
  (cli : Cli Owned.CliArray) h err t :
  c_string t -> char_at t 0 = "-"%char -> t <> "--" ->
  @cli_parse_upto (Owned.container cap) exe pre cli0 w0 = Done (Continue b cli) (h, err) ->
  let dest := if b then CmdOptions else ProgramOptions in
  @cli_parse (Owned.container cap) (exe :: pre ++ t :: post) cli0 w0 =
    (a <- Owned.cli_da_append (get dest cli) t;;
     @cli_parse_loop (Owned.container cap) post b (set dest a cli)) (h, err)
  /\
  (Owned.room (get dest cli) h <->
   exists a w, Owned.cli_da_append (get dest cli) t (h, err) = Done a w)
  /\
  (forall a w, Owned.cli_da_append (get dest cli) t (h, err) = Done a w ->
     Owned.elements a = Owned.elements (get dest cli) ++ [Some t]).
Proof.
  intros Hc Ht Hne Hu dest.
  pose proof (owned_partitioned_upto _ _ _ _ _ _ _ _ Hu)
    as (po & ar & co & Hpo & Har & Hco & Hcat & Hb).
  assert (E0 : Ascii.eqb (char_at t 0) "-" = true) by now apply Ascii.eqb_eq.
  assert (Hdest : exists toks, Owned.holds (get dest cli) toks).
  { destruct b; cbn; eauto. }
  destruct Hdest as (toks & Hdest).
  split; [|split].
  - rewrite cli_parse_at, Hu. cbn [cli_parse_loop].
    rewrite loop_body_option by auto using is_double_dash_false.
    owned_methods. fold dest. unfold bind, ret.
    destruct (Owned.cli_da_append (get dest cli) t (h, err)) as [a w| |]; reflexivity.
  - exact (owned_append_room_iff _ _ t (h, err) Hdest).
  - intros a w Ha. apply (owned_append_Done _ _ _ _ _ _ Hdest) in Ha as (Hh & _).
    now rewrite (holds_elements _ _ Hh), (holds_elements _ _ Hdest), fmap_app.
Qed.

(** A completed pass stores the tokens that are not separators, in input
    order: program options, then positional arguments, then command
    options. *)
Lemma owned_parse_ok_concat (cap : nat) argv cli0 w0 (cli : Cli Owned.CliArray) w :
  @cli_parse (Owned.container cap) argv cli0 w0 = Done (CliErrorOk, cli) w ->
  Owned.elements (program_options cli) ++ Owned.elements (args cli)
    ++ Owned.elements (cmd_options cli) =
  Some <$> List.filter (fun t => negb (is_double_dash t)) (tail argv).
Proof.
  destruct argv as [|exe [|t rest]].
  - discriminate.
  - intros [= <- <-]. reflexivity.
  - rewrite cli_parse_all.
    destruct (@cli_parse_upto (Owned.container cap) exe (t :: rest) cli0 w0)
      as [[b cli1|e cli1] w1| |] eqn:Hu; try discriminate.
    + intros [= <- <-].
      apply owned_partitioned_upto in Hu as (po & ar & co & Hpo & Har & Hco & Hcat & _).
      rewrite (holds_elements _ _ Hpo), (holds_elements _ _ Har), (holds_elements _ _ Hco).
      cbn [tail]. rewrite <- Hcat, !fmap_app. reflexivity.
    + intros [= -> <- <-]. exfalso.
      unfold cli_parse_upto in Hu. apply bind_Done in Hu as (c & w2 & Hi & Hs).
      destruct c as [b2 cli2|e2 cli2].
      * apply scan_Return in Hs as (p1 & t1 & p2 & b3 & cli3 & w3 & _ & _ & Hb).
        apply loop_body_Return in Hb as (Hb & _). discriminate.
      * injection Hs as -> _ _. apply cli_parse_init_Return in Hi. discriminate.
Qed.

(** A completed pass on the heap build.  When [cli_parse] returns
    [CliErrorOk], the cells of
    [program_options], then those of [args], then those of [cmd_options]
    are a permutation of the input tokens after the execution path with
    every "--" removed. *)
Lemma owned_ok_permutation (cap : nat) argv cli0 w0 (cli : Cli Owned.CliArray) w :
  Forall c_string argv ->
  @cli_parse (Owned.container cap) argv cli0 w0 = Done (CliErrorOk, cli) w ->
  Permutation
    (Owned.elements (program_options cli) ++ Owned.elements (args cli)
       ++ Owned.elements (cmd_options cli))
    (Some <$> List.filter (fun t => negb (String.eqb t "--")) (tail argv)).
Proof.
  intros Hc Hrun. rewrite (owned_parse_ok_concat _ _ _ _ _ _ Hrun).
  rewrite filter_double_dash; [reflexivity|].
  destruct argv; [constructor|]. now inversion Hc.
Qed.

(** ** The whole pass, for either container *)

(** C5. Whatever [cli_parse] returns on a non-empty input, be it
    [CliErrorOk], [CliErrorUser] or [CliErrorFatal], the [execfile] of the
    struct is the first token. *)
Theorem execfile_is_first_token `{DynArray} exe rest cli w e cli' w' :
  cli_parse (exe :: rest) cli w = Done (e, cli') w' -> execfile cli' = Some exe.
Proof.
  destruct rest as [|t rest].
  - now intros [= <- <- <-].
  - rewrite cli_parse_all. unfold cli_parse_upto.
    destruct (bind _ _ w) as [c w1| |] eqn:Hu; try (now destruct c); try discriminate.
    apply bind_Done in Hu as (c0 & w2 & Hi & Hs).
    apply cli_parse_init_execfile in Hi.
    assert (Hc : execfile (match c with Continue _ x | Return _ x => x end) = Some exe).
    { destruct c0 as [b0 cli0|e0 cli0].
      - apply scan_execfile in Hs. congruence.
      - now injection Hs as <- <-. }
    destruct c; intros [= <- <- <-]; exact Hc.
Qed.

Lemma execfile_is_first_token_witness :
  @cli_parse Owned.default ("prog" :: ["run"; "-x"; "late"]) Owned.blank Owned.generous =
    Done (CliErrorUser, Owned.struct "prog" ["run"] ["-x"] [])
      (Owned.settled, [Diag "CLI error" positional_msg ["late"]])
  /\
  execfile (Owned.struct "prog" ["run"] ["-x"] []) = Some "prog".
Proof.
  split; [vm_compute; reflexivity|].
  apply (@execfile_is_first_token Owned.default "prog" ["run"; "-x"; "late"]
           Owned.blank Owned.generous CliErrorUser
           (Owned.struct "prog" ["run"] ["-x"] [])
           (Owned.settled, [Diag "CLI error" positional_msg ["late"]])).
  vm_compute; reflexivity.
Defined.

(** C6. On an input that is only the execution path [cli_parse] returns
    [CliErrorOk]: the struct is zeroed, then [execfile] is set; the three
    containers have length 0 and span no cell; no memory is requested and
    nothing is printed.  So it is with the heap containers and, through
    [cli_parse_noheap], with the arena containers. *)
Theorem lone_execfile_ok (exe : token) :
  (forall cap cli w,
     exists cli',
       @cli_parse (Owned.container cap) [exe] cli w = Done (CliErrorOk, cli') w /\
       execfile cli' = Some exe /\
       Owned.elements (args cli') = [] /\
       Owned.elements (cmd_options cli') = [] /\
       Owned.elements (program_options cli') = [] /\
       Owned.length (args cli') = 0 /\
       Owned.length (cmd_options cli') = 0 /\
       Owned.length (program_options cli') = 0)
  /\
  (forall cli stack w,
     exists cli',
       Borrowed.cli_parse_noheap [exe] cli stack w =
         Done (CliErrorOk, cli') (Borrowed.mkArena (Borrowed.cells (fst w)) stack, snd w) /\
       execfile cli' = Some exe /\
       (forall m, Borrowed.elements (args cli') m = [] /\
                  Borrowed.elements (cmd_options cli') m = [] /\
                  Borrowed.elements (program_options cli') m = []) /\
       Borrowed.length (args cli') = 0 /\
       Borrowed.length (cmd_options cli') = 0 /\
       Borrowed.length (program_options cli') = 0).
Proof.
  split.
  - intros cap cli w. eexists. split; [reflexivity|]. repeat split.
  - intros cli stack w. eexists. split; [reflexivity|]. repeat split.
Qed.

(** C7. [cli_parse] returns [CliErrorUser] exactly when, about to read some
    token [t] of the input, it finds one of the two grammar errors.  It
    returns at once: the struct and the memory are those it held when it
    reached [t], nothing appended before is undone, one line is added to
    [stderr], and the tokens after [t] play no part. *)
Theorem user_error_is_eager `{DynArray} argv cli0 w0 cli w :
  cli_parse argv cli0 w0 = Done (CliErrorUser, cli) w <->
  exists exe pre t post b m err d,
    argv = exe :: pre ++ t :: post /\
    cli_parse_upto exe pre cli0 w0 = Done (Continue b cli) (m, err) /\
    grammar_error t cli m d /\
    w = (m, err ++ [d]).
Proof.
  split.
  - destruct argv as [|exe [|t rest]]; try discriminate.
    rewrite cli_parse_all. unfold cli_parse_upto.
    destruct (bind _ _ w0) as [[b1 cli1|e1 cli1] w1| |] eqn:Hu; try discriminate.
    intros [= -> -> ->].
    apply bind_Done in Hu as (c & w2 & Hi & Hs).
    destruct c as [b2 cli2|e2 cli2].
    + apply scan_Return in Hs as (pre & t1 & post & b3 & cli3 & [m err] & Hsplit & Hs & Hb).
      apply loop_body_Return in Hb as (_ & -> & Hm & Hd). cbn [fst snd] in Hm, Hd.
      destruct w as [m' err']. cbn [fst snd] in Hm, Hd. subst m'.
      assert (Hg : exists d, grammar_error t1 cli3 m d /\ err' = err ++ [d]).
      { destruct Hd as [(Hdd & Hlen & prev & Hp & ->)|(Hpos & Hlen & ->)].
        - eexists. split; [|reflexivity]. left. eauto.
        - eexists. split; [|reflexivity]. right. repeat split; trivial.
          now apply Ascii.eqb_neq. }
      destruct Hg as (d & Hg & ->).
      exists exe, pre, t1, post, b3, m, err, d. rewrite Hsplit.
      repeat split; trivial.
      unfold cli_parse_upto. rewrite (bind_eq_Done _ _ _ _ _ Hi). exact Hs.
    + injection Hs as -> _ _. apply cli_parse_init_Return in Hi. discriminate.
  - intros (exe & pre & t & post & b & m & err & d & -> & Hu & Hg & ->).
    rewrite cli_parse_at, Hu. cbn [cli_parse_loop].
    destruct Hg as [(Hdd & Hlen & prev & Hp & ->)|(Hpos & Hlen & ->)].
    + rewrite loop_body_double_dash by assumption.
      apply Z.ltb_lt in Hlen. rewrite Hlen.
      unfold bind, read_item, cli_printf_error, ret. cbn [fst snd].
      rewrite Hp. reflexivity.
    + rewrite loop_body_positional by now apply Ascii.eqb_neq.
      apply Z.ltb_lt in Hlen. rewrite Hlen. reflexivity.
Qed.

Lemma user_error_is_eager_witness :
  @cli_parse Owned.default ["prog"; "a"; "-x"; "b"; "--"; "c"] Owned.blank Owned.generous =
    Done (CliErrorUser, Owned.struct "prog" ["a"] ["-x"] [])
      (Owned.settled, [Diag "CLI error" positional_msg ["b"]])
  /\
  exists exe pre t post b m err d,
    ["prog"; "a"; "-x"; "b"; "--"; "c"] = exe :: pre ++ t :: post /\
    @cli_parse_upto Owned.default exe pre Owned.blank Owned.generous =
      Done (Continue b (Owned.struct "prog" ["a"] ["-x"] [])) (m, err) /\
    @grammar_error Owned.default t (Owned.struct "prog" ["a"] ["-x"] []) m d /\
    (Owned.settled, [Diag "CLI error" positional_msg ["b"]]) = (m, err ++ [d]).
Proof.
  assert (Hrun :
    @cli_parse Owned.default ["prog"; "a"; "-x"; "b"; "--"; "c"] Owned.blank
      Owned.generous =
      Done (CliErrorUser, Owned.struct "prog" ["a"] ["-x"] [])
        (Owned.settled, [Diag "CLI error" positional_msg ["b"]])).
  { vm_compute; reflexivity. }
  split; [exact Hrun|].
  exact (proj1 (@user_error_is_eager Owned.default
                  ["prog"; "a"; "-x"; "b"; "--"; "c"] Owned.blank Owned.generous
                  (Owned.struct "prog" ["a"] ["-x"] [])
                  (Owned.settled, [Diag "CLI error" positional_msg ["b"]])) Hrun).
Defined.

(** ** Allocation failures, on the default build *)

(** An append that has to grow, and is refused, prints the memory error and
    trips [CLI_ASSERT (0 && "Memory error")]. *)
Lemma owned_append_refused a t h err :
  Owned.capacity a < wrap16 (Owned.length a + 1) -> Owned.granted h = false ->
  Owned.cli_da_append a t (h, err) =
    AssertFailed "0 && 'Memory error'"
      (Owned.asked h
         (Owned.Realloc
            (Z.of_nat (List.length (match Owned.data a with Some b => b | None => [] end)))
            (wrap16 (Owned.capacity a * 2))),
       err ++ [Diag "Memory error" "Unable to reallocate memory for more array items." []]).
Proof.
  intros Hgrow Hg. unfold Owned.cli_da_append.
  cbn [Owned.length Owned.capacity Owned.data].
  apply Z.ltb_lt in Hgrow. rewrite Hgrow.
  unfold bind, Owned.CLI_REALLOC, cli_print_error, CLI_ASSERT. cbn [fst snd].
  rewrite Hg. reflexivity.
Qed.

(** [cli_parse_init] returns [CliErrorFatal] when one of its three
    [CLI_MALLOC] requests is refused, and enters the loop otherwise. *)
Lemma owned_init_cases (cap : nat) exe cli0 h err :
  (In false (take 3 (Owned.oracle h)) ->
   exists cli w,
     @cli_parse_init (Owned.container cap) exe cli0 (h, err) =
       Done (Return CliErrorFatal cli) w)
  /\
  (~ In false (take 3 (Owned.oracle h)) ->
   exists cli w,
     @cli_parse_init (Owned.container cap) exe cli0 (h, err) =
       Done (Continue false cli) w).
Proof.
  destruct h as [o c].
  destruct o as [|[|] [|[|] [|[|] o]]]; cbn [Owned.oracle take In]; split; intros Hin;
    try (exfalso; intuition discriminate);
    eexists _, _; lazy -[wrap16 Z.of_nat Z.to_nat replicate app]; reflexivity.
Qed.

(** C8, amended.  On the default build [cli_parse] returns [CliErrorFatal]
    exactly when one of the three initial [CLI_MALLOC] requests is refused.
    A refusal to grow is not returned as a tier: when the loop, about to
    read [t], appends [t] to a container that has to grow and [CLI_REALLOC]
    is refused, [cli_parse] prints the memory error and ends in the failed
    [CLI_ASSERT]. *)
Theorem growth_failure_aborts (cap : nat) :
  (forall argv cli0 h err,
     (exists cli w,
        @cli_parse (Owned.container cap) argv cli0 (h, err) = Done (CliErrorFatal, cli) w)
     <-> (2 <= List.length argv)%nat /\ In false (take 3 (Owned.oracle h)))
  /\
  (forall exe pre t post cli0 w0 b (cli : Cli Owned.CliArray) h err dest,
     @cli_parse_upto (Owned.container cap) exe pre cli0 w0 = Done (Continue b cli) (h, err) ->
     @target (Owned.container cap) t b cli = Some dest ->
     Owned.capacity (get dest cli) < wrap16 (Owned.length (get dest cli) + 1) ->
     Owned.granted h = false ->
     exists old,
       @cli_parse (Owned.container cap) (exe :: pre ++ t :: post) cli0 w0 =
         AssertFailed "0 && 'Memory error'"
           (Owned.asked h
              (Owned.Realloc old (wrap16 (Owned.capacity (get dest cli) * 2))),
            err ++ [Diag "Memory error"
                      "Unable to reallocate memory for more array items." []])).
Proof.
  split.
  - intros argv cli0 h err. split.
    + intros (cli & w & Hrun). destruct argv as [|exe [|t rest]]; try discriminate.
      split; [cbn; lia|].
      destruct (In_dec bool_dec false (take 3 (Owned.oracle h))) as [Hin|Hin]; [exact Hin|].
      exfalso. rewrite cli_parse_all in Hrun. unfold cli_parse_upto in Hrun.
      destruct (proj2 (owned_init_cases cap exe cli0 h err) Hin) as (cli1 & w1 & Hi).
      rewrite (bind_eq_Done _ _ _ _ _ Hi) in Hrun.
      destruct (@scan (Owned.container cap) (t :: rest) false cli1 w1)
        as [[b2 cli2|e2 cli2] w2| |] eqn:Hs; try discriminate.
      apply scan_Return in Hs as (p1 & t1 & p2 & b3 & cli3 & w3 & _ & _ & Hb).
      apply loop_body_Return in Hb as (-> & _). discriminate.
    + intros (Hlen & Hin). destruct argv as [|exe [|t rest]]; cbn in Hlen; try lia.
      destruct (proj1 (owned_init_cases cap exe cli0 h err) Hin) as (cli1 & w1 & Hi).
      exists cli1, w1. rewrite cli_parse_all. unfold cli_parse_upto.
      now rewrite (bind_eq_Done _ _ _ _ _ Hi).
  - intros exe pre t post cli0 w0 b cli h err dest Hu Ht Hgrow Hg.
    eexists. rewrite cli_parse_at, Hu. cbn [cli_parse_loop].
    rewrite (loop_body_target _ _ _ _ Ht). owned_methods.
    unfold bind at 1. unfold bind at 1.
    rewrite (owned_append_refused _ t h err Hgrow Hg). reflexivity.
Qed.

Lemma growth_failure_aborts_witness :
  @cli_parse_upto Owned.default "prog" ["a"; "b"; "c"; "d"; "e"] Owned.blank
    (Owned.mkHeap [true; true; true; false] [], []) =
    Done (Continue true (Owned.struct "prog" ["a"; "b"; "c"; "d"; "e"] [] []))
      (Owned.mkHeap [false] [Owned.Malloc 5; Owned.Malloc 5; Owned.Malloc 5], [])
  /\
  @target Owned.default "f" true (Owned.struct "prog" ["a"; "b"; "c"; "d"; "e"] [] []) =
    Some Args
  /\
  Owned.capacity (get Args (Owned.struct "prog" ["a"; "b"; "c"; "d"; "e"] [] []))
    < wrap16 (Owned.length (get Args (Owned.struct "prog" ["a"; "b"; "c"; "d"; "e"] [] [])) + 1)
  /\
  Owned.granted (Owned.mkHeap [false] [Owned.Malloc 5; Owned.Malloc 5; Owned.Malloc 5]) = false
  /\
  exists old,
    @cli_parse Owned.default ("prog" :: ["a"; "b"; "c"; "d"; "e"] ++ "f" :: ["g"])
      Owned.blank (Owned.mkHeap [true; true; true; false] [], []) =
      AssertFailed "0 && 'Memory error'"
        (Owned.asked (Owned.mkHeap [false] [Owned.Malloc 5; Owned.Malloc 5; Owned.Malloc 5])
           (Owned.Realloc old
              (wrap16 (Owned.capacity
                         (get Args (Owned.struct "prog" ["a"; "b"; "c"; "d"; "e"] [] [])) * 2))),
         [] ++ [Diag "Memory error"
                  "Unable to reallocate memory for more array items." []]).
Proof.
  split; [vm_compute; reflexivity|]. split; [reflexivity|].
  split; [vm_compute; reflexivity|]. split; [reflexivity|].
  apply (proj2 (growth_failure_aborts 5) "prog" ["a"; "b"; "c"; "d"; "e"] "f" ["g"]
           Owned.blank (Owned.mkHeap [true; true; true; false] [], []) true
           (Owned.struct "prog" ["a"; "b"; "c"; "d"; "e"] [] [])
           (Owned.mkHeap [false] [Owned.Malloc 5; Owned.Malloc 5; Owned.Malloc 5]) [] Args).
  - vm_compute; reflexivity.
  - reflexivity.
  - vm_compute; reflexivity.
  - reflexivity.
Defined.

(** C8 as stated fails: with the default capacity 5, the sixth positional
    argument makes [args] grow; when that [CLI_REALLOC] is refused the parse
    ends in the failed [CLI_ASSERT], and [cli_parse] returns no
    [CliErrorFatal]. *)
Lemma growth_failure_is_not_fatal :
  @cli_parse Owned.default ["prog"; "a"; "b"; "c"; "d"; "e"; "f"] Owned.blank
    (Owned.mkHeap [true; true; true; false] [], []) =
    AssertFailed "0 && 'Memory error'"
      (Owned.mkHeap []
         [Owned.Malloc 5; Owned.Malloc 5; Owned.Malloc 5; Owned.Realloc 5 10],
       [Diag "Memory error" "Unable to reallocate memory for more array items." []])
  /\
  ~ (exists cli w,
       @cli_parse Owned.default ["prog"; "a"; "b"; "c"; "d"; "e"; "f"] Owned.blank
         (Owned.mkHeap [true; true; true; false] [], []) = Done (CliErrorFatal, cli) w).
Proof.
  assert (Hrun :
    @cli_parse Owned.default ["prog"; "a"; "b"; "c"; "d"; "e"; "f"] Owned.blank
      (Owned.mkHeap [true; true; true; false] [], []) =
      AssertFailed "0 && 'Memory error'"
        (Owned.mkHeap []
           [Owned.Malloc 5; Owned.Malloc 5; Owned.Malloc 5; Owned.Realloc 5 10],
         [Diag "Memory error" "Unable to reallocate memory for more array items." []])).
  { vm_compute; reflexivity. }
  split; [exact Hrun|]. intros (cli & w & Hdone). rewrite Hrun in Hdone. discriminate.
Qed.

(** ** Growth of a heap container *)

(** [ceil_log2_ratio n c] is the integer [k] with
    [2 ^ (k - 1) < n / c <= 2 ^ k], over the rationals. *)
Lemma ceil_log2_ratio_spec (n c : Z) :
  0 < n -> 0 < c ->
  (Qpower 2 (ceil_log2_ratio n c - 1) < inject_Z n / inject_Z c)%Q /\
  (inject_Z n / inject_Z c <= Qpower 2 (ceil_log2_ratio n c))%Q.
Proof.
  intros Hn Hc. unfold ceil_log2_ratio.
  assert (Hpow : forall j, 0 <= j -> (Qpower 2 j == inject_Z (2 ^ j))%Q).
  { intros j Hj. change 2%Q with (inject_Z 2). symmetry. now apply Zpower_Qpower. }
  assert (Hneg : forall j, 0 < j -> (Qpower 2 (- j) == / inject_Z (2 ^ j))%Q).
  { intros j Hj. rewrite Qpower_opp, Hpow by lia. reflexivity. }
  assert (Hdiv_le : forall z, (inject_Z n / inject_Z c <= inject_Z z)%Q <-> n <= z * c).
  { intros z. unfold Qle, Qdiv, Qmult, Qinv, inject_Z. cbn.
    destruct c as [|pc|pc]; try lia. cbn. lia. }
  assert (Hdiv_lt : forall z, (inject_Z z < inject_Z n / inject_Z c)%Q <-> z * c < n).
  { intros z. unfold Qlt, Qdiv, Qmult, Qinv, inject_Z. cbn.
    destruct c as [|pc|pc]; try lia. cbn. lia. }
  assert (Hinv_le : forall z, 0 < z -> (inject_Z n / inject_Z c <= / inject_Z z)%Q <-> n * z <= c).
  { intros z Hz. unfold Qle, Qdiv, Qmult, Qinv, inject_Z. cbn.
    destruct c as [|pc|pc]; try lia. destruct z as [|pz|pz]; try lia. cbn. lia. }
  assert (Hinv_lt : forall z, 0 < z -> (/ inject_Z z < inject_Z n / inject_Z c)%Q <-> c < n * z).
  { intros z Hz.
    unfold Qlt, Qdiv, Qmult, Qinv, inject_Z. cbn.
    destruct c as [|pc|pc]; try lia. destruct z as [|pz|pz]; try lia. cbn. lia. }
  destruct (Z.leb_spec n c) as [Hle|Hgt].
  - (* n <= c: the exponent is minus the binary logarithm of the quotient *)
    assert (Hq : 1 <= c / n) by (apply Z.div_le_lower_bound; lia).
    pose proof (Z.log2_spec (c / n) ltac:(lia)) as [Hlo Hhi].
    pose proof (Z.log2_nonneg (c / n)) as Hj.
    pose proof (Z.mul_div_le c n Hn) as Hfloor.
    pose proof (Z.mul_succ_div_gt c n Hn) as Hceil.
    set (j := Z.log2 (c / n)) in *.
    assert (Hp : 0 < 2 ^ j) by (apply Z.pow_pos_nonneg; lia).
    split.
    + replace (- j - 1) with (- (j + 1)) by lia.
      rewrite Hneg by lia. apply Hinv_lt; [apply Z.pow_pos_nonneg; lia|].
      rewrite <- Z.add_1_r in Hhi. nia.
    + destruct (Z.eq_dec j 0) as [E|E].
      * rewrite E. cbn. apply (Hdiv_le 1). lia.
      * rewrite Hneg by lia. apply Hinv_le; [exact Hp|]. nia.
  - (* c < n: the exponent is the binary logarithm, rounded up, of the
       quotient rounded up *)
    assert (Hm : (n + c - 1) / c = (n - 1) / c + 1).
    { replace (n + c - 1) with (n - 1 + 1 * c) by lia. now rewrite Z.div_add by lia. }
    assert (Hq : 1 <= (n - 1) / c) by (apply Z.div_le_lower_bound; lia).
    pose proof (Z.log2_up_spec ((n + c - 1) / c) ltac:(lia)) as [Hlo Hhi].
    pose proof (Z.mul_div_le (n - 1) c Hc) as Hfloor.
    pose proof (Z.mul_succ_div_gt (n - 1) c Hc) as Hceil.
    assert (Hg : 0 < Z.log2_up ((n + c - 1) / c)) by (apply Z.log2_up_pos; lia).
    set (g := Z.log2_up ((n + c - 1) / c)) in *.
    replace (Z.pred g) with (g - 1) in Hlo by lia.
    split.
    + rewrite Hpow by lia. apply Hdiv_lt. rewrite Hm in Hlo. nia.
    + rewrite Hpow by lia. apply Hdiv_le. rewrite Hm in Hhi. nia.
Qed.

(** Clamped at 0, the formula is the least number [k] of doublings that
    bring the capacity [c] to [n] or more. *)
Lemma growth_count_spec (n c : Z) :
  1 <= n -> 1 <= c ->
  let k := Z.max 0 (ceil_log2_ratio n c) in
  n <= c * 2 ^ k /\ (k = 0 \/ c * 2 ^ (k - 1) < n).
Proof.
  intros Hn Hc. unfold ceil_log2_ratio.
  destruct (Z.leb_spec n c) as [Hle|Hgt].
  - pose proof (Z.log2_nonneg (c / n)). rewrite Z.max_l by lia.
    cbn. split; [lia|now left].
  - assert (Hm : (n + c - 1) / c = (n - 1) / c + 1).
    { replace (n + c - 1) with (n - 1 + 1 * c) by lia. now rewrite Z.div_add by lia. }
    assert (Hq : 1 <= (n - 1) / c) by (apply Z.div_le_lower_bound; lia).
    pose proof (Z.log2_up_spec ((n + c - 1) / c) ltac:(lia)) as [Hlo Hhi].
    pose proof (Z.mul_div_le (n - 1) c ltac:(lia)) as Hfloor.
    pose proof (Z.mul_succ_div_gt (n - 1) c ltac:(lia)) as Hceil.
    assert (Hg : 0 < Z.log2_up ((n + c - 1) / c)) by (apply Z.log2_up_pos; lia).
    set (g := Z.log2_up ((n + c - 1) / c)) in *.
    replace (Z.pred g) with (g - 1) in Hlo by lia.
    rewrite Z.max_r by lia. rewrite Hm in Hlo, Hhi. split; [nia|right; nia].
Qed.

Lemma reallocations_app cs1 cs2 :
  Owned.reallocations (cs1 ++ cs2) = Owned.reallocations cs1 + Owned.reallocations cs2.
Proof.
  unfold Owned.reallocations. rewrite List.filter_app, length_app. lia.
Qed.

Lemma reallocations_doublings k c :
  Owned.reallocations (Owned.doublings k c) = Z.of_nat k.
Proof.
  revert c. induction k as [|k IH]; intros c; [reflexivity|].
  change (Owned.doublings (S k) c) with ([Owned.Realloc c (c * 2)] ++ Owned.doublings k (c * 2)).
  rewrite reallocations_app, IH. unfold Owned.reallocations. cbn. lia.
Qed.

(** Appending to a sound container whose buffer has exactly [capacity]
    cells, while every request is granted: the appends complete, the
    capacity is doubled [k] times, [k] the least number of doublings that
    makes room for every item, and each doubling is one [CLI_REALLOC]. *)
Lemma owned_append_all_growth items :
  forall (k : nat) a toks h err,
    Owned.holds a toks ->
    (exists b, Owned.data a = Some b /\ Z.of_nat (List.length b) = Owned.capacity a) ->
    0 < Owned.capacity a ->
    Forall (fun g => g = true) (Owned.oracle h) ->
    Z.of_nat (List.length toks + List.length items) <= Owned.capacity a * 2 ^ Z.of_nat k ->
    (k = O \/ Owned.capacity a * 2 ^ (Z.of_nat k - 1)
              < Z.of_nat (List.length toks + List.length items)) ->
    Owned.capacity a * 2 ^ Z.of_nat k < 65536 ->
    exists a' h',
      Owned.append_all items a (h, err) = Done a' (h', err) /\
      Owned.holds a' (toks ++ items) /\
      Owned.capacity a' = Owned.capacity a * 2 ^ Z.of_nat k /\
      Owned.calls h' = Owned.calls h ++ Owned.doublings k (Owned.capacity a) /\
      Forall (fun g => g = true) (Owned.oracle h').
Proof.
  induction items as [|t items IH]; intros k a toks h err Hh Hfit Hpos Hor Hle Hmin Hcap.
  - assert (k = O) as ->.
    { destruct Hmin as [?|Hlt]; [assumption|]. destruct k as [|k]; [reflexivity|]. exfalso.
      pose proof (holds_length _ _ Hh) as Hl. destruct Hh as (b & _ & _ & Hlc & _).
      assert (0 < 2 ^ (Z.of_nat (S k) - 1)) by (apply Z.pow_pos_nonneg; lia).
      cbn [List.length] in Hlt. nia. }
    exists a, h. cbn [Owned.append_all Owned.doublings ret].
    rewrite !app_nil_r. cbn. repeat split; trivial. lia.
  - pose proof (holds_length _ _ Hh) as Hl.
    pose proof Hh as (b0 & Hd0 & _ & Hlc & _).
    cbn [Owned.append_all List.length] in *.
    destruct (Z_lt_le_dec (Owned.length a) (Owned.capacity a)) as [Hlt|Hge].
    + destruct (owned_append_room a toks t (h, err) Hh Hlt) as (a1 & Hr & Hh1 & Hc1 & Hb1).
      destruct Hfit as (b & Hd & Hbl). destruct (Hb1 b Hd) as (b1 & Hd1 & Hbl1).
      destruct (IH k a1 (toks ++ [t]) h err) as (a' & h' & Hrun & Hh' & Hc' & Hcalls & Hor');
        try (rewrite ?Hc1; assumption).
      * exists b1. split; [exact Hd1|]. rewrite Hc1. lia.
      * rewrite Hc1, length_app. cbn [List.length]. lia.
      * rewrite Hc1, length_app. cbn [List.length].
        destruct Hmin as [?|?]; [now left|right; lia].
      * exists a', h'. rewrite (bind_eq_Done _ _ _ _ _ Hr).
        rewrite <- app_assoc in Hh'. rewrite Hc1 in Hc', Hcalls. repeat split; trivial.
    + assert (Hfull : Owned.length a = Owned.capacity a) by lia.
      destruct k as [|k].
      { exfalso. cbn in Hle. lia. }
      assert (Hp : 0 < 2 ^ Z.of_nat k) by (apply Z.pow_pos_nonneg; lia).
      assert (Hpk : 2 ^ Z.of_nat (S k) = 2 * 2 ^ Z.of_nat k).
      { rewrite Nat2Z.inj_succ. apply Z.pow_succ_r. lia. }
      destruct Hfit as (b & Hd & Hbl).
      destruct (owned_append_full a toks b t h err Hh Hd Hfull) as (_ & Hyes & _).
      assert (Hg : Owned.granted h = true).
      { unfold Owned.granted. destruct (Owned.oracle h) as [|[|] o]; trivial.
        inversion Hor; discriminate. }
      destruct (Hyes Hg Hpos ltac:(nia)) as (a1 & b1 & Hr & Hh1 & Hc1 & Hd1 & Hbl1).
      rewrite (wrap16_small (Owned.capacity a * 2)) in Hr by nia.
      rewrite Hbl in Hr.
      destruct (IH k a1 (toks ++ [t])
                  (Owned.asked h (Owned.Realloc (Owned.capacity a) (Owned.capacity a * 2))) err)
        as (a' & h' & Hrun & Hh' & Hc' & Hcalls & Hor'); trivial.
      * exists b1. split; [exact Hd1|]. lia.
      * lia.
      * cbn. destruct (Owned.oracle h); [constructor|now inversion Hor].
      * rewrite Hc1, length_app. cbn [List.length]. nia.
      * rewrite Hc1, length_app. cbn [List.length].
        destruct k as [|k']; [now left|right].
        destruct Hmin as [?|Hlt]; [discriminate|].
        replace (Z.of_nat (S (S k')) - 1) with (Z.succ (Z.of_nat (S k') - 1)) in Hlt by lia.
        rewrite Z.pow_succ_r in Hlt by lia. lia.
      * rewrite Hc1. nia.
      * exists a', h'. rewrite (bind_eq_Done _ _ _ _ _ Hr).
        rewrite <- app_assoc in Hh'. rewrite Hc1 in Hc', Hcalls.
        repeat split; trivial.
        -- rewrite Hc', Hpk. lia.
        -- rewrite Hcalls. cbn [Owned.asked Owned.calls Owned.doublings].
           now rewrite <- app_assoc.
Qed.

Lemma owned_append_all_app xs ys a w :
  Owned.append_all (xs ++ ys) a w =
    match Owned.append_all xs a w with
    | Done a' w' => Owned.append_all ys a' w'
    | AssertFailed e w' => AssertFailed e w'
    | MemFault => MemFault
    end.
Proof.
  revert a w. induction xs as [|x xs IH]; intros a w; [reflexivity|].
  cbn [app Owned.append_all]. unfold bind.
  destruct (Owned.cli_da_append a x w) as [a1 w1| |]; try reflexivity. apply IH.
Qed.

(** [capacity] is an [unsigned short]: with the default capacity 5, the
    thirteenth doubling makes room for 40960 items, and the append of one
    more doubles 40960 to 81920, which [capacity] holds as 16384; the
    buffer is reallocated to that size and the store at index 40960 falls
    outside it.  Hence the bound on the final capacity in the statement
    below. *)
Lemma doubling_past_unsigned_short :
  Owned.fill 5 (repeat "x" (Z.to_nat 40960) ++ ["y"]) Owned.generous = MemFault.
Proof.
  unfold Owned.fill.
  assert (Hinit : Owned.cli_da_init 5 (Owned.mkArray 0 0 None) Owned.generous =
                  Done (Owned.packed []) (Owned.mkHeap [] [Owned.Malloc 5], []))
    by reflexivity.
  rewrite (bind_eq_Done _ _ _ _ _ Hinit), owned_append_all_app.
  assert (Hlen : @List.length token (repeat "x" (Z.to_nat 40960)) = Z.to_nat 40960)
    by apply repeat_length.
  destruct (owned_append_all_growth (repeat "x" (Z.to_nat 40960)) 13 (Owned.packed []) []
              (Owned.mkHeap [] [Owned.Malloc 5]) [])
    as (a & h & Hrun & Hh & Hc & _ & Hor).
  - exists [None; None; None; None; None]. repeat split; cbn; lia.
  - eexists. split; reflexivity.
  - cbn. lia.
  - constructor.
  - cbn [List.length Nat.add]. rewrite Hlen. cbn [Owned.capacity Owned.packed]. lia.
  - right. cbn [List.length Nat.add]. rewrite Hlen. cbn [Owned.capacity Owned.packed]. lia.
  - cbn [Owned.capacity Owned.packed]. lia.
  - rewrite Hrun. cbn [Owned.append_all app]. cbn [Owned.capacity Owned.packed] in Hc.
    cbn [app] in Hh. pose proof Hh as (b & Hd & Hl & _).
    rewrite Hlen in Hl.
    destruct (owned_append_full a _ b "y" h [] Hh Hd ltac:(lia)) as (_ & _ & Hbad).
    unfold bind. rewrite Hbad; [reflexivity| |lia].
    unfold Owned.granted. destruct (Owned.oracle h) as [|[|] o]; trivial.
    inversion Hor; discriminate.
Qed.

(** C9, amended.  Appending [N >= 1] items one by one to a container
    initialised with capacity [C0 >= 1], while every request is granted and
    the final capacity fits [unsigned short], completes with exactly
    [max 0 (ceil (log2 (N / C0)))] reallocations: none when [N <= C0].  The
    requests are the initial [CLI_MALLOC] and then one [CLI_REALLOC] per
    doubling, each from a capacity to twice that capacity; the final
    capacity is [C0 * 2 ^ k >= N], and the container holds the items in
    the order of the appends. *)
Theorem growth_by_doubling (C0 : nat) (items : list token) h err :
  let N := Z.of_nat (List.length items) in
  let k := Z.to_nat (Z.max 0 (ceil_log2_ratio N (Z.of_nat C0))) in
  1 <= N -> (1 <= C0)%nat ->
  Forall (fun g => g = true) (Owned.oracle h) ->
  Z.of_nat C0 * 2 ^ Z.of_nat k < 65536 ->
  exists a h',
    Owned.fill C0 items (h, err) = Done a (h', err) /\
    Owned.calls h' =
      Owned.calls h ++ Owned.Malloc (Z.of_nat C0) :: Owned.doublings k (Z.of_nat C0) /\
    Owned.reallocations (Owned.calls h') =
      Owned.reallocations (Owned.calls h) + Z.max 0 (ceil_log2_ratio N (Z.of_nat C0)) /\
    Owned.capacity a = Z.of_nat C0 * 2 ^ Z.of_nat k /\
    N <= Owned.capacity a /\
    Owned.elements a = Some <$> items.
Proof.
  intros N k HN HC Hor Hcap.
  destruct (growth_count_spec N (Z.of_nat C0) HN ltac:(lia)) as [Hle Hmin].
  assert (Hk : Z.of_nat k = Z.max 0 (ceil_log2_ratio N (Z.of_nat C0))) by (subst k; lia).
  rewrite <- Hk in Hle, Hmin.
  assert (Hp : 1 <= 2 ^ Z.of_nat k) by (apply Z.pow_le_mono_r with (b := 0); lia).
  assert (Hsmall : Z.of_nat C0 < 65536).
  { assert (Z.of_nat C0 * 1 <= Z.of_nat C0 * 2 ^ Z.of_nat k)
      by (apply Z.mul_le_mono_nonneg_l; lia).
    lia. }
  set (a0 := Owned.mkArray 0 (Z.of_nat C0) (Some (replicate C0 None))).
  set (h0 := Owned.asked h (Owned.Malloc (Z.of_nat C0))).
  assert (Hg : Owned.granted h = true).
  { unfold Owned.granted. destruct (Owned.oracle h) as [|[|] o]; trivial.
    inversion Hor; discriminate. }
  assert (Hinit : Owned.cli_da_init C0 (Owned.mkArray 0 0 None) (h, err) = Done a0 (h0, err)).
  { unfold Owned.cli_da_init, Owned.CLI_MALLOC, bind, ret. cbn [fst snd].
    rewrite Hg, wrap16_small, Nat2Z.id by lia. reflexivity. }
  assert (Hh0 : Owned.holds a0 []).
  { exists (replicate C0 None). cbn. rewrite length_replicate. repeat split; lia. }
  destruct (owned_append_all_growth items k a0 [] h0 err Hh0) as
    (a & h' & Hrun & Hh & Hc & Hcalls & _).
  - eexists. split; [reflexivity|]. cbn. rewrite length_replicate. reflexivity.
  - cbn. lia.
  - cbn. destruct (Owned.oracle h); [constructor|now inversion Hor].
  - cbn [List.length Nat.add Owned.capacity a0]. exact Hle.
  - cbn [List.length Nat.add Owned.capacity a0].
    destruct Hmin as [E|Hlt]; [left; lia|now right].
  - exact Hcap.
  - cbn [Owned.capacity a0] in Hc, Hcalls. cbn [app] in Hh.
    exists a, h'. unfold Owned.fill. rewrite (bind_eq_Done _ _ _ _ _ Hinit).
    split; [exact Hrun|]. split; [|split; [|split; [exact Hc|split]]].
    + rewrite Hcalls. cbn [h0 Owned.asked Owned.calls]. now rewrite <- app_assoc.
    + rewrite Hcalls, reallocations_app, reallocations_doublings.
      cbn [h0 Owned.asked Owned.calls]. rewrite reallocations_app.
      change (Owned.reallocations [Owned.Malloc (Z.of_nat C0)]) with 0. lia.
    + rewrite Hc. exact Hle.
    + exact (holds_elements _ _ Hh).
Qed.

Lemma growth_by_doubling_witness :
  1 <= Z.of_nat (List.length ["a"; "b"; "c"; "d"; "e"; "f"; "g"; "h"; "i"; "j"; "k"]) /\
  (1 <= 5)%nat /\
  Forall (fun g => g = true) (Owned.oracle (Owned.mkHeap [true; true; true] [])) /\
  Z.of_nat 5 * 2 ^ Z.of_nat 2 < 65536 /\
  exists a h',
    Owned.fill 5 ["a"; "b"; "c"; "d"; "e"; "f"; "g"; "h"; "i"; "j"; "k"]
      (Owned.mkHeap [true; true; true] [], []) = Done a (h', []) /\
    Owned.calls h' =
      [] ++ Owned.Malloc 5 :: [Owned.Realloc 5 10; Owned.Realloc 10 20] /\
    Owned.reallocations (Owned.calls h') = 0 + 2 /\
    Owned.capacity a = 20 /\
    11 <= Owned.capacity a /\
    Owned.elements a =
      Some <$> ["a"; "b"; "c"; "d"; "e"; "f"; "g"; "h"; "i"; "j"; "k"].
Proof.
  split; [vm_compute; discriminate|]. split; [lia|].
  split; [repeat constructor|]. split; [reflexivity|].
  apply (growth_by_doubling 5 ["a"; "b"; "c"; "d"; "e"; "f"; "g"; "h"; "i"; "j"; "k"]
           (Owned.mkHeap [true; true; true] []) []).
  - vm_compute; discriminate.
  - lia.
  - repeat constructor.
  - reflexivity.
Defined.

(** C9 as stated fails below half the initial capacity: one append to a
    container of capacity 5 reallocates nothing, while
    [ceil (log2 (1 / 5))] is -2, as [1/8 < 1/5 <= 1/4]. *)
Lemma one_append_does_not_reallocate :
  Owned.fill 5 ["a"] Owned.generous =
    Done (Owned.packed ["a"]) (Owned.mkHeap [] [Owned.Malloc 5], [])
  /\
  Owned.reallocations [Owned.Malloc 5] = 0
  /\
  ceil_log2_ratio 1 5 = -2
  /\
  (Qpower 2 (-2 - 1) < inject_Z 1 / inject_Z 5)%Q
  /\
  (inject_Z 1 / inject_Z 5 <= Qpower 2 (-2))%Q
  /\
  Owned.reallocations [Owned.Malloc 5] <> ceil_log2_ratio 1 5.
Proof.
  repeat split; try (vm_compute; reflexivity); vm_compute; discriminate.
Qed.

(** ** The arena container *)

(** An append through a valid cursor writes the cell under the cursor,
    advances the cursor by one cell and counts one more item; the first
    append to a container records where its cells start. *)
Lemma borrowed_append_Done a t (m : Borrowed.arena) err (i : nat) :
  Borrowed.next_unused a = Borrowed.AddrUnused ->
  Borrowed.unused m = Borrowed.Cell (Z.of_nat i) ->
  (i < List.length (Borrowed.cells m))%nat ->
  Borrowed.cli_da_append a t (m, err) =
    Done (Borrowed.mkArray (wrap16 (Borrowed.length a + 1)) (Borrowed.stack a)
            (match Borrowed.data a with
             | Borrowed.CLI_INVALID_PTR => Borrowed.Cell (Z.of_nat i)
             | p => p
             end)
            Borrowed.AddrUnused)
         (Borrowed.mkArena (<[i := Some t]> (Borrowed.cells m))
            (Borrowed.Cell (Z.of_nat (S i))), err).
Proof.
  intros Hn Hu Hi. unfold Borrowed.cli_da_append. rewrite Hn. cbn [fst snd]. rewrite Hu.
  replace (0 <=? Z.of_nat i) with true by (symmetry; apply Z.leb_le; lia).
  replace (Z.of_nat i <? Z.of_nat (List.length (Borrowed.cells m))) with true
    by (symmetry; apply Z.ltb_lt; lia).
  cbn [andb]. rewrite Nat2Z.id.
  replace (Z.of_nat i + 1) with (Z.of_nat (S i)) by lia.
  destruct (Borrowed.data a) eqn:Hd; cbn; rewrite ?Hn, ?Hd; reflexivity.
Qed.

(** What one more stored cell does to the arena. *)
Lemma arena_write (s k : nat) (cells cells0 : list (option token)) (toks : list token) t :
  (s + k < List.length cells)%nat ->
  List.length cells = List.length cells0 ->
  take k (drop s cells) = Some <$> toks ->
  take s cells = take s cells0 ->
  drop (s + k) cells = drop (s + k) cells0 ->
  let cells' := <[(s + k)%nat := Some t]> cells in
  List.length cells' = List.length cells0 /\
  take (S k) (drop s cells') = Some <$> (toks ++ [t]) /\
  take s cells' = take s cells0 /\
  drop (s + S k) cells' = drop (s + S k) cells0.
Proof.
  intros Hlt Hlen Htake Hpre Hpost cells'. subst cells'. repeat split.
  - now rewrite length_insert.
  - rewrite drop_insert_ge by lia. replace (s + k - s)%nat with k by lia.
    rewrite take_snoc_insert by (rewrite length_drop; lia).
    now rewrite Htake, fmap_app.
  - rewrite take_insert_ge by lia. exact Hpre.
  - rewrite drop_insert_lt by lia.
    replace (s + S k)%nat with (s + k + 1)%nat by lia.
    now rewrite <- (drop_drop cells 1 (s + k)), <- (drop_drop cells0 1 (s + k)), Hpost.
Qed.

Lemma stored_snoc pre t :
  is_double_dash t = false -> Borrowed.stored (pre ++ [t]) = Borrowed.stored pre ++ [t].
Proof.
  intros Ht. unfold Borrowed.stored. rewrite List.filter_app. cbn [List.filter].
  now rewrite Ht.
Qed.

Lemma stored_snoc_dash pre t :
  is_double_dash t = true -> Borrowed.stored (pre ++ [t]) = Borrowed.stored pre.
Proof.
  intros Ht. unfold Borrowed.stored. rewrite List.filter_app. cbn [List.filter].
  rewrite Ht. apply app_nil_r.
Qed.

Lemma stored_length pre : (List.length (Borrowed.stored pre) <= List.length pre)%nat.
Proof. apply List.filter_length_le. Qed.

Lemma wrap16_succ_le z : 0 <= z -> 0 <= wrap16 (z + 1) <= z + 1.
Proof.
  intros Hz. pose proof (wrap16_range (z + 1)). split; [lia|].
  unfold wrap16. apply Z.mod_le; lia.
Qed.

Lemma target_not_double_dash `{DynArray} t b cli dest :
  target t b cli = Some dest -> is_double_dash t = false.
Proof.
  unfold target, is_double_dash.
  destruct (Ascii.eqb (char_at t 0) "-"); [|reflexivity].
  cbn [andb]. now destruct (_ && _).
Qed.

(** The region of a container after one more item, stored at the cursor. *)
Lemma region_snoc a d toks t (i : nat) :
  Borrowed.region a d toks -> Z.of_nat (List.length toks) < 65535 ->
  (toks = [] -> d = Z.of_nat i) ->
  Borrowed.region
    (Borrowed.mkArray (wrap16 (Borrowed.length a + 1)) (Borrowed.stack a)
       (match Borrowed.data a with
        | Borrowed.CLI_INVALID_PTR => Borrowed.Cell (Z.of_nat i)
        | p => p
        end)
       Borrowed.AddrUnused)
    d (toks ++ [t]).
Proof.
  intros [Hl Hd] Hsmall Hfirst. split; cbn.
  - rewrite Hl, length_app, wrap16_small; cbn [List.length]; lia.
  - rewrite Hd. destruct toks as [|x toks]; cbn; [now rewrite Hfirst|reflexivity].
Qed.

Lemma region_nil_shift a d d' : Borrowed.region a d [] -> Borrowed.region a d' [].
Proof. intros [Hl Hd]. now split. Qed.

Lemma region_length_zero a d toks :
  Borrowed.region a d toks -> (0 <? Borrowed.length a) = false -> toks = [].
Proof.
  intros [Hl _] Hz. apply Z.ltb_ge in Hz. destruct toks; [reflexivity|]. cbn in Hl. lia.
Qed.

(** One accepted token: the append completes while the array has a cell
    left, and the invariant extends to the token. *)
Lemma borrowed_append_step (s : nat) cells0 pre b (cli : Cli Borrowed.CliArray) m err t dest :
  Borrowed.laid_out s cells0 pre b cli m ->
  @target Borrowed.container t b cli = Some dest ->
  (s + List.length pre < List.length cells0)%nat ->
  exists a' m',
    Borrowed.cli_da_append (get dest cli) t (m, err) = Done a' (m', err) /\
    Borrowed.laid_out s cells0 (pre ++ [t]) (match dest with Args => true | _ => b end)
      (set dest a' cli) m'.
Proof.
  intros (La & Lc & Lp & Hu & Hlen & Htake & Hpre & Hpost & Hwithin & Hcount & Hlayout) Ht Hroom.
  pose proof (target_not_double_dash _ _ _ _ Ht) as Hnd.
  pose proof (stored_length pre) as Hk.
  set (k := List.length (Borrowed.stored pre)) in *.
  assert (Hlinked : Borrowed.linked (Borrowed.Cell (Z.of_nat s)) (get dest cli))
    by (destruct dest; assumption).
  destruct Hlinked as [Hstack Hnext].
  pose proof (borrowed_append_Done (get dest cli) t m err (s + k) Hnext Hu ltac:(lia)) as Hrun.
  destruct (arena_write s k (Borrowed.cells m) cells0 (Borrowed.stored pre) t
              ltac:(lia) Hlen Htake Hpre Hpost) as (W1 & W2 & W3 & W4).
  eexists _, _. split; [exact Hrun|].
  unfold Borrowed.laid_out. rewrite (stored_snoc _ _ Hnd), length_app.
  cbn [List.length Borrowed.cells Borrowed.unused].
  replace (List.length (Borrowed.stored pre) + 1)%nat with (S k) by (subst k; lia).
  assert (Hl' : forall f,
    Borrowed.linked (Borrowed.Cell (Z.of_nat s)) (get f cli) ->
    Borrowed.linked (Borrowed.Cell (Z.of_nat s))
      (get f (set dest
                (Borrowed.mkArray (wrap16 (Borrowed.length (get dest cli) + 1))
                   (Borrowed.stack (get dest cli))
                   (match Borrowed.data (get dest cli) with
                    | Borrowed.CLI_INVALID_PTR => Borrowed.Cell (Z.of_nat (s + k))
                    | p => p
                    end) Borrowed.AddrUnused) cli))).
  { intros f Hf. destruct dest, f; cbn; trivial; split; cbn; trivial. }
  split; [exact (Hl' Args La)|]. split; [exact (Hl' CmdOptions Lc)|].
  split; [exact (Hl' ProgramOptions Lp)|].
  split; [f_equal; lia|]. split; [exact W1|]. split; [exact W2|].
  split; [exact W3|]. split; [exact W4|]. split; [|split].
  - (* the cells of [args] stay within the cells written so far *)
    assert (Hgrow : Borrowed.within (Z.of_nat s) (Z.of_nat (s + S k)) (args cli)).
    { destruct Hwithin as [Hi|(d & Hd & Hlo & Hl0 & Hhi)]; [now left|].
      right. exists d. repeat split; trivial. lia. }
    destruct dest; cbn [set get args]; trivial.
    cbn [get] in *.
    destruct Hwithin as [[Hi Hz]|(d & Hd & Hlo & Hl0 & Hhi)].
    + right. exists (Z.of_nat (s + k)). cbn. rewrite Hi, Hz.
      change (wrap16 (0 + 1)) with 1. repeat split; lia.
    + right. exists d. cbn. rewrite Hd.
      pose proof (wrap16_succ_le _ Hl0). repeat split; trivial; lia.
  - (* each length counts the appends to its container *)
    destruct Hcount as (n_po & n_ar & n_co & Hsum & Cp & Ca & Cc).
    assert (Hw : forall n, wrap16 (wrap16 (Z.of_nat n) + 1) = wrap16 (Z.of_nat (S n))).
    { intros n. unfold wrap16. rewrite Z.add_mod_idemp_l by lia. f_equal. lia. }
    destruct dest; cbn [get set args cmd_options program_options Borrowed.length].
    + exists n_po, (S n_ar), n_co. rewrite Ca, Hw. repeat split; trivial. lia.
    + exists n_po, n_ar, (S n_co). rewrite Cc, Hw. repeat split; trivial. lia.
    + exists (S n_po), n_ar, n_co. rewrite Cp, Hw. repeat split; trivial. lia.
  - (* the three regions, while no length has wrapped *)
    rewrite length_app. cbn [List.length]. intros Hbound.
    destruct (Hlayout ltac:(lia)) as (po & ar & co & Hcat & Hb & Rp & Ra & Rc).
    assert (Hkk : k = (List.length po + List.length ar + List.length co)%nat).
    { subst k. rewrite <- Hcat, !length_app. lia. }
    revert Ht. unfold target. borrowed_methods.
    destruct (Ascii.eqb (char_at t 0) "-") eqn:E0.
    + rewrite Hnd. intros [= <-]. destruct b; cbn [get set args cmd_options program_options] in *.
      * exists po, ar, (co ++ [t]). rewrite <- Hcat, <- !app_assoc.
        split; [reflexivity|]. split; [discriminate|].
        split; [exact Rp|]. split; [exact Ra|].
        apply region_snoc; [exact Rc|lia|]. intros ->. cbn in Hkk. lia.
      * destruct (Hb eq_refl) as [-> ->]. rewrite !app_nil_r in Hcat.
        exists (po ++ [t]), [], []. rewrite <- Hcat, !app_nil_r.
        cbn [List.length] in *.
        split; [reflexivity|]. split; [tauto|].
        split; [|split; [exact (region_nil_shift _ _ _ Ra)|exact (region_nil_shift _ _ _ Rc)]].
        apply region_snoc; [exact Rp|lia|]. intros ->. cbn in Hkk. lia.
    + destruct (0 <? Borrowed.length (cmd_options cli)) eqn:El; [discriminate|].
      intros [= <-]. cbn [get set args cmd_options program_options] in *.
      assert (co = []) as -> by (eapply region_length_zero; eauto).
      rewrite app_nil_r in Hcat. cbn [List.length] in *.
      exists po, (ar ++ [t]), []. rewrite <- Hcat, app_nil_r, <- app_assoc.
      split; [reflexivity|]. split; [discriminate|].
      split; [exact Rp|]. split; [|exact (region_nil_shift _ _ _ Rc)].
      apply region_snoc; [exact Ra|lia|]. intros ->. cbn in Hkk. lia.
Qed.

Lemma laid_out_double_dash s cells0 pre b cli m t :
  Borrowed.laid_out s cells0 pre b cli m -> is_double_dash t = true ->
  Borrowed.laid_out s cells0 (pre ++ [t]) true cli m.
Proof.
  intros (La & Lc & Lp & Hu & Hlen & Htake & Hpre & Hpost & Hwithin & Hcount & Hlayout) Ht.
  unfold Borrowed.laid_out. rewrite (stored_snoc_dash _ _ Ht).
  repeat (split; [assumption|]).
  rewrite length_app. cbn [List.length]. intros Hbound.
  destruct (Hlayout ltac:(lia)) as (po & ar & co & Hcat & _ & Rp & Ra & Rc).
  exists po, ar, co. split; [exact Hcat|]. split; [discriminate|]. auto.
Qed.

(** Under the invariant, [data[length - 1]] of a non-empty [args] is a cell
    that has been written. *)
Lemma laid_out_last_arg s cells0 pre b (cli : Cli Borrowed.CliArray) m :
  Borrowed.laid_out s cells0 pre b cli m -> 0 < Borrowed.length (args cli) ->
  exists prev,
    Borrowed.load (args cli) (Borrowed.length (args cli) - 1) m = Some prev.
Proof.
  intros (_ & _ & _ & _ & _ & Htake & _ & _ & Hwithin & _ & _) Hpos.
  destruct Hwithin as [[_ Hz]|(d & Hd & Hlo & Hl0 & Hhi)]; [lia|].
  set (k := List.length (Borrowed.stored pre)) in *.
  set (j := Z.to_nat (d + (Borrowed.length (args cli) - 1) - Z.of_nat s)).
  assert (Hj : (j < k)%nat) by (subst j; lia).
  destruct (lookup_lt_is_Some_2 (Borrowed.stored pre) j Hj) as [prev Hprev].
  exists prev. unfold Borrowed.load. rewrite Hd.
  replace (0 <=? d + (Borrowed.length (args cli) - 1)) with true
    by (symmetry; apply Z.leb_le; lia).
  replace (Z.to_nat (d + (Borrowed.length (args cli) - 1))) with (s + j)%nat by (subst j; lia).
  rewrite <- lookup_drop, <- (lookup_take_lt _ k) by exact Hj.
  now rewrite Htake, list_lookup_fmap, Hprev.
Qed.

(** One iteration under the invariant, while the array has a cell left:
    it completes, either extending the invariant to the token or returning
    a grammar error that leaves the struct and the arena as they were. *)
Lemma borrowed_step_total (s : nat) cells0 pre b (cli : Cli Borrowed.CliArray) m err t :
  Borrowed.laid_out s cells0 pre b cli m ->
  (s + List.length pre < List.length cells0)%nat ->
  (exists b' cli' m',
     @loop_body Borrowed.container t b cli (m, err) = Done (Continue b' cli') (m', err) /\
     Borrowed.laid_out s cells0 (pre ++ [t]) b' cli' m')
  \/
  (exists d,
     @loop_body Borrowed.container t b cli (m, err) =
       Done (Return CliErrorUser cli) (m, err ++ [d])).
Proof.
  intros Hinv Hroom.
  destruct (@target Borrowed.container t b cli) as [dest|] eqn:Ht.
  - left. destruct (borrowed_append_step s cells0 pre b cli m err t dest Hinv Ht Hroom)
      as (a' & m' & Hrun & Hinv').
    eexists _, _, _. split; [|exact Hinv'].
    rewrite (loop_body_target _ _ _ _ Ht). borrowed_methods.
    unfold bind, ret. now rewrite Hrun.
  - revert Ht. unfold target.
    destruct (Ascii.eqb (char_at t 0) "-") eqn:E0.
    + destruct (is_double_dash t) eqn:Ed; [intros _|discriminate].
      rewrite loop_body_double_dash by assumption. borrowed_methods.
      destruct (0 <? Borrowed.length (args cli)) eqn:El.
      * right. apply Z.ltb_lt in El.
        destruct (laid_out_last_arg _ _ _ _ _ _ Hinv El) as (prev & Hprev).
        eexists. unfold bind, read_item, cli_printf_error, ret. borrowed_methods.
        cbn [fst snd]. rewrite Hprev. reflexivity.
      * left. eexists _, _, _. split; [reflexivity|].
        exact (laid_out_double_dash _ _ _ _ _ _ _ Hinv Ed).
    + rewrite loop_body_positional by assumption. borrowed_methods.
      destruct (0 <? Borrowed.length (cmd_options cli)); [intros _|discriminate].
      right. eexists. reflexivity.
Qed.

(** The loop under the invariant, on an array with a cell for every token
    still to read: it never leaves the array; it consumes the tokens up to
    the first grammar error, or all of them, and the invariant holds of the
    tokens consumed. *)
Lemma borrowed_scan_total (s : nat) cells0 rest :
  forall pre b (cli : Cli Borrowed.CliArray) m err,
    Borrowed.laid_out s cells0 pre b cli m ->
    (s + List.length pre + List.length rest <= List.length cells0)%nat ->
    exists consumed left c b' cli' m' err',
      rest = consumed ++ left /\
      @scan Borrowed.container rest b cli (m, err) = Done c (m', err') /\
      Borrowed.laid_out s cells0 (pre ++ consumed) b' cli' m' /\
      ((c = Continue b' cli' /\ left = []) \/ (c = Return CliErrorUser cli' /\ left <> [])).
Proof.
  induction rest as [|t rest IH]; intros pre b cli m err Hinv Hroom.
  - exists [], [], (Continue b cli), b, cli, m, err.
    rewrite (app_nil_r pre). split; [reflexivity|]. split; [reflexivity|].
    split; [exact Hinv|]. left. split; reflexivity.
  - cbn [List.length] in Hroom.
    destruct (borrowed_step_total s cells0 pre b cli m err t Hinv ltac:(lia))
      as [(b1 & cli1 & m1 & Hb & Hinv1)|(d & Hb)].
    + destruct (IH (pre ++ [t]) b1 cli1 m1 err Hinv1) as
        (consumed & left & c & b' & cli' & m' & err' & -> & Hs & Hinv' & Hc).
      { rewrite length_app. cbn [List.length]. lia. }
      exists (t :: consumed), left, c, b', cli', m', err'.
      rewrite <- app_assoc in Hinv'. split; [reflexivity|].
      split; [|split; [exact Hinv'|exact Hc]].
      cbn [scan]. rewrite (bind_eq_Done _ _ _ _ _ Hb). exact Hs.
    + exists [], (t :: rest), (Return CliErrorUser cli), b, cli, m, (err ++ [d]).
      rewrite (app_nil_r pre). split; [reflexivity|]. split; [|split; [exact Hinv|]].
      * cbn [scan]. now rewrite (bind_eq_Done _ _ _ _ _ Hb).
      * right. split; [reflexivity|discriminate].
Qed.

Lemma segment_split {A} (l : list A) (s : nat) (xs ys : list A) :
  take (List.length xs + List.length ys) (drop s l) = xs ++ ys ->
  take (List.length xs) (drop s l) = xs /\
  take (List.length ys) (drop (s + List.length xs) l) = ys.
Proof.
  intros H. rewrite <- take_take_drop, drop_drop in H.
  apply app_inj_1 in H; [exact H|].
  apply (f_equal (@List.length A)) in H.
  rewrite !length_app, !length_take, !length_drop in H.
  rewrite length_take, length_drop. lia.
Qed.

(** The cells spanned by a container that the invariant places at [d]. *)
Lemma region_elements a d toks m :
  Borrowed.region a (Z.of_nat d) toks ->
  take (List.length toks) (drop d (Borrowed.cells m)) = Some <$> toks ->
  Borrowed.elements a m = Some <$> toks.
Proof.
  intros [Hl Hd] Hseg. unfold Borrowed.elements. rewrite Hd, Hl.
  destruct toks as [|x toks]; [reflexivity|]. now rewrite !Nat2Z.id.
Qed.

Lemma borrowed_init (s : nat) exe (cli0 : Cli Borrowed.CliArray) cells0 err :
  let fresh := Borrowed.mkArray 0 (Borrowed.Cell (Z.of_nat s)) Borrowed.NULL Borrowed.AddrUnused in
  exists cli,
    @cli_parse_init Borrowed.container exe (mkCli (execfile cli0) fresh fresh fresh)
      (Borrowed.mkArena cells0 (Borrowed.Cell (Z.of_nat s)), err) =
      Done (Continue false cli) (Borrowed.mkArena cells0 (Borrowed.Cell (Z.of_nat s)), err) /\
    Borrowed.laid_out s cells0 [] false cli
      (Borrowed.mkArena cells0 (Borrowed.Cell (Z.of_nat s))).
Proof.
  intros fresh. eexists. split; [reflexivity|].
  unfold Borrowed.laid_out. cbn. rewrite Nat.add_0_r.
  repeat split; trivial.
  - now left.
  - exists O, O, O. repeat split.
  - intros _. exists [], [], []. repeat split.
Qed.

(** C10, amended.  [cli_parse_noheap] on a non-empty input, over an array
    that has a cell for every token after the execution path, from cell
    [s] of the arena on: the call returns [CliErrorOk] or [CliErrorUser] and never
    leaves the array.  The cursor has advanced by [k] cells, where [k]
    counts the tokens consumed that are not "--"; [k] is at most
    [argc - 1]; these [k] cells hold those tokens in input order, and no
    other cell has changed.  The three containers have received these [k]
    tokens between them, each [length] field counting its own as an
    [unsigned short].  With at most 65536 input tokens no count wraps: the
    containers span adjacent regions of the [k] cells and their lengths add
    up to [k]. *)
Theorem arena_accounting (argv : list token) (cli0 : Cli Borrowed.CliArray) (s : nat)
    (cells0 : list (option token)) u0 err0 :
  argv <> [] -> Forall c_string argv ->
  (s + (List.length argv - 1) <= List.length cells0)%nat ->
  exists e cli cells err consumed left,
    let kept := List.filter (fun t => negb (String.eqb t "--")) consumed in
    let k := List.length kept in
    Borrowed.cli_parse_noheap argv cli0 (Borrowed.Cell (Z.of_nat s))
      (Borrowed.mkArena cells0 u0, err0) =
      Done (e, cli) (Borrowed.mkArena cells (Borrowed.Cell (Z.of_nat (s + k))), err) /\
    tail argv = consumed ++ left /\
    ((e = CliErrorOk /\ left = []) \/ (e = CliErrorUser /\ left <> [])) /\
    (k <= List.length argv - 1)%nat /\
    List.length cells = List.length cells0 /\
    take k (drop s cells) = Some <$> kept /\
    take s cells = take s cells0 /\
    drop (s + k) cells = drop (s + k) cells0 /\
    Borrowed.counted k cli /\
    (Z.of_nat (List.length argv) <= 65536 ->
     exists po ar co,
       po ++ ar ++ co = kept /\
       (forall u,
          Borrowed.elements (program_options cli) (Borrowed.mkArena cells u) = Some <$> po /\
          Borrowed.elements (args cli) (Borrowed.mkArena cells u) = Some <$> ar /\
          Borrowed.elements (cmd_options cli) (Borrowed.mkArena cells u) = Some <$> co) /\
       Borrowed.length (program_options cli) + Borrowed.length (args cli)
         + Borrowed.length (cmd_options cli) = Z.of_nat k).
Proof.
  intros Hne Hc Hroom. destruct argv as [|exe [|t rest]]; [congruence| |].
  - (* only the execution path: nothing is touched *)
    exists CliErrorOk, (mkCli (Some exe) (@zeroed Borrowed.container)
                          (@zeroed Borrowed.container) (@zeroed Borrowed.container)),
      cells0, err0, [], []. cbn zeta. cbn [List.filter List.length].
    rewrite Nat.add_0_r. split; [reflexivity|]. split; [reflexivity|].
    split; [now left|]. split; [cbn; lia|]. repeat (split; [reflexivity|]).
    split; [exists O, O, O; repeat split|].
    intros _. exists [], [], []. repeat split.
  - (* at least one token after the execution path *)
    destruct (borrowed_init s exe cli0 cells0 err0) as (cli1 & Hi & Hinv1).
    cbn [List.length] in Hroom.
    destruct (borrowed_scan_total s cells0 (t :: rest) [] false cli1 _ err0 Hinv1)
      as (consumed & left & c & b' & cli' & m' & err' & Hsplit & Hs & Hinv & Hcase).
    { cbn [List.length]. lia. }
    cbn [app] in Hinv.
    assert (Hcons : Forall c_string consumed).
    { inversion Hc as [|? ? _ Htl]; subst. rewrite Hsplit in Htl.
      now apply Forall_app in Htl as [? _]. }
    assert (Hkept : Borrowed.stored consumed =
                    List.filter (fun t => negb (String.eqb t "--")) consumed)
      by now apply filter_double_dash.
    assert (Hlenc : (List.length consumed <= S (List.length rest))%nat).
    { apply (f_equal (@List.length token)) in Hsplit.
      rewrite length_app in Hsplit. cbn [List.length] in Hsplit. lia. }
    pose proof (stored_length consumed) as Hk.
    destruct Hinv as (La & Lc & Lp & Hu & Hlen & Htake & Hpre & Hpost & Hwithin & Hcount & Hlayout).
    rewrite Hkept in *.
    destruct m' as [cells u]. cbn [Borrowed.cells Borrowed.unused] in *. subst u.
    assert (Hrun : exists e,
      Borrowed.cli_parse_noheap (exe :: t :: rest) cli0 (Borrowed.Cell (Z.of_nat s))
        (Borrowed.mkArena cells0 u0, err0) =
        Done (e, cli')
          (Borrowed.mkArena cells
             (Borrowed.Cell
                (Z.of_nat
                   (s + List.length
                          (List.filter (fun t => negb (String.eqb t "--")) consumed)))),
           err') /\
      ((e = CliErrorOk /\ left = []) \/ (e = CliErrorUser /\ left <> []))).
    { unfold Borrowed.cli_parse_noheap.
      cbn [fst snd Borrowed.cells execfile args cmd_options program_options].
      rewrite cli_parse_all. unfold cli_parse_upto.
      rewrite (bind_eq_Done _ _ _ _ _ Hi), Hs.
      destruct Hcase as [[-> ->]|[-> Hleft]].
      - exists CliErrorOk. split; [reflexivity|now left].
      - exists CliErrorUser. split; [reflexivity|right; now split]. }
    destruct Hrun as (e & Hrun & He).
    exists e, cli', cells, err', consumed, left. cbn zeta.
    split; [exact Hrun|]. split; [exact Hsplit|]. split; [exact He|].
    split; [cbn [List.length]; unfold token in *; lia|].
    split; [exact Hlen|]. split; [exact Htake|].
    split; [exact Hpre|]. split; [exact Hpost|]. split; [exact Hcount|].
    cbn [List.length]. intros Hbound.
    destruct (Hlayout ltac:(lia)) as (po & ar & co & Hcat & _ & Rp & Ra & Rc).
    exists po, ar, co. split; [exact Hcat|].
    rewrite <- Hcat, !length_app, !fmap_app in Htake.
    destruct (segment_split cells s (Some <$> po) ((Some <$> ar) ++ (Some <$> co)))
      as [Hpo Hrest].
    { rewrite length_app, !length_fmap. exact Htake. }
    rewrite length_app, !length_fmap in Hrest. rewrite length_fmap in Hpo.
    destruct (segment_split cells (s + List.length po) (Some <$> ar) (Some <$> co))
      as [Har Hco].
    { rewrite !length_fmap. exact Hrest. }
    rewrite !length_fmap in Har. rewrite !length_fmap in Hco.
    split.
    + intros u. split; [|split].
      * exact (region_elements _ s _ (Borrowed.mkArena cells u) Rp Hpo).
      * exact (region_elements _ (s + List.length po) _ (Borrowed.mkArena cells u) Ra Har).
      * exact (region_elements _ (s + List.length po + List.length ar) _
                 (Borrowed.mkArena cells u) Rc Hco).
    + destruct Rp as [-> _], Ra as [-> _], Rc as [-> _].
      rewrite <- Hcat, !length_app. lia.
Qed.

Lemma arena_accounting_witness :
  ["prog"; "-v"; "--"; "in"; "out"; "-x"] <> [] /\
  Forall c_string ["prog"; "-v"; "--"; "in"; "out"; "-x"] /\
  (0 + (List.length ["prog"; "-v"; "--"; "in"; "out"; "-x"] - 1)
   <= List.length (replicate 5 (@None token)))%nat /\
  Borrowed.cli_parse_noheap ["prog"; "-v"; "--"; "in"; "out"; "-x"] Borrowed.blank
    (Borrowed.Cell 0) (Borrowed.mkArena (replicate 5 None) Borrowed.NULL, []) =
    Done (CliErrorOk,
          mkCli (Some "prog")
            (Borrowed.mkArray 2 (Borrowed.Cell 0) (Borrowed.Cell 1) Borrowed.AddrUnused)
            (Borrowed.mkArray 1 (Borrowed.Cell 0) (Borrowed.Cell 3) Borrowed.AddrUnused)
            (Borrowed.mkArray 1 (Borrowed.Cell 0) (Borrowed.Cell 0) Borrowed.AddrUnused))
      (Borrowed.mkArena [Some "-v"; Some "in"; Some "out"; Some "-x"; None]
         (Borrowed.Cell 4), []) /\
  exists e cli cells err consumed left,
    let kept := List.filter (fun t => negb (String.eqb t "--")) consumed in
    let k := List.length kept in
    Borrowed.cli_parse_noheap ["prog"; "-v"; "--"; "in"; "out"; "-x"] Borrowed.blank
      (Borrowed.Cell (Z.of_nat 0)) (Borrowed.mkArena (replicate 5 None) Borrowed.NULL, []) =
      Done (e, cli) (Borrowed.mkArena cells (Borrowed.Cell (Z.of_nat (0 + k))), err) /\
    tail ["prog"; "-v"; "--"; "in"; "out"; "-x"] = consumed ++ left /\
    ((e = CliErrorOk /\ left = []) \/ (e = CliErrorUser /\ left <> [])) /\
    (k <= List.length ["prog"; "-v"; "--"; "in"; "out"; "-x"] - 1)%nat /\
    List.length cells = List.length (replicate 5 (@None token)) /\
    take k (drop 0 cells) = Some <$> kept /\
    take 0 cells = take 0 (replicate 5 None) /\
    drop (0 + k) cells = drop (0 + k) (replicate 5 None) /\
    Borrowed.counted k cli /\
    (Z.of_nat (List.length ["prog"; "-v"; "--"; "in"; "out"; "-x"]) <= 65536 ->
     exists po ar co,
       po ++ ar ++ co = kept /\
       (forall u,
          Borrowed.elements (program_options cli) (Borrowed.mkArena cells u) = Some <$> po /\
          Borrowed.elements (args cli) (Borrowed.mkArena cells u) = Some <$> ar /\
          Borrowed.elements (cmd_options cli) (Borrowed.mkArena cells u) = Some <$> co) /\
       Borrowed.length (program_options cli) + Borrowed.length (args cli)
         + Borrowed.length (cmd_options cli) = Z.of_nat k).
Proof.
  assert (Hc : Forall c_string ["prog"; "-v"; "--"; "in"; "out"; "-x"]).
  { repeat constructor; discriminate. }
  split; [discriminate|]. split; [exact Hc|]. split; [vm_compute; lia|].
  split; [vm_compute; reflexivity|].
  apply (arena_accounting ["prog"; "-v"; "--"; "in"; "out"; "-x"] Borrowed.blank 0
           (replicate 5 None) Borrowed.NULL []).
  - discriminate.
  - exact Hc.
  - vm_compute; lia.
Defined.

(** The [length] of an arena container is an [unsigned short]: the append
    after the 65535th brings it back to 0, which is why the counts above
    are stated for inputs of at most 65536 tokens. *)
Lemma borrowed_length_wraps a t (m : Borrowed.arena) err (i : nat) :
  Borrowed.next_unused a = Borrowed.AddrUnused ->
  Borrowed.unused m = Borrowed.Cell (Z.of_nat i) ->
  (i < List.length (Borrowed.cells m))%nat ->
  Borrowed.length a = 65535 ->
  exists a' w, Borrowed.cli_da_append a t (m, err) = Done a' w /\ Borrowed.length a' = 0.
Proof.
  intros Hn Hu Hi Hl. eexists _, _. split.
  - apply (borrowed_append_Done a t m err i Hn Hu Hi).
  - cbn. now rewrite Hl.
Qed.

(** * Further properties *)

(** ** The grammar on lists *)

Lemma token_kinds t :
  (is_option t = true /\ is_double_dash t = false /\ is_positional t = false) \/
  (is_option t = false /\ is_double_dash t = true /\ is_positional t = false) \/
  (is_option t = false /\ is_double_dash t = false /\ is_positional t = true).
Proof.
  unfold is_option, is_positional, begins_with_dash, is_double_dash.
  destruct (Ascii.eqb (char_at t 0) "-"); cbn; [|tauto].
  destruct (_ && _); cbn; tauto.
Qed.

Lemma leading_options_app pre l :
  leading_options (pre ++ l) =
    if forallb is_option pre then pre ++ leading_options l else leading_options pre.
Proof.
  induction pre as [|t pre IH]; [reflexivity|]. cbn.
  destruct (is_option t); cbn; [|reflexivity].
  rewrite IH. now destruct (forallb is_option pre).
Qed.

Lemma after_options_app pre l :
  after_options (pre ++ l) =
    if forallb is_option pre then after_options l else after_options pre ++ l.
Proof.
  induction pre as [|t pre IH]; [reflexivity|]. cbn.
  destruct (is_option t); cbn; [exact IH|reflexivity].
Qed.

Lemma leading_options_all pre :
  forallb is_option pre = true -> leading_options pre = pre /\ after_options pre = [].
Proof.
  induction pre as [|t pre IH]; [now split|]. cbn.
  destruct (is_option t); cbn; [|discriminate].
  intros H. destruct (IH H) as [-> ->]. now split.
Qed.

(** The three runs after one more option. *)
Lemma runs_snoc_option pre t :
  is_option t = true ->
  positionals (pre ++ [t]) = positionals pre /\
  (forallb is_option pre = true ->
   leading_options (pre ++ [t]) = leading_options pre ++ [t] /\
   later_options (pre ++ [t]) = later_options pre) /\
  (forallb is_option pre = false ->
   leading_options (pre ++ [t]) = leading_options pre /\
   later_options (pre ++ [t]) = later_options pre ++ [t]).
Proof.
  intros Ht. destruct (token_kinds t) as [(_ & _ & Hp)|[(Ho & _)|(Ho & _)]]; try congruence.
  unfold positionals, later_options.
  rewrite List.filter_app, leading_options_app, after_options_app. cbn. rewrite Hp, Ht.
  split; [apply app_nil_r|]. split; intros Hall; rewrite Hall.
  - destruct (leading_options_all pre Hall) as [-> ->]. now split.
  - rewrite List.filter_app. cbn. now rewrite Ht.
Qed.

(** The three runs after one more token that is not an option. *)
Lemma runs_snoc_other pre t :
  is_option t = false ->
  leading_options (pre ++ [t]) = leading_options pre /\
  later_options (pre ++ [t]) = later_options pre /\
  positionals (pre ++ [t]) = positionals pre ++ (if is_positional t then [t] else []) /\
  forallb is_option (pre ++ [t]) = false.
Proof.
  intros Ht. unfold positionals, later_options.
  rewrite List.filter_app, leading_options_app, after_options_app, forallb_app.
  cbn. rewrite Ht, andb_false_r.
  destruct (forallb is_option pre) eqn:Hall.
  - destruct (leading_options_all pre Hall) as [-> ->]. cbn. rewrite Ht, app_nil_r.
    repeat split; trivial.
  - rewrite List.filter_app. cbn. rewrite Ht, app_nil_r. repeat split; trivial.
Qed.

Lemma nonempty_false {A} (l : list A) : nonempty l = false <-> l = [].
Proof. destruct l; cbn; split; congruence. Qed.

Lemma nonempty_true {A} (l : list A) : nonempty l = true <-> l <> [].
Proof. destruct l; cbn; split; congruence. Qed.

Lemma runs_length pre :
  (List.length (leading_options pre) <= List.length pre)%nat /\
  (List.length (positionals pre) <= List.length pre)%nat /\
  (List.length (later_options pre) <= List.length pre)%nat.
Proof.
  split; [|split].
  - induction pre as [|t pre IH]; cbn; [lia|]. destruct (is_option t); cbn; lia.
  - apply List.filter_length_le.
  - unfold later_options. etransitivity; [apply List.filter_length_le|].
    induction pre as [|t pre IH]; cbn; [lia|]. destruct (is_option t); cbn; lia.
Qed.

(** [sift] splits its input, and the part it keeps has no misplaced token. *)
Lemma sift_split rest : forall pre,
  exists mid, fst (sift pre rest) = pre ++ mid /\ rest = mid ++ snd (sift pre rest) /\
              snd (sift (pre) mid) = [].
Proof.
  induction rest as [|t rest IH]; intros pre.
  - exists []. cbn. now rewrite app_nil_r.
  - cbn. destruct (misplaced pre t) eqn:Hm.
    + exists []. cbn. now rewrite app_nil_r.
    + destruct (IH (pre ++ [t])) as (mid & H1 & H2 & H3).
      exists (t :: mid). cbn. rewrite Hm, H1, <- app_assoc. cbn.
      repeat split; trivial. now f_equal.
Qed.

(** ** The heap build against the grammar *)

Lemma holds_nonempty a toks :
  Owned.holds a toks -> (0 <? Owned.length a) = nonempty toks.
Proof.
  intros Hh. rewrite (holds_length _ _ Hh). destruct toks; cbn; [reflexivity|].
  apply Z.ltb_lt. lia.
Qed.

(** One iteration on sound containers that store the runs of [pre]: it
    either accepts [t], which then was not misplaced, stores it in its run
    and prints nothing, or returns [CliErrorUser] at a misplaced [t],
    changing nothing and printing the complaint. *)
Lemma owned_sifted_step (cap : nat) pre t b (cli : Cli Owned.CliArray) w c w' :
  owned_sifted pre b cli ->
  @loop_body (Owned.container cap) t b cli w = Done c w' ->
  match c with
  | Continue b' cli' =>
      misplaced pre t = false /\ owned_sifted (pre ++ [t]) b' cli' /\ snd w' = snd w
  | Return e cli' =>
      misplaced pre t = true /\ e = CliErrorUser /\ cli' = cli /\
      w' = (fst w, snd w ++ [complaint pre t])
  end.
Proof.
  intros (Hpo & Har & Hco & Hb) Hrun.
  destruct c as [b' cli'|e cli'].
  - (* the token is accepted *)
    unfold misplaced, owned_sifted.
    destruct (token_kinds t) as [(Ho & Hd & Hp)|[(Ho & Hd & Hp)|(Ho & Hd & Hp)]].
    + (* an option *)
      assert (E0 : Ascii.eqb (char_at t 0) "-" = true).
      { unfold is_option, begins_with_dash in Ho. now apply andb_prop in Ho as [? _]. }
      rewrite loop_body_option in Hrun by assumption. cbn zeta in Hrun.
      apply bind_Done in Hrun as (a1 & w1 & Ha & Hrun). injection Hrun as <- <- <-.
      rewrite Hd, Hp. cbn [andb orb]. split; [reflexivity|].
      destruct (runs_snoc_option pre t Ho) as (Rp & Rall & Rnot).
      rewrite forallb_app. cbn [forallb]. rewrite Ho, andb_true_r, Rp.
      owned_methods. destruct (forallb is_option pre) eqn:Hall; subst b;
        cbn [negb get set args cmd_options program_options] in *.
      * destruct (Rall eq_refl) as [-> ->].
        apply (owned_append_Done _ _ _ _ _ _ Hpo) in Ha as (Hh & He & _). auto.
      * destruct (Rnot eq_refl) as [-> ->].
        apply (owned_append_Done _ _ _ _ _ _ Hco) in Ha as (Hh & He & _). auto.
    + (* a separator, with no positional before it *)
      rewrite loop_body_double_dash in Hrun by assumption. owned_methods.
      rewrite (holds_nonempty _ _ Har) in Hrun.
      destruct (nonempty (positionals pre)) eqn:Hne.
      * unfold bind, read_item, cli_printf_error, ret in Hrun.
        case_branch Hrun; discriminate.
      * injection Hrun as <- <- <-. rewrite Hp. cbn [andb orb].
        rewrite andb_false_r. split; [reflexivity|].
        destruct (runs_snoc_other pre t Ho) as (-> & -> & -> & ->).
        rewrite Hp, app_nil_r. auto.
    + (* a positional token, with no later option before it *)
      assert (E0 : Ascii.eqb (char_at t 0) "-" = false).
      { unfold is_positional, begins_with_dash in Hp. now apply negb_true_iff in Hp. }
      rewrite loop_body_positional in Hrun by assumption. owned_methods.
      rewrite (holds_nonempty _ _ Hco) in Hrun.
      destruct (nonempty (later_options pre)) eqn:Hne.
      * unfold bind, cli_printf_error, ret in Hrun. discriminate.
      * apply bind_Done in Hrun as (a1 & w1 & Ha & Hrun). injection Hrun as <- <- <-.
        rewrite Hd. cbn [andb orb]. rewrite andb_false_r. split; [reflexivity|].
        destruct (runs_snoc_other pre t Ho) as (-> & -> & -> & ->).
        rewrite Hp. cbn [set args cmd_options program_options].
        apply (owned_append_Done _ _ _ _ _ _ Har) in Ha as (Hh & He & _). auto.
  - (* the token is refused *)
    apply loop_body_Return in Hrun as (-> & -> & Hm & Hd). owned_methods.
    destruct w as [h err], w' as [h' err']. cbn [fst snd] in *. subst h'.
    unfold misplaced, complaint.
    destruct Hd as [(Hdd & Hlen & prev & Hload & ->)|(E0 & Hlen & ->)].
    + assert (Hne : positionals pre <> []).
      { apply nonempty_true. rewrite <- (holds_nonempty _ _ Har). now apply Z.ltb_lt. }
      destruct (holds_last _ _ h Har Hne) as (_ & prev' & Hlast & Hload').
      rewrite Hload' in Hload. injection Hload as ->.
      rewrite Hdd, Hlast. apply nonempty_true in Hne. rewrite Hne. auto.
    + assert (Hne : nonempty (later_options pre) = true).
      { rewrite <- (holds_nonempty _ _ Hco). now apply Z.ltb_lt. }
      assert (Hp : is_positional t = true).
      { unfold is_positional, begins_with_dash. now rewrite E0. }
      assert (Hdd : is_double_dash t = false).
      { unfold is_double_dash. now rewrite E0. }
      rewrite Hdd, Hp, Hne. auto.
Qed.

(** The loop on sound containers that store the runs of [pre]: when it
    completes, it has consumed the tokens that [sift] keeps, the containers
    store their runs, and only a misplaced token has printed a line. *)
Lemma owned_sifted_scan (cap : nat) rest :
  forall pre b (cli : Cli Owned.CliArray) w c w',
    owned_sifted pre b cli ->
    @scan (Owned.container cap) rest b cli w = Done c w' ->
    exists b' cli',
      owned_sifted (fst (sift pre rest)) b' cli' /\
      match snd (sift pre rest) with
      | [] => c = Continue b' cli' /\ snd w' = snd w
      | t :: _ =>
          c = Return CliErrorUser cli' /\
          snd w' = snd w ++ [complaint (fst (sift pre rest)) t]
      end.
Proof.
  induction rest as [|t rest IH]; intros pre b cli w c w' Hinv Hs.
  - injection Hs as <- <-. exists b, cli. cbn. auto.
  - cbn [scan] in Hs. apply bind_Done in Hs as (c1 & w1 & Hb & Hs).
    pose proof (owned_sifted_step cap pre t b cli w c1 w1 Hinv Hb) as Hstep.
    cbn [sift]. destruct c1 as [b1 cli1|e1 cli1].
    + destruct Hstep as (Hm & Hinv1 & He). rewrite Hm.
      destruct (IH _ _ _ _ _ _ Hinv1 Hs) as (b' & cli' & Hinv' & Hc).
      exists b', cli'. split; [exact Hinv'|].
      destruct (snd (sift (pre ++ [t]) rest)); now rewrite <- He.
    + destruct Hstep as (Hm & -> & -> & ->). rewrite Hm. injection Hs as <- <-.
      exists b, cli. cbn. auto.
Qed.

Lemma owned_sifted_init (cap : nat) exe cli0 w0 b cli w :
  @cli_parse_init (Owned.container cap) exe cli0 w0 = Done (Continue b cli) w ->
  b = false /\ owned_sifted [] false cli /\ snd w = snd w0 /\ execfile cli = Some exe.
Proof.
  intros Hi. split; [exact (cli_parse_init_Continue _ _ _ _ _ _ Hi)|].
  pose proof (cli_parse_init_execfile _ _ _ _ _ Hi) as He. cbn in He.
  revert Hi. unfold cli_parse_init.
  cbn [set args cmd_options program_options execfile cli_da_init data_is_null
       Owned.container].
  intros Hi.
  apply bind_Done in Hi as (a1 & w1 & H1 & Hi).
  destruct (Owned.data a1) eqn:D1; [|unfold bind, ret, cli_print_error in Hi; discriminate].
  apply bind_Done in Hi as (a2 & w2 & H2 & Hi).
  destruct (Owned.data a2) eqn:D2; [|unfold bind, ret, cli_print_error in Hi; discriminate].
  apply bind_Done in Hi as (a3 & w3 & H3 & Hi).
  destruct (Owned.data a3) eqn:D3; [|unfold bind, ret, cli_print_error in Hi; discriminate].
  injection Hi as <- <- <-.
  assert (Herr : forall junk v a v', Owned.cli_da_init cap junk v = Done a v' -> snd v' = snd v).
  { intros junk v a v'. unfold Owned.cli_da_init, Owned.CLI_MALLOC, bind, ret.
    now intros [= <- <-]. }
  split; [|split; [|exact He]].
  - unfold owned_sifted. cbn [args cmd_options program_options leading_options positionals
                              later_options after_options List.filter forallb negb].
    repeat split; eapply owned_init_holds; eauto; congruence.
  - etransitivity; [exact (Herr _ _ _ _ H3)|].
    etransitivity; [exact (Herr _ _ _ _ H2)|]. exact (Herr _ _ _ _ H1).
Qed.

(** What a returned tier other than [CliErrorFatal] comes with: the tokens
    that [sift] keeps are stored, each in its run; the tier is
    [CliErrorOk] when nothing is left and [CliErrorUser] otherwise, in which
    case the complaint about the first token left is the one new line of
    [stderr]. *)
Lemma owned_parse_sifted (cap : nat) exe rest cli0 w0 e (cli : Cli Owned.CliArray) w :
  @cli_parse (Owned.container cap) (exe :: rest) cli0 w0 = Done (e, cli) w ->
  e <> CliErrorFatal ->
  let pre := fst (sift [] rest) in
  Owned.elements (program_options cli) = Some <$> leading_options pre /\
  Owned.elements (args cli) = Some <$> positionals pre /\
  Owned.elements (cmd_options cli) = Some <$> later_options pre /\
  match snd (sift [] rest) with
  | [] => e = CliErrorOk /\ snd w = snd w0
  | t :: _ => e = CliErrorUser /\ snd w = snd w0 ++ [complaint pre t]
  end.
Proof.
  destruct rest as [|t rest].
  - intros [= <- <- <-] _. cbn. auto.
  - rewrite cli_parse_all. unfold cli_parse_upto.
    destruct (bind _ _ w0) as [c w1| |] eqn:Hu; try discriminate.
    apply bind_Done in Hu as (c0 & w2 & Hi & Hs).
    destruct c0 as [b0 cli1|e0 cli1].
    + apply owned_sifted_init in Hi as (-> & Hinv & Herr & _).
      destruct (owned_sifted_scan cap (t :: rest) [] false cli1 w2 c w1 Hinv Hs)
        as (b' & cli' & (Hpo & Har & Hco & _) & Hc).
      intros Hrun Hne. cbn zeta.
      destruct (snd (sift [] (t :: rest))) as [|t1 left].
      * destruct Hc as [-> He]. injection Hrun as <- <- <-.
        rewrite (holds_elements _ _ Hpo), (holds_elements _ _ Har), (holds_elements _ _ Hco).
        rewrite He, Herr. auto.
      * destruct Hc as [-> He]. injection Hrun as <- <- <-.
        rewrite (holds_elements _ _ Hpo), (holds_elements _ _ Har), (holds_elements _ _ Hco).
        rewrite He, Herr. auto.
    + injection Hs as <- <-. apply cli_parse_init_Return in Hi as ->.
      intros [= <- <- <-] Hne. congruence.
Qed.

Lemma sift_all pre rest : snd (sift pre rest) = [] -> fst (sift pre rest) = pre ++ rest.
Proof.
  intros H. destruct (sift_split rest pre) as (mid & H1 & H2 & _).
  rewrite H, app_nil_r in H2. now subst mid.
Qed.

Lemma sift_stops rest : forall pre t left,
  snd (sift pre rest) = t :: left ->
  exists mid,
    rest = mid ++ t :: left /\ fst (sift pre rest) = pre ++ mid /\
    misplaced (pre ++ mid) t = true /\ snd (sift pre mid) = [].
Proof.
  induction rest as [|x rest IH]; intros pre t left; [discriminate|].
  cbn. destruct (misplaced pre x) eqn:Hm.
  - intros [= -> ->]. exists []. cbn. rewrite app_nil_r. auto.
  - intros H. destruct (IH _ _ _ H) as (mid & -> & H2 & H3 & H4).
    exists (x :: mid). cbn. rewrite Hm, H2, <- app_assoc in *. cbn. auto.
Qed.

(** [sift] keeps everything exactly when no token is misplaced after the
    tokens before it. *)
Lemma sift_keeps_all_iff rest : forall pre,
  snd (sift pre rest) = [] <->
  forall a t b, rest = a ++ t :: b -> misplaced (pre ++ a) t = false.
Proof.
  induction rest as [|x rest IH]; intros pre.
  - split; [intros _ a t b H; now destruct a|reflexivity].
  - cbn. split.
    + destruct (misplaced pre x) eqn:Hm; [discriminate|]. intros H a t b Hs.
      destruct a as [|y a]; injection Hs as <- ->.
      * now rewrite app_nil_r.
      * pose proof (proj1 (IH _) H a t b eq_refl) as H'.
        now rewrite <- app_assoc in H'.
    + intros H. rewrite <- (app_nil_r pre) at 1.
      rewrite (H [] x rest eq_refl). apply IH. intros a t b ->.
      rewrite <- app_assoc. apply (H (x :: a) t b). reflexivity.
Qed.

(** What "misplaced" means, token by token: a "--" that follows a
    positional token, or a positional token that follows an option which
    itself follows a token that is not an option. *)
Lemma misplaced_iff pre t : misplaced pre t = true <-> out_of_order pre t.
Proof.
  unfold out_of_order.
  assert (Hpos : nonempty (positionals pre) = true <->
                 exists p, In p pre /\ is_positional p = true).
  { rewrite nonempty_true. unfold positionals. split.
    - destruct (List.filter is_positional pre) as [|p l] eqn:E; [congruence|]. intros _.
      exists p. apply List.filter_In. rewrite E. now left.
    - intros (p & Hp) E. apply List.filter_In in Hp. rewrite E in Hp. contradiction. }
  assert (Hlater : nonempty (later_options pre) = true <->
                   exists a x b o c,
                     pre = a ++ x :: b ++ o :: c /\ is_option x = false /\ is_option o = true).
  { rewrite nonempty_true. unfold later_options. split.
    - intros Hne.
      assert (Hsplit : forall l, after_options l <> [] ->
                exists a x r, l = a ++ x :: r /\ is_option x = false /\ after_options l = x :: r).
      { induction l as [|y l IH]; cbn; [congruence|].
        destruct (is_option y) eqn:Hy.
        - intros H. destruct (IH H) as (a & x & r & -> & Hx & Hr).
          exists (y :: a), x, r. auto.
        - intros _. exists [], y, l. auto. }
      destruct (after_options pre) as [|x0 r0] eqn:E; [cbn in Hne; congruence|].
      destruct (Hsplit pre ltac:(congruence)) as (a & x & r & -> & Hx & Hr).
      rewrite E in Hr. injection Hr as -> ->.
      cbn in Hne. rewrite Hx in Hne.
      destruct (List.filter is_option r) as [|o l] eqn:Ef; [congruence|].
      assert (Ho : In o r /\ is_option o = true).
      { apply List.filter_In. rewrite Ef. now left. }
      destruct Ho as [Hin Ho]. apply in_split in Hin as (b & c & ->).
      exists a, x, b, o, c. auto.
    - intros (a & x & b & o & c & -> & Hx & Ho) E.
      assert (Hin : In o (after_options (a ++ x :: b ++ o :: c))).
      { rewrite after_options_app. cbn [after_options]. rewrite Hx.
        destruct (forallb is_option a); [|apply in_or_app; right];
          right; apply in_or_app; right; now left. }
      assert (In o (List.filter is_option (after_options (a ++ x :: b ++ o :: c))))
        by (apply List.filter_In; auto).
      rewrite E in H. contradiction. }
  unfold misplaced. rewrite orb_true_iff, !andb_true_iff, Hpos, Hlater. reflexivity.
Qed.

(** X1. When [cli_parse] returns [CliErrorOk] on the heap build, whatever
    the capacity, the allocator and the caller's struct:
    [program_options] holds the options that come before any other token,
    [args] holds the tokens that do not begin with '-', and [cmd_options]
    holds the options that come after the first token that is not an
    option, each in input order; nothing was printed. *)
Theorem parse_ok_sorts_tokens (cap : nat) exe rest cli0 w0 (cli : Cli Owned.CliArray) w :
  @cli_parse (Owned.container cap) (exe :: rest) cli0 w0 = Done (CliErrorOk, cli) w ->
  Owned.elements (program_options cli) = Some <$> leading_options rest /\
  Owned.elements (args cli) = Some <$> positionals rest /\
  Owned.elements (cmd_options cli) = Some <$> later_options rest /\
  snd w = snd w0.
Proof.
  intros Hrun.
  pose proof (owned_parse_sifted cap exe rest cli0 w0 _ _ _ Hrun ltac:(discriminate)) as H.
  cbn zeta in H. destruct H as (Hpo & Har & Hco & Ht).
  destruct (snd (sift [] rest)) as [|t left] eqn:Hs.
  - rewrite (sift_all _ _ Hs) in *. cbn [app] in *. tauto.
  - destruct Ht as [Ht _]. discriminate.
Qed.

Lemma parse_ok_sorts_tokens_witness :
  @cli_parse Owned.default ("prog" :: ["-v"; "-q"; "--"; "in"; "out"; "-x"; "-"])
    Owned.blank Owned.generous =
    Done (CliErrorOk, Owned.struct "prog" ["in"; "out"] ["-x"; "-"] ["-v"; "-q"])
      (Owned.settled, [])
  /\
  (Owned.elements (program_options (Owned.struct "prog" ["in"; "out"] ["-x"; "-"] ["-v"; "-q"]))
   = Some <$> leading_options ["-v"; "-q"; "--"; "in"; "out"; "-x"; "-"] /\
   Owned.elements (args (Owned.struct "prog" ["in"; "out"] ["-x"; "-"] ["-v"; "-q"]))
   = Some <$> positionals ["-v"; "-q"; "--"; "in"; "out"; "-x"; "-"] /\
   Owned.elements (cmd_options (Owned.struct "prog" ["in"; "out"] ["-x"; "-"] ["-v"; "-q"]))
   = Some <$> later_options ["-v"; "-q"; "--"; "in"; "out"; "-x"; "-"] /\
   snd (Owned.settled, @nil diagnostic) = snd Owned.generous).
Proof.
  split; [vm_compute; reflexivity|].
  apply (parse_ok_sorts_tokens 5 "prog" ["-v"; "-q"; "--"; "in"; "out"; "-x"; "-"]
           Owned.blank Owned.generous
           (Owned.struct "prog" ["in"; "out"] ["-x"; "-"] ["-v"; "-q"]) (Owned.settled, [])).
  vm_compute; reflexivity.
Defined.

(** X2. When [cli_parse] returns [CliErrorUser] on the heap build, the
    input splits at the first token that is out of order: the three
    containers hold the runs of the tokens before it, and the one line
    added to [stderr] is the complaint about it, which for a "--" names the
    last positional token before it. *)
Theorem parse_user_error_stops_at_first_misplaced (cap : nat) exe rest cli0 w0
    (cli : Cli Owned.CliArray) w :
  @cli_parse (Owned.container cap) (exe :: rest) cli0 w0 = Done (CliErrorUser, cli) w ->
  exists pre t post,
    rest = pre ++ t :: post /\
    out_of_order pre t /\
    (forall a x b, pre = a ++ x :: b -> ~ out_of_order a x) /\
    Owned.elements (program_options cli) = Some <$> leading_options pre /\
    Owned.elements (args cli) = Some <$> positionals pre /\
    Owned.elements (cmd_options cli) = Some <$> later_options pre /\
    snd w = snd w0 ++ [complaint pre t].
Proof.
  intros Hrun.
  pose proof (owned_parse_sifted cap exe rest cli0 w0 _ _ _ Hrun ltac:(discriminate)) as H.
  cbn zeta in H. destruct H as (Hpo & Har & Hco & Ht).
  destruct (snd (sift [] rest)) as [|t left] eqn:Hs.
  - destruct Ht as [Ht _]. discriminate.
  - destruct (sift_stops _ _ _ _ Hs) as (pre & Hsplit & Hfst & Hm & Hkeep).
    cbn [app] in Hfst, Hm. rewrite Hfst in *.
    exists pre, t, left. split; [exact Hsplit|]. split; [now apply misplaced_iff|].
    split; [|tauto].
    intros a x b Hab Hbad. apply misplaced_iff in Hbad.
    pose proof (proj1 (sift_keeps_all_iff pre []) Hkeep a x b Hab) as Hok.
    cbn [app] in Hok. congruence.
Qed.

Lemma parse_user_error_stops_at_first_misplaced_witness :
  @cli_parse Owned.default ("prog" :: ["-v"; "in"; "out"; "--"; "late"; "-x"; "--"])
    Owned.blank Owned.generous =
    Done (CliErrorUser, Owned.struct "prog" ["in"; "out"] [] ["-v"])
      (Owned.settled, [Diag "CLI error" double_dash_msg ["--"; "out"]])
  /\
  exists pre t post,
    ["-v"; "in"; "out"; "--"; "late"; "-x"; "--"] = pre ++ t :: post /\
    out_of_order pre t /\
    (forall a x b, pre = a ++ x :: b -> ~ out_of_order a x) /\
    Owned.elements (program_options (Owned.struct "prog" ["in"; "out"] [] ["-v"]))
    = Some <$> leading_options pre /\
    Owned.elements (args (Owned.struct "prog" ["in"; "out"] [] ["-v"]))
    = Some <$> positionals pre /\
    Owned.elements (cmd_options (Owned.struct "prog" ["in"; "out"] [] ["-v"]))
    = Some <$> later_options pre /\
    snd (Owned.settled, [Diag "CLI error" double_dash_msg ["--"; "out"]]) =
    snd Owned.generous ++ [complaint pre t].
Proof.
  split; [vm_compute; reflexivity|].
  apply (parse_user_error_stops_at_first_misplaced 5 "prog"
           ["-v"; "in"; "out"; "--"; "late"; "-x"; "--"] Owned.blank Owned.generous
           (Owned.struct "prog" ["in"; "out"] [] ["-v"])
           (Owned.settled, [Diag "CLI error" double_dash_msg ["--"; "out"]])).
  vm_compute; reflexivity.
Defined.

(** X3. A tier that [cli_parse] returns on the heap build, other than
    [CliErrorFatal], decides the order of the input: it is [CliErrorUser]
    exactly when some token is out of order after the tokens before it,
    and [CliErrorOk] exactly when none is. *)
Theorem returned_tier_decides_order (cap : nat) exe rest cli0 w0 e
    (cli : Cli Owned.CliArray) w :
  @cli_parse (Owned.container cap) (exe :: rest) cli0 w0 = Done (e, cli) w ->
  e <> CliErrorFatal ->
  (e = CliErrorUser <-> exists a t b, rest = a ++ t :: b /\ out_of_order a t) /\
  (e = CliErrorOk <-> forall a t b, rest = a ++ t :: b -> ~ out_of_order a t).
Proof.
  intros Hrun Hne.
  pose proof (owned_parse_sifted cap exe rest cli0 w0 _ _ _ Hrun Hne) as H.
  cbn zeta in H. destruct H as (_ & _ & _ & Ht).
  assert (Hall : snd (sift [] rest) = [] <->
                 forall a t b, rest = a ++ t :: b -> ~ out_of_order a t).
  { rewrite sift_keeps_all_iff. cbn [app]. split; intros H a t b Hs.
    - rewrite <- misplaced_iff, (H a t b Hs). discriminate.
    - specialize (H a t b Hs). rewrite <- misplaced_iff in H.
      now destruct (misplaced a t). }
  destruct (snd (sift [] rest)) as [|t left] eqn:Hs.
  - destruct Ht as [-> _]. split.
    + split; [discriminate|]. intros (a & t & b & Hsplit & Hbad).
      exfalso. exact (proj1 Hall eq_refl a t b Hsplit Hbad).
    + split; [intros _; now apply Hall|reflexivity].
  - destruct Ht as [-> _]. split.
    + split; [intros _|reflexivity].
      destruct (sift_stops _ _ _ _ Hs) as (pre & Hsplit & _ & Hm & _).
      exists pre, t, left. split; [exact Hsplit|now apply misplaced_iff].
    + split; [discriminate|]. intros H. apply Hall in H. discriminate.
Qed.

Lemma returned_tier_decides_order_witness :
  @cli_parse Owned.default ("prog" :: ["run"; "-x"; "late"]) Owned.blank Owned.generous =
    Done (CliErrorUser, Owned.struct "prog" ["run"] ["-x"] [])
      (Owned.settled, [Diag "CLI error" positional_msg ["late"]])
  /\ CliErrorUser <> CliErrorFatal /\
  (CliErrorUser = CliErrorUser <->
   exists a t b, ["run"; "-x"; "late"] = a ++ t :: b /\ out_of_order a t) /\
  (CliErrorUser = CliErrorOk <->
   forall a t b, ["run"; "-x"; "late"] = a ++ t :: b -> ~ out_of_order a t).
Proof.
  split; [vm_compute; reflexivity|]. split; [discriminate|].
  apply (returned_tier_decides_order 5 "prog" ["run"; "-x"; "late"] Owned.blank
           Owned.generous CliErrorUser (Owned.struct "prog" ["run"] ["-x"] [])
           (Owned.settled, [Diag "CLI error" positional_msg ["late"]])).
  - vm_compute; reflexivity.
  - discriminate.
Defined.

(** ** When the heap build completes *)

Section OwnedTotal.
Variable cap : nat.
(** [J] is a property of the struct and of the allocator that makes every
    append to a sound container of fewer than [N] items complete, and that
    such appends keep. *)
Variable J : Cli Owned.CliArray -> Owned.heap -> Prop.
Variable N : nat.
Hypothesis J_append :
  forall (cli : Cli Owned.CliArray) h err dest t toks,
    J cli h -> Owned.holds (get dest cli) toks -> (List.length toks < N)%nat ->
    exists a' h',
      Owned.cli_da_append (get dest cli) t (h, err) = Done a' (h', err) /\
      J (set dest a' cli) h'.

Lemma owned_step_total pre t b (cli : Cli Owned.CliArray) h err :
  owned_sifted pre b cli -> J cli h -> (List.length pre < N)%nat ->
  exists c h' err',
    @loop_body (Owned.container cap) t b cli (h, err) = Done c (h', err') /\
    J (match c with Continue _ x | Return _ x => x end) h'.
Proof.
  intros Hinv HJ Hlen. pose proof Hinv as (Hpo & Har & Hco & Hb).
  destruct (runs_length pre) as (L1 & L2 & L3).
  destruct (@target (Owned.container cap) t b cli) as [dest|] eqn:Ht.
  - assert (Hd : exists toks, Owned.holds (get dest cli) toks /\ (List.length toks < N)%nat).
    { destruct dest; cbn; eexists; split; eauto; lia. }
    destruct Hd as (toks & Hh & Hl).
    destruct (J_append cli h err dest t toks HJ Hh Hl) as (a' & h' & Hrun & HJ').
    rewrite (loop_body_target _ _ _ _ Ht). owned_methods.
    eexists _, h', err. unfold bind, ret. rewrite Hrun. split; [reflexivity|exact HJ'].
  - revert Ht. unfold target.
    destruct (Ascii.eqb (char_at t 0) "-") eqn:E0.
    + destruct (is_double_dash t) eqn:Ed; [intros _|discriminate].
      rewrite loop_body_double_dash by assumption. owned_methods.
      destruct (0 <? Owned.length (args cli)) eqn:El.
      * assert (Hne : positionals pre <> []).
        { apply nonempty_true. now rewrite <- (holds_nonempty _ _ Har). }
        destruct (holds_last _ _ h Har Hne) as (_ & prev & _ & Hload).
        eexists _, h, _. unfold bind, read_item, cli_printf_error, ret. owned_methods.
        cbn [fst snd]. rewrite Hload. split; [reflexivity|exact HJ].
      * eexists _, h, err. split; [reflexivity|exact HJ].
    + rewrite loop_body_positional by assumption. owned_methods.
      destruct (0 <? Owned.length (cmd_options cli)); [intros _|discriminate].
      eexists _, h, _. split; [reflexivity|exact HJ].
Qed.

Lemma owned_scan_total rest :
  forall pre b (cli : Cli Owned.CliArray) h err,
    owned_sifted pre b cli -> J cli h ->
    (List.length pre + List.length rest <= N)%nat ->
    exists c h' err',
      @scan (Owned.container cap) rest b cli (h, err) = Done c (h', err') /\
      J (match c with Continue _ x | Return _ x => x end) h'.
Proof.
  induction rest as [|t rest IH]; intros pre b cli h err Hinv HJ Hlen.
  - eexists _, h, err. split; [reflexivity|exact HJ].
  - cbn [List.length] in Hlen.
    destruct (owned_step_total pre t b cli h err Hinv HJ ltac:(lia))
      as (c1 & h1 & err1 & Hb & HJ1).
    pose proof (owned_sifted_step cap pre t b cli _ _ _ Hinv Hb) as Hstep.
    cbn [scan]. rewrite (bind_eq_Done _ _ _ _ _ Hb).
    destruct c1 as [b1 cli1|e1 cli1].
    + destruct Hstep as (_ & Hinv1 & _).
      apply (IH (pre ++ [t])); trivial. rewrite length_app. cbn [List.length]. lia.
    + eexists _, h1, err1. split; [reflexivity|exact HJ1].
Qed.

End OwnedTotal.

(** The three initialisations when the allocator grants them. *)
Lemma owned_init_granted (cap : nat) exe cli0 h err :
  ~ In false (take 3 (Owned.oracle h)) ->
  let fresh := Owned.mkArray 0 (wrap16 (Z.of_nat cap)) (Some (replicate cap None)) in
  @cli_parse_init (Owned.container cap) exe cli0 (h, err) =
    Done (Continue false (mkCli (Some exe) fresh fresh fresh))
      (Owned.mkHeap (drop 3 (Owned.oracle h))
         (Owned.calls h ++ [Owned.Malloc (Z.of_nat cap); Owned.Malloc (Z.of_nat cap);
                            Owned.Malloc (Z.of_nat cap)]), err).
Proof.
  destruct h as [o c]. intros Hin fresh. subst fresh.
  destruct o as [|[|] [|[|] [|[|] o]]]; cbn [Owned.oracle take In] in Hin;
    try (exfalso; intuition discriminate);
    lazy -[wrap16 Z.of_nat Z.to_nat replicate app];
    rewrite ?Nat2Z.id, <- ?app_assoc; reflexivity.
Qed.

Lemma owned_fresh_holds (cap : nat) :
  Owned.holds (Owned.mkArray 0 (wrap16 (Z.of_nat cap)) (Some (replicate cap None))) [].
Proof.
  eexists. split; [reflexivity|]. cbn.
  pose proof (wrap16_range (Z.of_nat cap)). rewrite length_replicate.
  repeat split; try lia. unfold wrap16. apply Z.mod_le; lia.
Qed.

Lemma owned_sifted_fresh (cap : nat) exe :
  let fresh := Owned.mkArray 0 (wrap16 (Z.of_nat cap)) (Some (replicate cap None)) in
  owned_sifted [] false (mkCli (Some exe) fresh fresh fresh).
Proof. cbn. repeat split; apply owned_fresh_holds. Qed.

Lemma sift_keeps_all_order rest :
  snd (sift [] rest) = [] <-> forall a t b, rest = a ++ t :: b -> ~ out_of_order a t.
Proof.
  rewrite sift_keeps_all_iff. cbn [app]. split; intros H a t b Hs.
  - rewrite <- misplaced_iff, (H a t b Hs). discriminate.
  - specialize (H a t b Hs). rewrite <- misplaced_iff in H. now destruct (misplaced a t).
Qed.

Lemma granted_all h :
  Forall (fun g => g = true) (Owned.oracle h) -> Owned.granted h = true.
Proof.
  unfold Owned.granted. destruct (Owned.oracle h) as [|[|] o]; trivial.
  intros H. inversion H; discriminate.
Qed.

Lemma sturdy_set (cli : Cli Owned.CliArray) dest a :
  owned_sturdy cli -> 0 < Owned.capacity a -> owned_sturdy (set dest a cli).
Proof. intros Hs Ha f. specialize (Hs f). destruct dest, f; cbn in *; assumption. Qed.

(** X4. On the heap build, with an initial capacity between 1 and 65535,
    an allocator that grants every request and at most 32768 tokens after
    the execution path, [cli_parse] completes: it returns [CliErrorOk] if
    no token is out of order and [CliErrorUser] otherwise; it trips no
    assertion and makes no invalid access. *)
Theorem parse_completes_when_memory_is_granted (cap : nat) exe rest cli0 h err :
  (1 <= cap)%nat -> Z.of_nat cap < 65536 ->
  Forall (fun g => g = true) (Owned.oracle h) ->
  Z.of_nat (List.length rest) <= 32768 ->
  exists e cli w,
    @cli_parse (Owned.container cap) (exe :: rest) cli0 (h, err) = Done (e, cli) w /\
    ((e = CliErrorOk /\ forall a t b, rest = a ++ t :: b -> ~ out_of_order a t) \/
     (e = CliErrorUser /\ exists a t b, rest = a ++ t :: b /\ out_of_order a t)).
Proof.
  intros Hcap1 Hcap2 Hor Hlen.
  assert (Hrun : exists e cli w,
    @cli_parse (Owned.container cap) (exe :: rest) cli0 (h, err) = Done (e, cli) w /\
    e <> CliErrorFatal).
  { destruct rest as [|t rest].
    - eexists _, _, _. split; [reflexivity|discriminate].
    - assert (Hin : ~ In false (take 3 (Owned.oracle h))).
      { intros Hin. apply list_elem_of_In, elem_of_take in Hin as (i & Hi & _).
        apply list_elem_of_lookup_2, list_elem_of_In in Hi.
        rewrite List.Forall_forall in Hor. specialize (Hor _ Hi). discriminate. }
      pose proof (owned_init_granted cap exe cli0 h err Hin) as Hi. cbn zeta in Hi.
      set (fresh := Owned.mkArray 0 (wrap16 (Z.of_nat cap)) (Some (replicate cap None))) in *.
      set (h3 := Owned.mkHeap _ _) in Hi.
      destruct (owned_scan_total cap
                  (fun cli h => owned_sturdy cli /\ Forall (fun g => g = true) (Owned.oracle h))
                  (Z.to_nat 32768)) with (rest := t :: rest) (pre := @nil token) (b := false)
                  (cli := mkCli (Some exe) fresh fresh fresh) (h := h3) (err := err)
        as (c & h' & err' & Hs & _).
      + (* appends complete and keep the capacities positive *)
        intros cli h1 err1 dest x toks [Hst Hg] Hh Hl.
        pose proof Hh as (bf & Hd & Hl1 & Hlc & _).
        destruct (Z_lt_le_dec (Owned.length (get dest cli)) (Owned.capacity (get dest cli)))
          as [Hlt|Hge].
        * destruct (owned_append_room _ _ x (h1, err1) Hh Hlt) as (a' & Hr & _ & Hc & _).
          exists a', h1. split; [exact Hr|]. split; [|exact Hg].
          apply sturdy_set; [exact Hst|]. rewrite Hc. apply Hst.
        * destruct (owned_append_full _ _ bf x h1 err1 Hh Hd ltac:(lia)) as (_ & Hyes & _).
          destruct (Hyes (granted_all _ Hg) (Hst dest) ltac:(lia))
            as (a' & b' & Hr & _ & Hc & _).
          eexists a', _. split; [exact Hr|]. split.
          -- apply sturdy_set; [exact Hst|]. rewrite Hc. specialize (Hst dest). lia.
          -- cbn. destruct (Owned.oracle h1); [constructor|now inversion Hg].
      + apply owned_sifted_fresh.
      + split.
        * intros f. destruct f; cbn; rewrite wrap16_small; lia.
        * subst h3. cbn. now apply Forall_drop.
      + cbn [List.length] in *. lia.
      + rewrite cli_parse_all. unfold cli_parse_upto.
        rewrite (bind_eq_Done _ _ _ _ _ Hi), Hs.
        pose proof (owned_sifted_scan cap (t :: rest) [] false _ _ _ _
                      (owned_sifted_fresh cap exe) Hs) as (b' & cli' & _ & Hc).
        destruct (snd (sift [] (t :: rest))); destruct Hc as [-> _];
          eexists _, _, _; (split; [reflexivity|discriminate]). }
  destruct Hrun as (e & cli & w & Hrun & Hne).
  exists e, cli, w. split; [exact Hrun|].
  pose proof (owned_parse_sifted cap exe rest cli0 _ _ _ _ Hrun Hne) as H.
  cbn zeta in H. destruct H as (_ & _ & _ & Ht).
  destruct (snd (sift [] rest)) as [|t left] eqn:Hs.
  - left. split; [tauto|]. now apply sift_keeps_all_order.
  - right. split; [tauto|].
    destruct (sift_stops _ _ _ _ Hs) as (pre & Hsplit & _ & Hm & _).
    exists pre, t, left. split; [exact Hsplit|now apply misplaced_iff].
Qed.

Lemma parse_completes_when_memory_is_granted_witness :
  (1 <= 5)%nat /\ Z.of_nat 5 < 65536 /\
  Forall (fun g => g = true) (Owned.oracle (Owned.mkHeap [true; true; true] [])) /\
  Z.of_nat (List.length ["run"; "-x"; "late"]) <= 32768 /\
  exists e cli w,
    @cli_parse (Owned.container 5) ("prog" :: ["run"; "-x"; "late"]) Owned.blank
      (Owned.mkHeap [true; true; true] [], []) = Done (e, cli) w /\
    ((e = CliErrorOk /\
      forall a t b, ["run"; "-x"; "late"] = a ++ t :: b -> ~ out_of_order a t) \/
     (e = CliErrorUser /\
      exists a t b, ["run"; "-x"; "late"] = a ++ t :: b /\ out_of_order a t)).
Proof.
  assert (H1 : (1 <= 5)%nat) by lia.
  assert (H2 : Z.of_nat 5 < 65536) by (vm_compute; reflexivity).
  assert (H3 : Forall (fun g => g = true)
                 (Owned.oracle (Owned.mkHeap [true; true; true] []))).
  { cbn. repeat constructor. }
  assert (H4 : Z.of_nat (List.length ["run"; "-x"; "late"]) <= 32768)
    by (vm_compute; discriminate).
  split; [exact H1|]. split; [exact H2|]. split; [exact H3|]. split; [exact H4|].
  exact (parse_completes_when_memory_is_granted 5 "prog" ["run"; "-x"; "late"]
           Owned.blank (Owned.mkHeap [true; true; true] []) [] H1 H2 H3 H4).
Defined.

(** X5. On the heap build with [CLI_DEFAULT_ARR_CAP] below 65536, so that
    it fits the [unsigned short] capacity field: when the tokens after the
    execution path are at least one and at most [CLI_DEFAULT_ARR_CAP], and
    the three initial [CLI_MALLOC] requests are granted, [cli_parse]
    completes without a fatal tier and makes no other request: the
    allocator has seen the three [CLI_MALLOC] calls and no [CLI_REALLOC],
    whatever it would have answered to later requests. *)
Theorem small_input_never_reallocates (cap : nat) exe rest cli0 h err :
  Z.of_nat cap < 65536 ->
  ~ In false (take 3 (Owned.oracle h)) ->
  rest <> [] -> (List.length rest <= cap)%nat ->
  exists e cli err',
    @cli_parse (Owned.container cap) (exe :: rest) cli0 (h, err) =
      Done (e, cli)
        (Owned.mkHeap (drop 3 (Owned.oracle h))
           (Owned.calls h ++ [Owned.Malloc (Z.of_nat cap); Owned.Malloc (Z.of_nat cap);
                              Owned.Malloc (Z.of_nat cap)]), err') /\
    e <> CliErrorFatal.
Proof.
  intros Hcap Hin Hne Hlen. destruct rest as [|t rest]; [congruence|]. clear Hne.
  pose proof (owned_init_granted cap exe cli0 h err Hin) as Hi. cbn zeta in Hi.
  set (fresh := Owned.mkArray 0 (wrap16 (Z.of_nat cap)) (Some (replicate cap None))) in *.
  set (h3 := Owned.mkHeap _ _) in *.
  destruct (owned_scan_total cap
              (fun cli h => (forall f, Owned.capacity (get f cli) = Z.of_nat cap) /\ h = h3)
              cap) with (rest := t :: rest) (pre := @nil token) (b := false)
              (cli := mkCli (Some exe) fresh fresh fresh) (h := h3) (err := err)
    as (c & h' & err' & Hs & _ & ->).
  - intros cli h1 err1 dest x toks [Hc ->] Hh Hl.
    pose proof Hh as (bf & Hd & Hl1 & _).
    assert (Hlt : Owned.length (get dest cli) < Owned.capacity (get dest cli))
      by (rewrite (Hc dest); lia).
    destruct (owned_append_room _ _ x (h3, err1) Hh Hlt) as (a' & Hr & _ & Hc' & _).
    exists a', h3. split; [exact Hr|]. split; [|reflexivity].
    intros f. pose proof (Hc f) as Hf. pose proof (Hc dest) as Hcd.
    rewrite Hcd in Hc'. destruct dest, f; cbn in *; congruence.
  - apply owned_sifted_fresh.
  - split; [|reflexivity]. intros f. destruct f; cbn; rewrite wrap16_small; lia.
  - cbn [List.length] in *. lia.
  - rewrite cli_parse_all. unfold cli_parse_upto.
    rewrite (bind_eq_Done _ _ _ _ _ Hi), Hs.
    pose proof (owned_sifted_scan cap (t :: rest) [] false _ _ _ _
                  (owned_sifted_fresh cap exe) Hs) as (b' & cli' & _ & Hc).
    destruct (snd (sift [] (t :: rest))); destruct Hc as [-> _];
      eexists _, _, _; (split; [reflexivity|discriminate]).
Qed.

Lemma small_input_never_reallocates_witness :
  Z.of_nat 5 < 65536 /\
  ~ In false (take 3 (Owned.oracle (Owned.mkHeap [true; true; true; false] []))) /\
  ["-v"; "a"; "b"; "c"; "-z"] <> [] /\
  (List.length ["-v"; "a"; "b"; "c"; "-z"] <= 5)%nat /\
  exists e cli err',
    @cli_parse (Owned.container 5) ("prog" :: ["-v"; "a"; "b"; "c"; "-z"]) Owned.blank
      (Owned.mkHeap [true; true; true; false] [], []) =
      Done (e, cli)
        (Owned.mkHeap (drop 3 (Owned.oracle (Owned.mkHeap [true; true; true; false] [])))
           (Owned.calls (Owned.mkHeap [true; true; true; false] []) ++
              [Owned.Malloc (Z.of_nat 5); Owned.Malloc (Z.of_nat 5);
               Owned.Malloc (Z.of_nat 5)]), err') /\
    e <> CliErrorFatal.
Proof.
  assert (H1 : Z.of_nat 5 < 65536) by (vm_compute; reflexivity).
  assert (H2 : ~ In false
                 (take 3 (Owned.oracle (Owned.mkHeap [true; true; true; false] [])))).
  { cbn. intros [H|[H|[H|[]]]]; discriminate. }
  assert (H3 : ["-v"; "a"; "b"; "c"; "-z"] <> @nil token) by discriminate.
  assert (H4 : (List.length ["-v"; "a"; "b"; "c"; "-z"] <= 5)%nat) by (cbn; lia).
  split; [exact H1|]. split; [exact H2|]. split; [exact H3|]. split; [exact H4|].
  exact (small_input_never_reallocates 5 "prog" ["-v"; "a"; "b"; "c"; "-z"] Owned.blank
           (Owned.mkHeap [true; true; true; false] []) [] H1 H2 H3 H4).
Defined.

(** X6. On the heap build, when the three initial [CLI_MALLOC] requests are
    granted, the outcome of [cli_parse] (the tier, the struct, the
    allocator, [stderr], or the failure) does not depend on what the
    caller's struct held before the call. *)
Theorem parse_overwrites_the_struct (cap : nat) argv (cli1 cli2 : Cli Owned.CliArray) h err :
  ~ In false (take 3 (Owned.oracle h)) ->
  @cli_parse (Owned.container cap) argv cli1 (h, err) =
  @cli_parse (Owned.container cap) argv cli2 (h, err).
Proof.
  intros Hin. destruct argv as [|exe [|t rest]]; [reflexivity|reflexivity|].
  unfold cli_parse, cli_pop_argv. unfold bind at 1 3. cbn [ret].
  pose proof (owned_init_granted cap exe cli1 h err Hin) as H1.
  pose proof (owned_init_granted cap exe cli2 h err Hin) as H2.
  cbn zeta in H1, H2.
  now rewrite (bind_eq_Done _ _ _ _ _ H1), (bind_eq_Done _ _ _ _ _ H2).
Qed.

Lemma parse_overwrites_the_struct_witness :
  ~ In false (take 3 (Owned.oracle (Owned.mkHeap [true; true; true] []))) /\
  @cli_parse (Owned.container 5) ["prog"; "run"; "-x"] Owned.blank
    (Owned.mkHeap [true; true; true] [], []) =
  @cli_parse (Owned.container 5) ["prog"; "run"; "-x"] (Owned.struct "old" ["a"] [] ["-b"])
    (Owned.mkHeap [true; true; true] [], []).
Proof.
  assert (H : ~ In false (take 3 (Owned.oracle (Owned.mkHeap [true; true; true] [])))).
  { cbn. intros [H|[H|[H|[]]]]; discriminate. }
  split; [exact H|].
  exact (parse_overwrites_the_struct 5 ["prog"; "run"; "-x"] Owned.blank
           (Owned.struct "old" ["a"] [] ["-b"]) (Owned.mkHeap [true; true; true] []) [] H).
Defined.

(** X7. On the heap build, when the first refused [CLI_MALLOC] request is
    that of container [f] (in the order [args], [cmd_options],
    [program_options]), [cli_parse] on two tokens or more returns
    [CliErrorFatal] after printing the line of [f] and reading no token:
    the containers before [f] are allocated and empty, [f] has a null
    [data], and the containers after [f] are still what the caller's struct
    held, so that these are the pointers [cli_free] would release. *)
Theorem fatal_tier_leaves_later_containers (cap : nat) exe t rest
    (cli0 : Cli Owned.CliArray) h err (f : member) o :
  Owned.oracle h = replicate (init_order f) true ++ false :: o ->
  let fresh := Owned.mkArray 0 (wrap16 (Z.of_nat cap)) (Some (replicate cap None)) in
  let failed := Owned.mkArray 0 (wrap16 (Z.of_nat cap)) None in
  let after g :=
    if (init_order g <? init_order f)%nat then fresh
    else if (init_order g =? init_order f)%nat then failed
    else get g cli0 in
  let cli := mkCli (Some exe) (after Args) (after CmdOptions) (after ProgramOptions) in
  @cli_parse (Owned.container cap) (exe :: t :: rest) cli0 (h, err) =
    Done (CliErrorFatal, cli)
      (Owned.mkHeap o
         (Owned.calls h ++ replicate (S (init_order f)) (Owned.Malloc (Z.of_nat cap))),
       err ++ [init_failure f]) /\
  owned_cli_free cli =
    [Owned.data (after Args); Owned.data (after CmdOptions);
     Owned.data (after ProgramOptions)].
Proof.
  destruct h as [orc cs]. cbn [Owned.oracle Owned.calls]. intros ->.
  split; [|reflexivity].
  destruct f; cbn [init_order replicate app];
    lazy -[wrap16 Z.of_nat Z.to_nat replicate app];
    rewrite ?Nat2Z.id, <- ?app_assoc; reflexivity.
Qed.

Lemma fatal_tier_leaves_later_containers_witness :
  Owned.oracle (Owned.mkHeap [true; false] []) =
    replicate (init_order CmdOptions) true ++ false :: [] /\
  @cli_parse (Owned.container 5) ("prog" :: "run" :: ["-x"])
    (Owned.struct "old" ["a"] [] ["-b"]) (Owned.mkHeap [true; false] [], []) =
    Done (CliErrorFatal,
          mkCli (Some "prog") (Owned.packed []) (Owned.mkArray 0 5 None)
            (Owned.packed ["-b"]))
      (Owned.mkHeap [] [Owned.Malloc 5; Owned.Malloc 5], [init_failure CmdOptions]).
Proof.
  split; [reflexivity|].
  destruct (fatal_tier_leaves_later_containers 5 "prog" "run" ["-x"]
              (Owned.struct "old" ["a"] [] ["-b"]) (Owned.mkHeap [true; false] []) []
              CmdOptions [] eq_refl) as [H _].
  etransitivity; [exact H|]. vm_compute. reflexivity.
Defined.

(** ** The arena build against the grammar *)

(** An append through a cursor that has left the arena is an invalid
    write. *)
Lemma borrowed_append_fault a t (m : Borrowed.arena) err (i : nat) :
  Borrowed.next_unused a = Borrowed.AddrUnused ->
  Borrowed.unused m = Borrowed.Cell (Z.of_nat i) ->
  (List.length (Borrowed.cells m) <= i)%nat ->
  Borrowed.cli_da_append a t (m, err) = MemFault.
Proof.
  intros Hn Hu Hi. unfold Borrowed.cli_da_append. rewrite Hn. cbn [fst snd]. rewrite Hu.
  replace (Z.of_nat i <? Z.of_nat (List.length (Borrowed.cells m))) with false
    by (symmetry; apply Z.ltb_ge; lia).
  now rewrite andb_false_r.
Qed.

Lemma kinds_bound l :
  (List.length (List.filter is_positional l) + List.length (List.filter is_option l)
   <= List.length l)%nat.
Proof.
  induction l as [|t l IH]; [reflexivity|]. cbn [List.filter].
  destruct (token_kinds t) as [(Ho & Hd & Hp)|[(Ho & Hd & Hp)|(Ho & Hd & Hp)]];
    rewrite Ho, Hp; cbn [List.length]; lia.
Qed.

Lemma runs_bound pre : (List.length (sorted_runs pre) <= List.length pre)%nat.
Proof.
  unfold sorted_runs, positionals, later_options. rewrite !length_app.
  induction pre as [|t pre IH]; [reflexivity|].
  cbn [leading_options after_options].
  destruct (token_kinds t) as [(Ho & Hd & Hp)|[(Ho & Hd & Hp)|(Ho & Hd & Hp)]]; rewrite Ho.
  - cbn [List.filter]. rewrite Hp. cbn [List.length]. lia.
  - pose proof (kinds_bound (t :: pre)). cbn [List.length] in *. lia.
  - pose proof (kinds_bound (t :: pre)). cbn [List.length] in *. lia.
Qed.

Lemma positionals_all pre : forallb is_option pre = true -> positionals pre = [].
Proof.
  induction pre as [|t pre IH]; [reflexivity|]. cbn.
  destruct (token_kinds t) as [(Ho & Hd & Hp)|[(Ho & Hd & Hp)|(Ho & Hd & Hp)]];
    rewrite Ho, Hp; cbn; [exact IH|discriminate|discriminate].
Qed.

(** An accepted token goes to the end of the stored tokens, unless it is
    the separator, which is not stored. *)
Lemma sorted_runs_snoc pre t :
  misplaced pre t = false ->
  sorted_runs (pre ++ [t]) = sorted_runs pre ++ (if is_double_dash t then [] else [t]).
Proof.
  unfold misplaced, sorted_runs. intros Hm.
  destruct (token_kinds t) as [(Ho & Hd & Hp)|[(Ho & Hd & Hp)|(Ho & Hd & Hp)]].
  - rewrite Hd. destruct (runs_snoc_option pre t Ho) as (Rp & Rall & Rnot).
    rewrite Rp. destruct (forallb is_option pre) eqn:Hall.
    + destruct (Rall eq_refl) as [-> ->]. rewrite (positionals_all _ Hall).
      destruct (leading_options_all _ Hall) as [_ Ha]. unfold later_options.
      rewrite Ha. cbn. now rewrite !app_nil_r.
    + destruct (Rnot eq_refl) as [-> ->]. now rewrite !app_assoc.
  - rewrite Hd. destruct (runs_snoc_other pre t Ho) as (-> & -> & -> & _).
    rewrite Hp. now rewrite !app_nil_r.
  - rewrite Hd, Hp in Hm. cbn in Hm. apply nonempty_false in Hm.
    rewrite Hd. destruct (runs_snoc_other pre t Ho) as (-> & -> & -> & _).
    rewrite Hp, Hm. now rewrite !app_nil_r, app_assoc.
Qed.

Lemma sorted_runs_sift rest : forall pre,
  (List.length (sorted_runs pre) <= List.length (sorted_runs (fst (sift pre rest))))%nat.
Proof.
  induction rest as [|t rest IH]; intros pre; [reflexivity|]. cbn [sift].
  destruct (misplaced pre t) eqn:Hm; [reflexivity|].
  etransitivity; [|apply IH]. rewrite (sorted_runs_snoc _ _ Hm), length_app. lia.
Qed.

Lemma region_nonempty a d toks :
  Borrowed.region a d toks -> (0 <? Borrowed.length a) = nonempty toks.
Proof.
  intros [Hl _]. rewrite Hl. destruct toks; cbn; [reflexivity|]. apply Z.ltb_lt. lia.
Qed.

(** The cells the invariant has filled are inside the arena. *)
Lemma borrowed_sifted_fits s cells0 pre b cli m :
  borrowed_sifted s cells0 pre b cli m ->
  (List.length (sorted_runs pre) = 0 \/
   s + List.length (sorted_runs pre) <= List.length cells0)%nat.
Proof.
  intros (_ & _ & _ & _ & Hlen & Htake & _).
  apply (f_equal (@List.length _)) in Htake.
  rewrite length_take, length_drop, length_fmap, Hlen in Htake. lia.
Qed.

(** Under the invariant, [data[length - 1]] of a non-empty [args] is the
    last positional token. *)
Lemma borrowed_sifted_last_arg s cells0 pre b (cli : Cli Borrowed.CliArray) m :
  borrowed_sifted s cells0 pre b cli m -> positionals pre <> [] ->
  exists prev,
    last (positionals pre) = Some prev /\
    Borrowed.load (args cli) (Borrowed.length (args cli) - 1) m = Some prev.
Proof.
  intros (_ & _ & _ & _ & _ & Htake & _ & _ & _ & [Hl Hd] & _) Hne.
  assert (Hdata : Borrowed.data (args cli) =
                  Borrowed.Cell (Z.of_nat (s + List.length (leading_options pre)))).
  { rewrite Hd. destruct (positionals pre); [congruence|reflexivity]. }
  assert (Hpos : (0 < List.length (positionals pre))%nat).
  { destruct (positionals pre); [congruence|cbn; lia]. }
  set (j := (List.length (leading_options pre) + (List.length (positionals pre) - 1))%nat).
  assert (Hlast : sorted_runs pre !! j = last (positionals pre)).
  { unfold sorted_runs, j. rewrite lookup_app_r by lia.
    replace (_ + _ - _)%nat with (List.length (positionals pre) - 1)%nat by lia.
    rewrite lookup_app_l by lia. rewrite last_lookup. f_equal. lia. }
  assert (Hj : (j < List.length (sorted_runs pre))%nat).
  { unfold sorted_runs, j. rewrite !length_app. lia. }
  destruct (lookup_lt_is_Some_2 _ _ Hj) as [prev Hprev].
  exists prev. split; [congruence|].
  unfold Borrowed.load. rewrite Hdata, Hl.
  replace (Z.of_nat (s + List.length (leading_options pre)) +
           (Z.of_nat (List.length (positionals pre)) - 1)) with (Z.of_nat (s + j))
    by (unfold j; lia).
  replace (0 <=? Z.of_nat (s + j)) with true by (symmetry; apply Z.leb_le; lia).
  rewrite Nat2Z.id, <- lookup_drop,
    <- (lookup_take_lt _ (List.length (sorted_runs pre))) by exact Hj.
  now rewrite Htake, list_lookup_fmap, Hprev.
Qed.

(** A misplaced token: the iteration prints the complaint and returns
    [CliErrorUser]; the struct and the arena stay as they are. *)
Lemma borrowed_step_refused s cells0 pre t b (cli : Cli Borrowed.CliArray) m err :
  borrowed_sifted s cells0 pre b cli m -> misplaced pre t = true ->
  @loop_body Borrowed.container t b cli (m, err) =
    Done (Return CliErrorUser cli) (m, err ++ [complaint pre t]).
Proof.
  intros Hinv Hm. pose proof Hinv as (_ & _ & _ & _ & _ & _ & _ & _ & _ & Ra & Rc & _).
  unfold misplaced in Hm. unfold complaint.
  destruct (token_kinds t) as [(Ho & Hd & Hp)|[(Ho & Hd & Hp)|(Ho & Hd & Hp)]];
    rewrite Hd, Hp in Hm; cbn in Hm; rewrite ?orb_false_r in Hm; [discriminate| |].
  - rewrite loop_body_double_dash by assumption. borrowed_methods.
    rewrite (region_nonempty _ _ _ Ra), Hm, Hd.
    apply nonempty_true in Hm.
    destruct (borrowed_sifted_last_arg _ _ _ _ _ _ Hinv Hm) as (prev & Hlast & Hload).
    unfold bind, read_item, cli_printf_error, ret. borrowed_methods.
    cbn [fst snd]. now rewrite Hload, Hlast.
  - assert (E0 : Ascii.eqb (char_at t 0) "-" = false).
    { unfold is_positional, begins_with_dash in Hp. now apply negb_true_iff in Hp. }
    rewrite loop_body_positional by assumption. borrowed_methods.
    rewrite (region_nonempty _ _ _ Rc), Hm, Hd. reflexivity.
Qed.

(** An accepted separator: the iteration sets the scope flag and stores
    nothing. *)
Lemma borrowed_step_separator s cells0 pre t b (cli : Cli Borrowed.CliArray) m err :
  borrowed_sifted s cells0 pre b cli m ->
  misplaced pre t = false -> is_double_dash t = true ->
  @loop_body Borrowed.container t b cli (m, err) = Done (Continue true cli) (m, err) /\
  borrowed_sifted s cells0 (pre ++ [t]) true cli m.
Proof.
  intros Hinv Hm Hd. pose proof Hinv as (La & Lc & Lp & Hu & Hlen & Htake & Hpre & Hpost &
                                          Rp & Ra & Rc & Hb).
  destruct (token_kinds t) as [(Ho & Hd' & Hp)|[(Ho & _ & Hp)|(Ho & Hd' & Hp)]];
    try congruence.
  unfold misplaced in Hm. rewrite Hd, Hp in Hm. cbn in Hm. rewrite orb_false_r in Hm.
  split.
  - rewrite loop_body_double_dash by assumption. borrowed_methods.
    now rewrite (region_nonempty _ _ _ Ra), Hm.
  - unfold borrowed_sifted. rewrite (sorted_runs_snoc pre t) by (unfold misplaced; now rewrite Hd, Hp, Hm).
    rewrite Hd, app_nil_r.
    destruct (runs_snoc_other pre t Ho) as (-> & -> & -> & ->).
    rewrite Hp, app_nil_r. cbn [negb].
    repeat (split; [assumption|]). reflexivity.
Qed.

Lemma runs_total f pre :
  (List.length (run_of f pre) <= List.length (sorted_runs pre))%nat.
Proof. unfold sorted_runs. rewrite !length_app. destruct f; cbn [run_of]; lia. Qed.

Lemma unwrapped_of_total pre :
  Z.of_nat (List.length (sorted_runs pre)) < 65536 -> unwrapped pre.
Proof. intros Hk f. pose proof (runs_total f pre). lia. Qed.

(** The runs only grow with the input. *)
Lemma run_of_app_le f a b :
  (List.length (run_of f a) <= List.length (run_of f (a ++ b)))%nat.
Proof.
  destruct f; cbn [run_of]; unfold positionals, later_options.
  - rewrite List.filter_app, length_app. lia.
  - rewrite after_options_app. destruct (forallb is_option a) eqn:Hall.
    + destruct (leading_options_all a Hall) as [_ ->]. cbn. lia.
    + rewrite List.filter_app, length_app. lia.
  - rewrite leading_options_app. destruct (forallb is_option a) eqn:Hall; [|lia].
    destruct (leading_options_all a Hall) as [-> _]. rewrite length_app. lia.
Qed.

Lemma unwrapped_prefix a b : unwrapped (a ++ b) -> unwrapped a.
Proof. intros Hk f. pose proof (run_of_app_le f a b). specialize (Hk f). lia. Qed.

(** An accepted token that is stored goes to the end of the run of its
    container, and the two other runs stay. *)
Lemma run_of_snoc pre t :
  misplaced pre t = false -> is_double_dash t = false ->
  let dest := if is_positional t then Args
              else if negb (forallb is_option pre) then CmdOptions else ProgramOptions in
  run_of dest (pre ++ [t]) = run_of dest pre ++ [t] /\
  (forall f, f <> dest -> run_of f (pre ++ [t]) = run_of f pre).
Proof.
  intros Hm Hd dest. subst dest.
  destruct (token_kinds t) as [(Ho & _ & Hp)|[(Ho & Hd' & Hp)|(Ho & _ & Hp)]];
    try congruence; rewrite Hp.
  - destruct (runs_snoc_option pre t Ho) as (Rpos & Rall & Rnot).
    destruct (forallb is_option pre); cbn [negb];
      [destruct (Rall eq_refl) as [R1 R2]|destruct (Rnot eq_refl) as [R1 R2]];
      (split; [cbn [run_of]; assumption|]);
      intros f Hf; destruct f; cbn [run_of]; congruence.
  - destruct (runs_snoc_other pre t Ho) as (Rl & Rc & Rp & _). rewrite Hp in Rp.
    split; [cbn [run_of]; assumption|].
    intros f Hf; destruct f; cbn [run_of]; congruence.
Qed.

(** An accepted token that is stored: while the cursor is inside the arena
    the append completes, and the invariant extends to the token as long
    as the container that receives it holds fewer than 65535 tokens; once
    the cursor has left the arena the append is an invalid write. *)
Lemma borrowed_step_stored s cells0 pre t b (cli : Cli Borrowed.CliArray) m err :
  borrowed_sifted s cells0 pre b cli m ->
  misplaced pre t = false -> is_double_dash t = false ->
  let k := List.length (sorted_runs pre) in
  ((s + k < List.length cells0)%nat ->
   Z.of_nat (List.length
               (run_of (if is_positional t then Args
                        else if b then CmdOptions else ProgramOptions) pre)) < 65535 ->
   exists b' cli' m',
     @loop_body Borrowed.container t b cli (m, err) = Done (Continue b' cli') (m', err) /\
     borrowed_sifted s cells0 (pre ++ [t]) b' cli' m')
  /\
  ((List.length cells0 <= s + k)%nat ->
   @loop_body Borrowed.container t b cli (m, err) = MemFault).
Proof.
  intros Hinv Hm Hd k.
  pose proof Hinv as (La & Lc & Lp & Hu & Hlen & Htake & Hpre & Hpost & Rp & Ra & Rc & Hb).
  fold k in Hu, Htake, Hpost.
  assert (Ht : exists dest,
             @target Borrowed.container t b cli = Some dest /\
             dest = (if is_positional t then Args
                     else if b then CmdOptions else ProgramOptions)).
  { unfold target, misplaced in *. borrowed_methods.
    destruct (token_kinds t) as [(Ho & _ & Hp)|[(Ho & Hd' & Hp)|(Ho & _ & Hp)]];
      try congruence; rewrite Hp; unfold is_positional, begins_with_dash in Hp.
    - apply negb_false_iff in Hp. rewrite Hp, Hd. eauto.
    - rewrite Hd in Hm. cbn in Hm. unfold is_positional, begins_with_dash in Hm.
      rewrite Hp in Hm. cbn in Hm.
      apply negb_true_iff in Hp. rewrite Hp, (region_nonempty _ _ _ Rc), Hm. eauto. }
  destruct Ht as (dest & Ht & Hdest).
  assert (Hlinked : Borrowed.linked (Borrowed.Cell (Z.of_nat s)) (get dest cli))
    by (destruct dest; assumption).
  destruct Hlinked as [Hstack Hnext].
  rewrite (loop_body_target _ _ _ _ Ht). borrowed_methods. split.
  - intros Hroom Hsmall.
    pose proof (borrowed_append_Done (get dest cli) t m err (s + k) Hnext Hu ltac:(lia))
      as Hrun.
    destruct (arena_write s k (Borrowed.cells m) cells0 (sorted_runs pre) t
                ltac:(lia) Hlen Htake Hpre Hpost) as (W1 & W2 & W3 & W4).
    eexists _, _, _. unfold bind, ret. rewrite Hrun. split; [reflexivity|].
    unfold borrowed_sifted. rewrite (sorted_runs_snoc _ _ Hm), Hd, length_app.
    cbn [List.length]. fold k. replace (k + 1)%nat with (S k) by lia.
    replace (S (s + k)) with (s + S k)%nat by lia.
    cbn [Borrowed.unused Borrowed.cells].
    assert (Hk : k = (List.length (leading_options pre) + List.length (positionals pre)
                      + List.length (later_options pre))%nat).
    { unfold k, sorted_runs. rewrite !length_app. lia. }
    destruct (token_kinds t) as [(Ho & _ & Hp)|[(Ho & Hd' & Hp)|(Ho & _ & Hp)]];
      try congruence; rewrite Hp in Hdest, Hsmall; subst dest.
    + (* an option *)
      destruct (runs_snoc_option pre t Ho) as (Rpos & Rall & Rnot).
      rewrite forallb_app. cbn [forallb]. rewrite Ho, andb_true_r, Rpos.
      destruct (forallb is_option pre) eqn:Hall; subst b;
        cbn [negb get set args cmd_options program_options run_of] in *.
      * destruct (Rall eq_refl) as [-> ->].
        pose proof (positionals_all _ Hall) as Hnil.
        destruct (leading_options_all _ Hall) as [_ Ha].
        assert (Hco : later_options pre = []) by (unfold later_options; now rewrite Ha).
        rewrite Hnil, Hco in *. cbn [List.length] in Hk.
        split; [assumption|]. split; [assumption|]. split; [now split|].
        split; [reflexivity|]. split; [assumption|]. split; [assumption|].
        split; [assumption|]. split; [assumption|].
        split; [|split; [|split; [|reflexivity]]].
        -- apply region_snoc; [exact Rp|lia|]. intros E. rewrite E in Hk. cbn in Hk. lia.
        -- exact (region_nil_shift _ _ _ Ra).
        -- exact (region_nil_shift _ _ _ Rc).
      * destruct (Rnot eq_refl) as [-> ->].
        split; [assumption|]. split; [now split|]. split; [assumption|].
        split; [reflexivity|]. split; [assumption|]. split; [assumption|].
        split; [assumption|]. split; [assumption|].
        split; [assumption|]. split; [assumption|]. split; [|reflexivity].
        apply region_snoc; [exact Rc|lia|]. intros E. rewrite E in Hk. cbn in Hk. lia.
    + (* a positional token *)
      unfold misplaced in Hm. rewrite Hd, Hp in Hm. cbn in Hm. apply nonempty_false in Hm.
      destruct (runs_snoc_other pre t Ho) as (-> & -> & -> & ->).
      rewrite Hp, Hm in *.
      cbn [List.length negb set args cmd_options program_options run_of] in *.
      split; [now split|]. split; [assumption|]. split; [assumption|].
      split; [reflexivity|]. split; [assumption|]. split; [assumption|].
      split; [assumption|]. split; [assumption|].
      split; [assumption|]. split; [|split; [|reflexivity]].
      * apply region_snoc; [exact Ra|lia|]. intros E. rewrite E in Hk. cbn in Hk. lia.
      * exact (region_nil_shift _ _ _ Rc).
  - intros Hfull. unfold bind.
    now rewrite (borrowed_append_fault (get dest cli) t m err (s + k) Hnext Hu ltac:(lia)).
Qed.

(** The loop under the invariant, as long as no [length] field wraps: with
    a cell for every token that it stores, it consumes the tokens that
    [sift] keeps and ends at the first misplaced token, if any, with the
    complaint of that token; with fewer cells it ends in an invalid
    write. *)
Lemma borrowed_sifted_scan s cells0 rest :
  forall pre b (cli : Cli Borrowed.CliArray) m err,
    borrowed_sifted s cells0 pre b cli m ->
    unwrapped (fst (sift pre rest)) ->
    ((List.length (sorted_runs (fst (sift pre rest))) = 0 \/
      s + List.length (sorted_runs (fst (sift pre rest))) <= List.length cells0)%nat ->
     exists b' cli' m',
       borrowed_sifted s cells0 (fst (sift pre rest)) b' cli' m' /\
       @scan Borrowed.container rest b cli (m, err) =
         match snd (sift pre rest) with
         | [] => Done (Continue b' cli') (m', err)
         | t :: _ =>
             Done (Return CliErrorUser cli')
               (m', err ++ [complaint (fst (sift pre rest)) t])
         end)
    /\
    (~ (List.length (sorted_runs (fst (sift pre rest))) = 0 \/
        s + List.length (sorted_runs (fst (sift pre rest))) <= List.length cells0)%nat ->
     @scan Borrowed.container rest b cli (m, err) = MemFault).
Proof.
  induction rest as [|t rest IH]; intros pre b cli m err Hinv.
  - cbn [sift fst snd scan]. intros _. split.
    + intros _. exists b, cli, m. split; [exact Hinv|reflexivity].
    + intros Hn. destruct Hn. exact (borrowed_sifted_fits _ _ _ _ _ _ Hinv).
  - cbn [sift scan]. destruct (misplaced pre t) eqn:Hm.
    + cbn [fst snd]. intros _. split.
      * intros _. exists b, cli, m. split; [exact Hinv|].
        now rewrite (bind_eq_Done _ _ _ _ _ (borrowed_step_refused _ _ _ _ _ _ _ err Hinv Hm)).
      * intros Hn. destruct Hn. exact (borrowed_sifted_fits _ _ _ _ _ _ Hinv).
    + destruct (is_double_dash t) eqn:Hd.
      * destruct (borrowed_step_separator _ _ _ _ _ _ _ err Hinv Hm Hd) as [Hrun Hinv1].
        intros Hk. destruct (IH (pre ++ [t]) true cli m err Hinv1 Hk) as [IH1 IH2].
        rewrite (bind_eq_Done _ _ _ _ _ Hrun). split; [exact IH1|exact IH2].
      * destruct (borrowed_step_stored _ _ _ _ _ _ _ err Hinv Hm Hd) as [Hok Hfault].
        pose proof (sorted_runs_sift rest (pre ++ [t])) as Hmono.
        rewrite (sorted_runs_snoc _ _ Hm), Hd, length_app in Hmono.
        cbn [List.length] in Hmono. intros Hk.
        destruct (le_lt_dec (List.length cells0) (s + List.length (sorted_runs pre)))
          as [Hfull|Hroom].
        -- split; intros H; [exfalso; lia|]. unfold bind. now rewrite (Hfault Hfull).
        -- assert (Hsmall : Z.of_nat (List.length
                      (run_of (if is_positional t then Args
                               else if b then CmdOptions else ProgramOptions) pre)) < 65535).
           { destruct (run_of_snoc pre t Hm Hd) as [Rs _].
             destruct Hinv as (_ & _ & _ & _ & _ & _ & _ & _ & _ & _ & _ & Hb).
             rewrite <- Hb in Rs.
             destruct (sift_split rest (pre ++ [t])) as (mid & Hf & _).
             set (dest := if is_positional t then Args
                          else if b then CmdOptions else ProgramOptions) in *.
             pose proof (run_of_app_le dest (pre ++ [t]) mid) as Hle.
             specialize (Hk dest). rewrite Hf in Hk. rewrite Rs, length_app in Hle.
             cbn [List.length] in Hle. lia. }
           destruct (Hok Hroom Hsmall) as (b1 & cli1 & m1 & Hrun & Hinv1).
           destruct (IH (pre ++ [t]) b1 cli1 m1 err Hinv1 Hk) as [IH1 IH2].
           rewrite (bind_eq_Done _ _ _ _ _ Hrun). split; [exact IH1|exact IH2].
Qed.

(** The state in which [cli_parse_noheap] enters the loop. *)
Lemma borrowed_sifted_init (s : nat) exe (cli0 : Cli Borrowed.CliArray) cells0 err :
  let fresh := Borrowed.mkArray 0 (Borrowed.Cell (Z.of_nat s)) Borrowed.NULL Borrowed.AddrUnused in
  exists cli,
    @cli_parse_init Borrowed.container exe (mkCli (execfile cli0) fresh fresh fresh)
      (Borrowed.mkArena cells0 (Borrowed.Cell (Z.of_nat s)), err) =
      Done (Continue false cli) (Borrowed.mkArena cells0 (Borrowed.Cell (Z.of_nat s)), err) /\
    execfile cli = Some exe /\
    borrowed_sifted s cells0 [] false cli
      (Borrowed.mkArena cells0 (Borrowed.Cell (Z.of_nat s))).
Proof.
  intros fresh. eexists. split; [reflexivity|]. split; [reflexivity|].
  unfold borrowed_sifted. cbn. rewrite Nat.add_0_r.
  repeat split; trivial.
Qed.

(** The whole call, as long as no [length] field wraps. *)
Lemma borrowed_parse_sifted exe rest (cli0 : Cli Borrowed.CliArray) (s : nat) cells0 u0 err0 :
  unwrapped (fst (sift [] rest)) ->
  ((List.length (sorted_runs (fst (sift [] rest))) = 0 \/
    s + List.length (sorted_runs (fst (sift [] rest))) <= List.length cells0)%nat ->
   exists cli m,
     Borrowed.cli_parse_noheap (exe :: rest) cli0 (Borrowed.Cell (Z.of_nat s))
       (Borrowed.mkArena cells0 u0, err0) =
       Done (match snd (sift [] rest) with [] => CliErrorOk | _ :: _ => CliErrorUser end, cli)
         (m, match snd (sift [] rest) with
             | [] => err0
             | t :: _ => err0 ++ [complaint (fst (sift [] rest)) t]
             end) /\
     execfile cli = Some exe /\
     Borrowed.unused m =
       Borrowed.Cell (Z.of_nat (s + List.length (sorted_runs (fst (sift [] rest))))) /\
     Borrowed.cells m =
       take s cells0 ++ (Some <$> sorted_runs (fst (sift [] rest))) ++
       drop (s + List.length (sorted_runs (fst (sift [] rest)))) cells0 /\
     Borrowed.elements (program_options cli) m =
       Some <$> leading_options (fst (sift [] rest)) /\
     Borrowed.elements (args cli) m = Some <$> positionals (fst (sift [] rest)) /\
     Borrowed.elements (cmd_options cli) m = Some <$> later_options (fst (sift [] rest)))
  /\
  (~ (List.length (sorted_runs (fst (sift [] rest))) = 0 \/
      s + List.length (sorted_runs (fst (sift [] rest))) <= List.length cells0)%nat ->
   Borrowed.cli_parse_noheap (exe :: rest) cli0 (Borrowed.Cell (Z.of_nat s))
     (Borrowed.mkArena cells0 u0, err0) = MemFault).
Proof.
  intros Hk. destruct rest as [|t rest].
  - cbn. split; [intros _|intros Hn; destruct Hn; now left].
    eexists _, _. split; [reflexivity|]. cbn. rewrite Nat.add_0_r, take_drop.
    repeat split.
  - destruct (borrowed_sifted_init s exe cli0 cells0 err0) as (cli1 & Hi & He & Hinv).
    cbn zeta in Hi.
    destruct (borrowed_sifted_scan s cells0 (t :: rest) [] false cli1 _ err0 Hinv Hk)
      as [Hfit Hfault].
    unfold Borrowed.cli_parse_noheap.
    cbn [fst snd Borrowed.cells execfile args cmd_options program_options].
    rewrite cli_parse_all. unfold cli_parse_upto. rewrite (bind_eq_Done _ _ _ _ _ Hi).
    split.
    + intros H. destruct (Hfit H) as (b' & cli' & m' & Hinv' & Hs).
      pose proof Hinv' as (_ & _ & _ & Hu & Hlen & Htake & Hpre & Hpost & Rp & Ra & Rc & _).
      exists cli', m'.
      assert (Hexe : execfile cli' = Some exe).
      { destruct (snd (sift [] (t :: rest)));
          apply (@scan_execfile Borrowed.container) in Hs; exact (eq_trans Hs He). }
      split; [rewrite Hs; now destruct (snd (sift [] (t :: rest)))|].
      split; [exact Hexe|]. split; [exact Hu|].
      set (pre := fst (sift [] (t :: rest))) in *.
      unfold sorted_runs in Htake. rewrite !length_app in Htake.
      assert (Hsplit := Htake). rewrite !fmap_app in Hsplit.
      split.
      { rewrite <- (take_drop s (Borrowed.cells m')) at 1. rewrite Hpre. f_equal.
        rewrite <- (take_drop (List.length (sorted_runs pre)) (drop s (Borrowed.cells m'))).
        rewrite drop_drop, Hpost. f_equal.
        unfold sorted_runs at 1. rewrite !length_app. exact Htake. }
      rewrite <- (length_fmap Some (leading_options pre)) in Hsplit at 1.
      rewrite <- (length_fmap Some (positionals pre)) in Hsplit at 1.
      rewrite <- (length_fmap Some (later_options pre)) in Hsplit at 1.
      rewrite <- length_app in Hsplit.
      apply segment_split in Hsplit as [S1 S2]. rewrite length_app in S2.
      apply segment_split in S2 as [S2 S3].
      rewrite ?length_fmap in S1. rewrite ?length_fmap in S2. rewrite ?length_fmap in S3.
      split; [exact (region_elements _ _ _ _ Rp S1)|].
      split; [exact (region_elements _ _ _ _ Ra S2)|].
      exact (region_elements _ _ _ _ Rc S3).
    + intros H. now rewrite (Hfault H).
Qed.

Lemma sift_bound rest :
  (List.length (sorted_runs (fst (sift [] rest))) <= List.length rest)%nat.
Proof.
  destruct (sift_split rest []) as (mid & Hf & Hr & _).
  etransitivity; [apply runs_bound|]. rewrite Hf. cbn [app].
  apply (f_equal (@List.length _)) in Hr. rewrite length_app in Hr. lia.
Qed.

(** X8. [cli_parse_noheap] against the grammar.  Let [pre] be the tokens
    after the execution path up to the first misplaced one, and [k] the
    number of those that are not separators, at most 65535.  On an array
    that has [k] cells from cell [s] of the arena on, the call returns
    [CliErrorOk] when no token is misplaced and [CliErrorUser] with the
    complaint of the first misplaced token otherwise; the cursor ends [k]
    cells further; these [k] cells hold the leading options, then the
    positional tokens, then the later options of [pre], the other cells
    are unchanged, and the three containers span these three runs.  No
    token is misplaced exactly when none is out of order after the tokens
    before it. *)
Theorem noheap_parse_sorts_tokens exe rest (cli0 : Cli Borrowed.CliArray) (s : nat)
    cells0 u0 err0 :
  Z.of_nat (List.length (sorted_runs (fst (sift [] rest)))) < 65536 ->
  (s + List.length (sorted_runs (fst (sift [] rest))) <= List.length cells0)%nat ->
  exists cli m,
    Borrowed.cli_parse_noheap (exe :: rest) cli0 (Borrowed.Cell (Z.of_nat s))
      (Borrowed.mkArena cells0 u0, err0) =
      Done (match snd (sift [] rest) with [] => CliErrorOk | _ :: _ => CliErrorUser end, cli)
        (m, match snd (sift [] rest) with
            | [] => err0
            | t :: _ => err0 ++ [complaint (fst (sift [] rest)) t]
            end) /\
    execfile cli = Some exe /\
    Borrowed.unused m =
      Borrowed.Cell (Z.of_nat (s + List.length (sorted_runs (fst (sift [] rest))))) /\
    Borrowed.cells m =
      take s cells0 ++ (Some <$> sorted_runs (fst (sift [] rest))) ++
      drop (s + List.length (sorted_runs (fst (sift [] rest)))) cells0 /\
    Borrowed.elements (program_options cli) m =
      Some <$> leading_options (fst (sift [] rest)) /\
    Borrowed.elements (args cli) m = Some <$> positionals (fst (sift [] rest)) /\
    Borrowed.elements (cmd_options cli) m = Some <$> later_options (fst (sift [] rest)) /\
    rest = fst (sift [] rest) ++ snd (sift [] rest) /\
    (snd (sift [] rest) = [] <->
     forall a t b, rest = a ++ t :: b -> ~ out_of_order a t).
Proof.
  intros Hk Hfit.
  destruct (borrowed_parse_sifted exe rest cli0 s cells0 u0 err0 (unwrapped_of_total _ Hk))
    as [Hok _].
  destruct (Hok ltac:(now right)) as (cli & m & H).
  exists cli, m. repeat (split; [apply H|]). split; [|apply sift_keeps_all_order].
  destruct (sift_split rest []) as (mid & Hf & Hr & _). now rewrite Hf.
Qed.

Lemma noheap_parse_sorts_tokens_witness :
  Z.of_nat (List.length (sorted_runs (fst (sift [] ["-v"; "--"; "in"; "-x"; "--"])))) < 65536 /\
  (1 + List.length (sorted_runs (fst (sift [] ["-v"; "--"; "in"; "-x"; "--"])))
   <= List.length [Some "junk"; None; None; None; None])%nat /\
  exists cli m,
    Borrowed.cli_parse_noheap ("prog" :: ["-v"; "--"; "in"; "-x"; "--"]) Borrowed.blank
      (Borrowed.Cell (Z.of_nat 1))
      (Borrowed.mkArena [Some "junk"; None; None; None; None] Borrowed.NULL, []) =
      Done (match snd (sift [] ["-v"; "--"; "in"; "-x"; "--"]) with
            | [] => CliErrorOk
            | _ :: _ => CliErrorUser
            end, cli)
        (m, match snd (sift [] ["-v"; "--"; "in"; "-x"; "--"]) with
            | [] => []
            | t :: _ => [] ++ [complaint (fst (sift [] ["-v"; "--"; "in"; "-x"; "--"])) t]
            end) /\
    execfile cli = Some "prog" /\
    Borrowed.unused m =
      Borrowed.Cell
        (Z.of_nat (1 + List.length
                         (sorted_runs (fst (sift [] ["-v"; "--"; "in"; "-x"; "--"]))))) /\
    Borrowed.cells m =
      take 1 [Some "junk"; None; None; None; None] ++
      (Some <$> sorted_runs (fst (sift [] ["-v"; "--"; "in"; "-x"; "--"]))) ++
      drop (1 + List.length (sorted_runs (fst (sift [] ["-v"; "--"; "in"; "-x"; "--"]))))
        [Some "junk"; None; None; None; None] /\
    Borrowed.elements (program_options cli) m =
      Some <$> leading_options (fst (sift [] ["-v"; "--"; "in"; "-x"; "--"])) /\
    Borrowed.elements (args cli) m =
      Some <$> positionals (fst (sift [] ["-v"; "--"; "in"; "-x"; "--"])) /\
    Borrowed.elements (cmd_options cli) m =
      Some <$> later_options (fst (sift [] ["-v"; "--"; "in"; "-x"; "--"])) /\
    ["-v"; "--"; "in"; "-x"; "--"] =
      fst (sift [] ["-v"; "--"; "in"; "-x"; "--"]) ++
      snd (sift [] ["-v"; "--"; "in"; "-x"; "--"]) /\
    (snd (sift [] ["-v"; "--"; "in"; "-x"; "--"]) = [] <->
     forall a t b, ["-v"; "--"; "in"; "-x"; "--"] = a ++ t :: b -> ~ out_of_order a t).
Proof.
  assert (H1 : Z.of_nat (List.length
                 (sorted_runs (fst (sift [] ["-v"; "--"; "in"; "-x"; "--"])))) < 65536)
    by (vm_compute; reflexivity).
  assert (H2 : (1 + List.length (sorted_runs (fst (sift [] ["-v"; "--"; "in"; "-x"; "--"])))
                <= List.length [Some "junk"; @None token; None; None; None])%nat)
    by (vm_compute; lia).
  split; [exact H1|]. split; [exact H2|].
  exact (noheap_parse_sorts_tokens "prog" ["-v"; "--"; "in"; "-x"; "--"] Borrowed.blank 1
           [Some "junk"; None; None; None; None] Borrowed.NULL [] H1 H2).
Defined.

Lemma cli_parse_execfile `{DynArray} exe rest cli w e cli' w' :
  cli_parse (exe :: rest) cli w = Done (e, cli') w' -> execfile cli' = Some exe.
Proof.
  destruct rest as [|t rest].
  - now intros [= <- <- <-].
  - rewrite cli_parse_all. unfold cli_parse_upto.
    destruct (bind _ _ w) as [c w1| |] eqn:Hu; try (now destruct c); try discriminate.
    apply bind_Done in Hu as (c0 & w2 & Hi & Hs).
    apply cli_parse_init_execfile in Hi.
    assert (Hc : execfile (match c with Continue _ x | Return _ x => x end) = Some exe).
    { destruct c0 as [b0 cli0|e0 cli0].
      - apply scan_execfile in Hs. congruence.
      - now injection Hs as <- <-. }
    destruct c; intros [= <- <- <-]; exact Hc.
Qed.

(** X10. The two builds agree.  When [cli_parse] of the heap build returns
    a tier other than [CliErrorFatal] on an input of at most 65536 tokens,
    [cli_parse_noheap] on the same input, over an array with a cell for
    every token after the execution path, returns the same tier and prints
    the same lines, and the struct has the same [execfile] and the same
    tokens in each of its three containers. *)
Theorem builds_agree (cap : nat) exe rest (cliH : Cli Owned.CliArray) h err e
    (cliO : Cli Owned.CliArray) h' errO (cliN : Cli Borrowed.CliArray) (s : nat) cells0 u0 :
  @cli_parse (Owned.container cap) (exe :: rest) cliH (h, err) = Done (e, cliO) (h', errO) ->
  e <> CliErrorFatal ->
  Z.of_nat (List.length rest) < 65536 ->
  (s + List.length rest <= List.length cells0)%nat ->
  exists cliB m,
    Borrowed.cli_parse_noheap (exe :: rest) cliN (Borrowed.Cell (Z.of_nat s))
      (Borrowed.mkArena cells0 u0, err) = Done (e, cliB) (m, errO) /\
    execfile cliB = execfile cliO /\
    Borrowed.elements (args cliB) m = Owned.elements (args cliO) /\
    Borrowed.elements (cmd_options cliB) m = Owned.elements (cmd_options cliO) /\
    Borrowed.elements (program_options cliB) m = Owned.elements (program_options cliO).
Proof.
  intros Hrun Hne Hlen Hroom.
  pose proof (sift_bound rest) as Hb.
  pose proof (owned_parse_sifted cap exe rest cliH _ _ _ _ Hrun Hne) as Ho.
  cbn zeta in Ho. destruct Ho as (Hpo & Har & Hco & Ht). cbn [snd] in Ht.
  pose proof (@cli_parse_execfile (Owned.container cap) _ _ _ _ _ _ _ Hrun) as Hexe.
  assert (Hk : Z.of_nat (List.length (sorted_runs (fst (sift [] rest)))) < 65536) by lia.
  destruct (borrowed_parse_sifted exe rest cliN s cells0 u0 err (unwrapped_of_total _ Hk))
    as [Hok _].
  destruct (Hok ltac:(lia)) as (cliB & m & HrunB & HexeB & _ & _ & Bpo & Bar & Bco).
  exists cliB, m. split.
  { rewrite HrunB. destruct (snd (sift [] rest)); destruct Ht as [-> ->]; reflexivity. }
  split; [exact (eq_trans HexeB (eq_sym Hexe))|].
  split; [exact (eq_trans Bar (eq_sym Har))|].
  split; [exact (eq_trans Bco (eq_sym Hco))|exact (eq_trans Bpo (eq_sym Hpo))].
Qed.

Lemma builds_agree_witness :
  @cli_parse (Owned.container 5) ("prog" :: ["run"; "-x"; "late"]) Owned.blank
    (Owned.mkHeap [] [], []) =
    Done (CliErrorUser, Owned.struct "prog" ["run"] ["-x"] [])
      (Owned.settled, [Diag "CLI error" positional_msg ["late"]]) /\
  CliErrorUser <> CliErrorFatal /\
  Z.of_nat (List.length ["run"; "-x"; "late"]) < 65536 /\
  (0 + List.length ["run"; "-x"; "late"] <= List.length [@None token; None; None])%nat /\
  exists cliB m,
    Borrowed.cli_parse_noheap ("prog" :: ["run"; "-x"; "late"]) Borrowed.blank
      (Borrowed.Cell (Z.of_nat 0)) (Borrowed.mkArena [None; None; None] Borrowed.NULL, []) =
      Done (CliErrorUser, cliB) (m, [Diag "CLI error" positional_msg ["late"]]) /\
    execfile cliB = execfile (Owned.struct "prog" ["run"] ["-x"] []) /\
    Borrowed.elements (args cliB) m =
      Owned.elements (args (Owned.struct "prog" ["run"] ["-x"] [])) /\
    Borrowed.elements (cmd_options cliB) m =
      Owned.elements (cmd_options (Owned.struct "prog" ["run"] ["-x"] [])) /\
    Borrowed.elements (program_options cliB) m =
      Owned.elements (program_options (Owned.struct "prog" ["run"] ["-x"] [])).
Proof.
  assert (H1 : @cli_parse (Owned.container 5) ("prog" :: ["run"; "-x"; "late"]) Owned.blank
                 (Owned.mkHeap [] [], []) =
               Done (CliErrorUser, Owned.struct "prog" ["run"] ["-x"] [])
                 (Owned.settled, [Diag "CLI error" positional_msg ["late"]]))
    by (vm_compute; reflexivity).
  assert (H2 : CliErrorUser <> CliErrorFatal) by discriminate.
  assert (H3 : Z.of_nat (List.length ["run"; "-x"; "late"]) < 65536)
    by (vm_compute; reflexivity).
  assert (H4 : (0 + List.length ["run"; "-x"; "late"]
                <= List.length [@None token; None; None])%nat) by (cbn; lia).
  split; [exact H1|]. split; [exact H2|]. split; [exact H3|]. split; [exact H4|].
  exact (builds_agree 5 "prog" ["run"; "-x"; "late"] Owned.blank (Owned.mkHeap [] []) []
           CliErrorUser (Owned.struct "prog" ["run"] ["-x"] []) Owned.settled
           [Diag "CLI error" positional_msg ["late"]] Borrowed.blank 0
           [None; None; None] Borrowed.NULL H1 H2 H3 H4).
Defined.

(** X11. [cli_parse] called directly in the arena build.  On two tokens or
    more, when one of the three containers of the caller's struct has a
    null [stack], as after a zero initialisation, the call ends in the
    failed [CLI_ASSERT] of [cli_da_init], with nothing written or printed.
    On the execution path alone it asserts nothing: it zeroes the struct
    and returns [CliErrorOk]. *)
Theorem direct_parse_in_arena_build exe (cli : Cli Borrowed.CliArray) w :
  (forall t rest,
     (exists f, Borrowed.stack (get f cli) = Borrowed.NULL) ->
     exists msg, @cli_parse Borrowed.container (exe :: t :: rest) cli w = AssertFailed msg w)
  /\
  @cli_parse Borrowed.container [exe] cli w =
    Done (CliErrorOk,
          mkCli (Some exe) (Borrowed.mkArray 0 Borrowed.NULL Borrowed.NULL Borrowed.NoCursor)
            (Borrowed.mkArray 0 Borrowed.NULL Borrowed.NULL Borrowed.NoCursor)
            (Borrowed.mkArray 0 Borrowed.NULL Borrowed.NULL Borrowed.NoCursor)) w.
Proof.
  split; [|reflexivity]. intros t rest [f Hf].
  unfold cli_parse, cli_pop_argv. unfold bind at 1. cbn [ret].
  unfold bind at 1. unfold cli_parse_init. borrowed_methods.
  cbn [set get args cmd_options program_options execfile] in *.
  unfold Borrowed.cli_da_init, bind, ret, CLI_ASSERT.
  cbn [Borrowed.stack Borrowed.data Borrowed.is_null negb].
  destruct (Borrowed.stack (args cli)) eqn:Ha; cbn [Borrowed.is_null negb];
    try (eexists; reflexivity);
    (destruct (Borrowed.stack (cmd_options cli)) eqn:Hc; cbn [Borrowed.is_null negb];
     try (eexists; reflexivity));
    (destruct (Borrowed.stack (program_options cli)) eqn:Hp; cbn [Borrowed.is_null negb];
     try (eexists; reflexivity));
    destruct f; cbn in Hf; congruence.
Qed.

Lemma direct_parse_in_arena_build_witness :
  (exists f, Borrowed.stack (get f Borrowed.blank) = Borrowed.NULL) /\
  exists msg,
    @cli_parse Borrowed.container ("prog" :: "run" :: ["-x"]) Borrowed.blank
      (Borrowed.mkArena [None; None] Borrowed.NULL, []) =
    AssertFailed msg (Borrowed.mkArena [None; None] Borrowed.NULL, []).
Proof.
  assert (H : exists f, Borrowed.stack (get f Borrowed.blank) = Borrowed.NULL)
    by (exists Args; reflexivity).
  split; [exact H|].
  exact (proj1 (direct_parse_in_arena_build "prog" Borrowed.blank
                  (Borrowed.mkArena [None; None] Borrowed.NULL, [])) "run" ["-x"] H).
Defined.

(** X12. [cli_parse_noheap] reads neither the caller's struct nor the
    previous value of the cursor: its outcome depends on the tokens, the
    array and [stderr] alone. *)
Theorem arena_parse_ignores_caller_state argv (cli1 cli2 : Cli Borrowed.CliArray)
    stack cells u1 u2 err :
  Borrowed.cli_parse_noheap argv cli1 stack (Borrowed.mkArena cells u1, err) =
  Borrowed.cli_parse_noheap argv cli2 stack (Borrowed.mkArena cells u2, err).
Proof.
  unfold Borrowed.cli_parse_noheap.
  cbn [fst snd Borrowed.cells execfile args cmd_options program_options].
  destruct argv as [|exe [|t rest]]; reflexivity.
Qed.

(** X13. [cli_toggle_styles], with styles compiled in.  Whatever the five
    globals hold, after one call they are all empty or all the escape
    sequences of their names; from then on each call switches between
    these two states, so that two calls restore the state.  The first call
    after start-up turns the styles on.  With [CLI_NO_STYLES] the function
    changes nothing. *)
Theorem toggle_styles_alternates (g : styles) :
  let on := mkStyles (String ESC "[0m") (String ESC "[1m") (String ESC "[2m")
              (String ESC "[31m") (String ESC "[94m") in
  let g1 := cli_toggle_styles false g in
  (g1 = initial_styles \/ g1 = on) /\
  cli_toggle_styles false g1 <> g1 /\
  cli_toggle_styles false (cli_toggle_styles false g1) = g1 /\
  cli_toggle_styles false initial_styles = on /\
  cli_toggle_styles true g = g.
Proof.
  cbn zeta. unfold cli_toggle_styles.
  destruct (negb (Ascii.eqb (char_at (CLI_RESET g) 0) NUL)); cbn;
    repeat split; auto; discriminate.
Qed.

(** ** The grammar rules on the arena build *)

Lemma noheap_at exe pre t post cli0 stack w :
  Borrowed.cli_parse_noheap (exe :: pre ++ t :: post) cli0 stack w =
    match cli_parse_noheap_upto exe pre cli0 stack w with
    | Done (Continue b cli) w' => @cli_parse_loop Borrowed.container (t :: post) b cli w'
    | Done (Return e cli) w' => Done (e, cli) w'
    | AssertFailed e w' => AssertFailed e w'
    | MemFault => MemFault
    end.
Proof.
  unfold Borrowed.cli_parse_noheap, cli_parse_noheap_upto, prepared.
  cbn [fst snd Borrowed.cells execfile args cmd_options program_options].
  apply (@cli_parse_at Borrowed.container).
Qed.

(** One more token after a prefix that the loop has consumed. *)
Lemma noheap_upto_snoc exe pre t cli0 stack w b cli w' c w2 :
  cli_parse_noheap_upto exe pre cli0 stack w = Done (Continue b cli) w' ->
  @loop_body Borrowed.container t b cli w' = Done c w2 ->
  cli_parse_noheap_upto exe (pre ++ [t]) cli0 stack w = Done c w2.
Proof.
  unfold cli_parse_noheap_upto, cli_parse_upto. intros Hu Hb.
  apply bind_Done in Hu as (c0 & w0 & Hi & Hs).
  rewrite (bind_eq_Done _ _ _ _ _ Hi).
  destruct c0 as [b0 cli1|e0 cli1]; [|discriminate].
  rewrite scan_app, Hs. cbn [scan]. rewrite (bind_eq_Done _ _ _ _ _ Hb).
  now destruct c.
Qed.

Lemma stored_app a b : Borrowed.stored (a ++ b) = Borrowed.stored a ++ Borrowed.stored b.
Proof. apply List.filter_app. Qed.

Lemma kinds_stored l :
  (List.length (List.filter is_positional l) + List.length (List.filter is_option l)
   <= List.length (Borrowed.stored l))%nat.
Proof.
  unfold Borrowed.stored. induction l as [|t l IH]; [reflexivity|]. cbn [List.filter].
  destruct (token_kinds t) as [(Ho & Hd & Hp)|[(Ho & Hd & Hp)|(Ho & Hd & Hp)]];
    rewrite Ho, Hp, Hd; cbn [negb List.length]; lia.
Qed.

Lemma runs_stored pre :
  (List.length (sorted_runs pre) <= List.length (Borrowed.stored pre))%nat.
Proof.
  unfold sorted_runs, positionals, later_options. rewrite !length_app.
  induction pre as [|t pre IH]; [reflexivity|].
  cbn [leading_options after_options].
  destruct (token_kinds t) as [(Ho & Hd & Hp)|[(Ho & Hd & Hp)|(Ho & Hd & Hp)]]; rewrite Ho.
  - unfold Borrowed.stored in *. cbn [List.filter]. rewrite Hp, Hd.
    cbn [negb List.length]. lia.
  - pose proof (kinds_stored (t :: pre)). cbn [List.length] in *. lia.
  - pose proof (kinds_stored (t :: pre)). cbn [List.length] in *. lia.
Qed.

(** The tokens that [sift] keeps are stored in input order. *)
Lemma sorted_runs_kept rest : forall pre,
  snd (sift pre rest) = [] ->
  sorted_runs (pre ++ rest) = sorted_runs pre ++ Borrowed.stored rest.
Proof.
  induction rest as [|t rest IH]; intros pre.
  - intros _. cbn. now rewrite !app_nil_r.
  - cbn [sift]. destruct (misplaced pre t) eqn:Hm; [discriminate|]. intros Hs.
    replace (pre ++ t :: rest) with ((pre ++ [t]) ++ rest) by now rewrite <- app_assoc.
    rewrite (IH _ Hs), (sorted_runs_snoc _ _ Hm), <- app_assoc.
    unfold Borrowed.stored. cbn [List.filter]. now destruct (is_double_dash t).
Qed.

Lemma get_set_same {A} g (a : A) cli : get g (set g a cli) = a.
Proof. now destruct g. Qed.

Lemma get_set_other {A} f g (a : A) cli : f <> g -> get f (set g a cli) = get f cli.
Proof. destruct f, g; intros Hne; try reflexivity; congruence. Qed.

(** What the three containers hold under the invariant. *)
Lemma borrowed_sifted_elements s cells0 pre b (cli : Cli Borrowed.CliArray) m :
  borrowed_sifted s cells0 pre b cli m ->
  forall f, Borrowed.elements (get f cli) m = Some <$> run_of f pre.
Proof.
  intros (_ & _ & _ & _ & _ & Htake & _ & _ & Rp & Ra & Rc & _).
  unfold sorted_runs in Htake. rewrite !length_app, !fmap_app in Htake.
  rewrite <- (length_fmap Some (leading_options pre)) in Htake at 1.
  rewrite <- (length_fmap Some (positionals pre)) in Htake at 1.
  rewrite <- (length_fmap Some (later_options pre)) in Htake at 1.
  rewrite <- length_app in Htake.
  apply segment_split in Htake as [S1 S2]. rewrite length_app in S2.
  apply segment_split in S2 as [S2 S3].
  rewrite ?length_fmap in S1. rewrite ?length_fmap in S2. rewrite ?length_fmap in S3.
  intros [| |]; cbn [get run_of].
  - exact (region_elements _ _ _ _ Ra S2).
  - exact (region_elements _ _ _ _ Rc S3).
  - exact (region_elements _ _ _ _ Rp S1).
Qed.

(** The container that receives an accepted token. *)
Lemma borrowed_sifted_target s cells0 pre t b (cli : Cli Borrowed.CliArray) m :
  borrowed_sifted s cells0 pre b cli m ->
  misplaced pre t = false -> is_double_dash t = false ->
  @target Borrowed.container t b cli =
    Some (if is_positional t then Args else if b then CmdOptions else ProgramOptions).
Proof.
  intros (_ & _ & _ & _ & _ & _ & _ & _ & _ & _ & Rc & _) Hm Hd.
  unfold target, misplaced in *. borrowed_methods.
  destruct (token_kinds t) as [(Ho & _ & Hp)|[(Ho & Hd' & Hp)|(Ho & _ & Hp)]];
    try congruence; rewrite Hp; unfold is_positional, begins_with_dash in Hp.
  - apply negb_false_iff in Hp. now rewrite Hp, Hd.
  - rewrite Hd in Hm. cbn in Hm. unfold is_positional, begins_with_dash in Hm.
    rewrite Hp in Hm. cbn in Hm.
    apply negb_true_iff in Hp. now rewrite Hp, (region_nonempty _ _ _ Rc), Hm.
Qed.

(** The state that [cli_parse_noheap] has reached when it is about to read
    the token after [pre], none of the three runs of [pre] as long as
    65536: [pre] has no misplaced token, the invariant holds of it, nothing
    was printed. *)
Lemma borrowed_sifted_reached exe pre cli0 (s : nat) cells0 u0 err0 b cli m err :
  cli_parse_noheap_upto exe pre cli0 (Borrowed.Cell (Z.of_nat s))
    (Borrowed.mkArena cells0 u0, err0) = Done (Continue b cli) (m, err) ->
  unwrapped pre ->
  borrowed_sifted s cells0 pre b cli m /\ err = err0 /\ snd (sift [] pre) = [].
Proof.
  unfold cli_parse_noheap_upto, cli_parse_upto, prepared.
  cbn [fst snd Borrowed.cells]. intros Hu Hk.
  destruct (borrowed_sifted_init s exe cli0 cells0 err0) as (cli1 & Hi & _ & Hinv).
  cbn zeta in Hi. rewrite (bind_eq_Done _ _ _ _ _ Hi) in Hu.
  assert (Hk' : unwrapped (fst (sift [] pre))).
  { destruct (sift_split pre []) as (mid & Hf & Hp & _). cbn [app] in Hf.
    rewrite Hf. rewrite Hp in Hk. exact (unwrapped_prefix _ _ Hk). }
  destruct (borrowed_sifted_scan s cells0 pre [] false cli1 _ err0 Hinv Hk')
    as [Hfit Hfault].
  destruct (Nat.eq_dec (List.length (sorted_runs (fst (sift [] pre)))) O) as [Hz|Hnz];
    [|destruct (le_lt_dec (s + List.length (sorted_runs (fst (sift [] pre))))
                 (List.length cells0)) as [Hle|Hgt]].
  - destruct (Hfit (or_introl Hz)) as (b' & cli' & m' & Hinv' & Hs).
    rewrite Hs in Hu. destruct (snd (sift [] pre)) eqn:E; [|discriminate].
    injection Hu as <- <- <- <-. rewrite (sift_all _ _ E) in Hinv'. auto.
  - destruct (Hfit (or_intror Hle)) as (b' & cli' & m' & Hinv' & Hs).
    rewrite Hs in Hu. destruct (snd (sift [] pre)) eqn:E; [|discriminate].
    injection Hu as <- <- <- <-. rewrite (sift_all _ _ E) in Hinv'. auto.
  - rewrite Hfault in Hu by lia. discriminate.
Qed.

(** Conversely, a prefix without a misplaced token that fits in the array
    is consumed. *)
Lemma borrowed_sifted_reach exe pre cli0 (s : nat) cells0 u0 err0 :
  snd (sift [] pre) = [] ->
  Z.of_nat (List.length (sorted_runs pre)) < 65536 ->
  (s + List.length (sorted_runs pre) <= List.length cells0)%nat ->
  exists b cli m,
    cli_parse_noheap_upto exe pre cli0 (Borrowed.Cell (Z.of_nat s))
      (Borrowed.mkArena cells0 u0, err0) = Done (Continue b cli) (m, err0) /\
    borrowed_sifted s cells0 pre b cli m.
Proof.
  intros Hacc Hk Hfit. pose proof (sift_all _ _ Hacc) as Hf. cbn [app] in Hf.
  unfold cli_parse_noheap_upto, cli_parse_upto, prepared. cbn [fst snd Borrowed.cells].
  destruct (borrowed_sifted_init s exe cli0 cells0 err0) as (cli1 & Hi & _ & Hinv).
  cbn zeta in Hi. rewrite (bind_eq_Done _ _ _ _ _ Hi).
  destruct (borrowed_sifted_scan s cells0 pre [] false cli1 _ err0 Hinv) as [Hok _].
  { rewrite Hf. exact (unwrapped_of_total _ Hk). }
  destruct Hok as (b' & cli' & m' & Hinv' & Hs); [rewrite Hf; now right|].
  rewrite Hacc in Hs. rewrite Hf in Hinv'. eauto.
Qed.

(** An append under the invariant completes exactly when the cursor points
    into the arena. *)
Lemma borrowed_append_room s cells0 pre b (cli : Cli Borrowed.CliArray) m err t dest :
  borrowed_sifted s cells0 pre b cli m ->
  borrowed_room m <->
  exists a w, Borrowed.cli_da_append (get dest cli) t (m, err) = Done a w.
Proof.
  intros (La & Lc & Lp & Hu & _).
  assert (Hnext : Borrowed.next_unused (get dest cli) = Borrowed.AddrUnused)
    by (destruct dest; [apply La|apply Lc|apply Lp]).
  split.
  - intros (i & Hi & Hr). rewrite Hu in Hi. injection Hi as <-.
    eexists _, _. apply (borrowed_append_Done _ _ _ _ _ Hnext Hu). lia.
  - intros (a & w & Ha).
    destruct (le_lt_dec (List.length (Borrowed.cells m))
                (s + List.length (sorted_runs pre))) as [Hfull|Hroom].
    + rewrite (borrowed_append_fault _ _ _ _ _ Hnext Hu Hfull) in Ha. discriminate.
    + eexists. split; [exact Hu|]. lia.
Qed.

(** A completed append under the invariant, to a container that holds
    fewer than 65535 tokens: the destination holds its former cells
    followed by the token, the two other containers hold what they held,
    nothing is printed, and the invariant extends to the token. *)
Lemma borrowed_append_elements s cells0 pre t b (cli : Cli Borrowed.CliArray) m err
    a m' err' :
  borrowed_sifted s cells0 pre b cli m ->
  misplaced pre t = false -> is_double_dash t = false ->
  let dest := if is_positional t then Args else if b then CmdOptions else ProgramOptions in
  Z.of_nat (List.length (run_of dest pre)) < 65535 ->
  Borrowed.cli_da_append (get dest cli) t (m, err) = Done a (m', err') ->
  err' = err /\
  Borrowed.elements a m' = Borrowed.elements (get dest cli) m ++ [Some t] /\
  (forall f, f <> dest ->
     Borrowed.elements (get f cli) m' = Borrowed.elements (get f cli) m) /\
  borrowed_sifted s cells0 (pre ++ [t]) (if is_positional t then true else b)
    (set dest a cli) m'.
Proof.
  intros Hinv Hm Hd dest Hk Ha.
  pose proof Hinv as (La & Lc & Lp & Hu & Hlen & _).
  assert (Hnext : Borrowed.next_unused (get dest cli) = Borrowed.AddrUnused)
    by (destruct dest; [apply La|apply Lc|apply Lp]).
  assert (Hroom : (s + List.length (sorted_runs pre) < List.length cells0)%nat).
  { destruct (le_lt_dec (List.length cells0) (s + List.length (sorted_runs pre)))
      as [Hfull|Hroom]; [|exact Hroom].
    rewrite (borrowed_append_fault _ _ _ _ _ Hnext Hu) in Ha by lia. discriminate. }
  destruct (borrowed_step_stored _ _ _ _ _ _ _ err Hinv Hm Hd) as [Hok _].
  destruct (Hok Hroom Hk) as (b1 & cli1 & m1 & Hrun & Hinv1).
  rewrite (loop_body_target _ _ _ _ (borrowed_sifted_target _ _ _ _ _ _ _ Hinv Hm Hd))
    in Hrun.
  borrowed_methods. fold dest in Hrun. unfold bind, ret in Hrun. rewrite Ha in Hrun.
  injection Hrun as <- <- <- <-.
  assert (Hb : (match dest with Args => true | _ => b end) =
               (if is_positional t then true else b)).
  { subst dest. destruct (is_positional t), b; reflexivity. }
  rewrite Hb in Hinv1.
  pose proof (borrowed_sifted_elements _ _ _ _ _ _ Hinv) as E0.
  pose proof (borrowed_sifted_elements _ _ _ _ _ _ Hinv1) as E1.
  split; [reflexivity|]. split; [|split; [|exact Hinv1]].
  - specialize (E1 dest). rewrite (E0 dest).
    rewrite get_set_same in E1.
    rewrite E1. change [Some t] with (Some <$> [t]). rewrite <- fmap_app. f_equal.
    subst dest. destruct (token_kinds t) as [(Ho & _ & Hp)|[(Ho & Hd' & Hp)|(Ho & _ & Hp)]];
      try congruence; rewrite Hp.
    + destruct (runs_snoc_option pre t Ho) as (_ & Rall & Rnot).
      destruct Hinv as (_ & _ & _ & _ & _ & _ & _ & _ & _ & _ & _ & ->).
      destruct (forallb is_option pre); cbn [negb run_of];
        [now destruct (Rall eq_refl)|now destruct (Rnot eq_refl)].
    + cbn [run_of]. destruct (runs_snoc_other pre t Ho) as (_ & _ & -> & _). now rewrite Hp.
  - intros f Hf. specialize (E1 f). rewrite (E0 f).
    rewrite (get_set_other _ _ _ _ Hf) in E1.
    rewrite E1. f_equal.
    subst dest. destruct (token_kinds t) as [(Ho & _ & Hp)|[(Ho & Hd' & Hp)|(Ho & _ & Hp)]];
      try congruence; rewrite Hp in Hf.
    + destruct (runs_snoc_option pre t Ho) as (Rpos & Rall & Rnot).
      destruct Hinv as (_ & _ & _ & _ & _ & _ & _ & _ & _ & _ & _ & ->).
      destruct (forallb is_option pre); cbn [negb] in Hf;
        [destruct (Rall eq_refl)|destruct (Rnot eq_refl)];
        destruct f; cbn [run_of]; congruence.
    + destruct (runs_snoc_other pre t Ho) as (Rl & Rc & _ & _).
      destruct f; cbn [run_of]; congruence.
Qed.

(** The separator on the arena build, each run of [pre] shorter than
    65536. *)
Lemma borrowed_separator_step exe pre post cli0 (s : nat) cells0 u0 err0 b
    (cli : Cli Borrowed.CliArray) m err :
  cli_parse_noheap_upto exe pre cli0 (Borrowed.Cell (Z.of_nat s))
    (Borrowed.mkArena cells0 u0, err0) = Done (Continue b cli) (m, err) ->
  unwrapped pre ->
  Borrowed.elements (args cli) m = Some <$> positionals pre
  /\
  (Borrowed.elements (args cli) m <> [] ->
   exists prev,
     last (Borrowed.elements (args cli) m) = Some (Some prev) /\
     Borrowed.cli_parse_noheap (exe :: pre ++ "--" :: post) cli0 (Borrowed.Cell (Z.of_nat s))
       (Borrowed.mkArena cells0 u0, err0) =
       Done (CliErrorUser, cli)
         (m, err ++ [Diag "CLI error" double_dash_msg ["--"; prev]]))
  /\
  (Borrowed.elements (args cli) m = [] ->
   Borrowed.cli_parse_noheap (exe :: pre ++ "--" :: post) cli0 (Borrowed.Cell (Z.of_nat s))
     (Borrowed.mkArena cells0 u0, err0) =
     @cli_parse_loop Borrowed.container post true cli (m, err)).
Proof.
  intros Hu Hk.
  destruct (borrowed_sifted_reached _ _ _ _ _ _ _ _ _ _ _ Hu Hk) as (Hinv & -> & Hacc).
  pose proof (borrowed_sifted_elements _ _ _ _ _ _ Hinv Args) as Ea. cbn [get run_of] in Ea.
  split; [exact Ea|].
  rewrite noheap_at, Hu. cbn [cli_parse_loop]. rewrite Ea. split.
  - intros Hne.
    assert (Hpos : positionals pre <> []) by (intros E; now rewrite E in Hne).
    assert (Hm : misplaced pre "--" = true).
    { unfold misplaced. apply nonempty_true in Hpos. now rewrite Hpos. }
    destruct (last (positionals pre)) as [prev|] eqn:Hl;
      [|now apply last_None in Hl].
    exists prev. split; [now rewrite fmap_last, Hl|].
    rewrite (bind_eq_Done _ _ _ _ _ (borrowed_step_refused _ _ _ _ _ _ _ err0 Hinv Hm)).
    unfold complaint. change (is_double_dash "--") with true. cbv iota. now rewrite Hl.
  - intros E. apply fmap_nil_inv in E.
    assert (Hm : misplaced pre "--" = false) by (unfold misplaced; now rewrite E).
    destruct (borrowed_step_separator _ _ _ _ _ _ _ err0 Hinv Hm eq_refl) as [Hrun _].
    now rewrite (bind_eq_Done _ _ _ _ _ Hrun).
Qed.

(** A positional token on the arena build, each run of [pre] shorter than
    65536. *)
Lemma borrowed_positional_step exe pre post cli0 (s : nat) cells0 u0 err0 b
    (cli : Cli Borrowed.CliArray) m err t :
  char_at t 0 <> "-"%char ->
  cli_parse_noheap_upto exe pre cli0 (Borrowed.Cell (Z.of_nat s))
    (Borrowed.mkArena cells0 u0, err0) = Done (Continue b cli) (m, err) ->
  unwrapped pre ->
  Borrowed.elements (cmd_options cli) m = Some <$> later_options pre
  /\
  (Borrowed.elements (cmd_options cli) m <> [] ->
   Borrowed.cli_parse_noheap (exe :: pre ++ t :: post) cli0 (Borrowed.Cell (Z.of_nat s))
     (Borrowed.mkArena cells0 u0, err0) =
     Done (CliErrorUser, cli) (m, err ++ [Diag "CLI error" positional_msg [t]]))
  /\
  (Borrowed.elements (cmd_options cli) m = [] ->
   Borrowed.cli_parse_noheap (exe :: pre ++ t :: post) cli0 (Borrowed.Cell (Z.of_nat s))
     (Borrowed.mkArena cells0 u0, err0) =
     (a <- Borrowed.cli_da_append (args cli) t;;
      @cli_parse_loop Borrowed.container post true
        (mkCli (execfile cli) a (cmd_options cli) (program_options cli))) (m, err)
   /\
   (borrowed_room m <->
    exists a w, Borrowed.cli_da_append (args cli) t (m, err) = Done a w)
   /\
   (forall a m' err',
      Z.of_nat (List.length (positionals pre)) < 65535 ->
      Borrowed.cli_da_append (args cli) t (m, err) = Done a (m', err') ->
      err' = err /\
      Borrowed.elements a m' = Borrowed.elements (args cli) m ++ [Some t] /\
      Borrowed.elements (cmd_options cli) m' = Borrowed.elements (cmd_options cli) m /\
      Borrowed.elements (program_options cli) m' =
        Borrowed.elements (program_options cli) m)).
Proof.
  intros Ht Hu Hk.
  destruct (borrowed_sifted_reached _ _ _ _ _ _ _ _ _ _ _ Hu Hk) as (Hinv & -> & Hacc).
  pose proof (borrowed_sifted_elements _ _ _ _ _ _ Hinv CmdOptions) as Ec.
  cbn [get run_of] in Ec.
  assert (E0 : Ascii.eqb (char_at t 0) "-" = false) by now apply Ascii.eqb_neq.
  assert (Hp : is_positional t = true) by (unfold is_positional, begins_with_dash; now rewrite E0).
  assert (Hd : is_double_dash t = false) by (unfold is_double_dash; now rewrite E0).
  split; [exact Ec|].
  rewrite noheap_at, Hu. cbn [cli_parse_loop]. split.
  - intros Hne. rewrite Ec in Hne.
    assert (Hco : later_options pre <> []) by (intros E; now rewrite E in Hne).
    assert (Hm : misplaced pre t = true).
    { unfold misplaced. apply nonempty_true in Hco. rewrite Hco, Hp. apply orb_true_r. }
    rewrite (bind_eq_Done _ _ _ _ _ (borrowed_step_refused _ _ _ _ _ _ _ err0 Hinv Hm)).
    unfold complaint. now rewrite Hd.
  - intros E. rewrite Ec in E. apply fmap_nil_inv in E.
    assert (Hm : misplaced pre t = false) by (unfold misplaced; now rewrite E, Hd, Hp).
    pose proof (borrowed_sifted_target _ _ _ _ _ _ _ Hinv Hm Hd) as Htg. rewrite Hp in Htg.
    split; [|split].
    + rewrite (loop_body_target _ _ _ _ Htg). borrowed_methods. cbn [get set]. unfold bind, ret.
      destruct (Borrowed.cli_da_append (args cli) t (m, err0)) as [a w| |]; reflexivity.
    + exact (borrowed_append_room _ _ _ _ _ _ err0 t Args Hinv).
    + intros a m' err' Hk' Ha.
      pose proof (borrowed_append_elements _ _ _ _ _ _ _ err0 a m' err' Hinv Hm Hd) as Hap.
      cbn zeta in Hap. rewrite Hp in Hap. cbn [get run_of] in Hap.
      destruct (Hap Hk' Ha) as (He & Hel & Hoth & _).
      split; [exact He|]. split; [exact Hel|].
      split; [apply (Hoth CmdOptions)|apply (Hoth ProgramOptions)]; discriminate.
Qed.

(** An option on the arena build, each run of [pre] shorter than 65536. *)
Lemma borrowed_option_step exe pre post cli0 (s : nat) cells0 u0 err0 b
    (cli : Cli Borrowed.CliArray) m err t :
  c_string t -> char_at t 0 = "-"%char -> t <> "--" ->
  cli_parse_noheap_upto exe pre cli0 (Borrowed.Cell (Z.of_nat s))
    (Borrowed.mkArena cells0 u0, err0) = Done (Continue b cli) (m, err) ->
  unwrapped pre ->
  let dest := if b then CmdOptions else ProgramOptions in
  Borrowed.cli_parse_noheap (exe :: pre ++ t :: post) cli0 (Borrowed.Cell (Z.of_nat s))
    (Borrowed.mkArena cells0 u0, err0) =
    (a <- Borrowed.cli_da_append (get dest cli) t;;
     @cli_parse_loop Borrowed.container post b (set dest a cli)) (m, err)
  /\
  (borrowed_room m <->
   exists a w, Borrowed.cli_da_append (get dest cli) t (m, err) = Done a w)
  /\
  (forall a m' err',
     Z.of_nat (List.length (run_of dest pre)) < 65535 ->
     Borrowed.cli_da_append (get dest cli) t (m, err) = Done a (m', err') ->
     err' = err /\
     Borrowed.elements a m' = Borrowed.elements (get dest cli) m ++ [Some t] /\
     (forall f, f <> dest ->
        Borrowed.elements (get f cli) m' = Borrowed.elements (get f cli) m)).
Proof.
  intros Hc Ht Hne Hu Hk dest.
  destruct (borrowed_sifted_reached _ _ _ _ _ _ _ _ _ _ _ Hu Hk) as (Hinv & -> & Hacc).
  assert (E0 : Ascii.eqb (char_at t 0) "-" = true) by now apply Ascii.eqb_eq.
  assert (Hd : is_double_dash t = false) by now apply is_double_dash_false.
  assert (Hp : is_positional t = false) by (unfold is_positional, begins_with_dash; now rewrite E0).
  assert (Hm : misplaced pre t = false) by (unfold misplaced; now rewrite Hd, Hp).
  pose proof (borrowed_sifted_target _ _ _ _ _ _ _ Hinv Hm Hd) as Htg.
  rewrite Hp in Htg. fold dest in Htg.
  split; [|split].
  - rewrite noheap_at, Hu. cbn [cli_parse_loop].
    rewrite (loop_body_target _ _ _ _ Htg). borrowed_methods. unfold bind, ret.
    replace (match dest with Args => true | _ => b end) with b by (subst dest; now destruct b).
    destruct (Borrowed.cli_da_append (get dest cli) t (m, err0)) as [a w| |]; reflexivity.
  - exact (borrowed_append_room _ _ _ _ _ _ err0 t dest Hinv).
  - intros a m' err' Hk' Ha.
    pose proof (borrowed_append_elements _ _ _ _ _ _ _ err0 a m' err' Hinv Hm Hd) as Hap.
    cbn zeta in Hap. rewrite Hp in Hap. fold dest in Hap.
    destruct (Hap Hk' Ha) as (He & Hel & Hoth & _). auto.
Qed.

(** A completed pass on the arena build, each run of the input shorter than
    65536. *)
Lemma borrowed_ok_permutation argv cli0 (s : nat) cells0 u0 err0
    (cli : Cli Borrowed.CliArray) m err :
  Forall c_string argv ->
  Borrowed.cli_parse_noheap argv cli0 (Borrowed.Cell (Z.of_nat s))
    (Borrowed.mkArena cells0 u0, err0) = Done (CliErrorOk, cli) (m, err) ->
  unwrapped (tail argv) ->
  Permutation
    (Borrowed.elements (program_options cli) m ++ Borrowed.elements (args cli) m
       ++ Borrowed.elements (cmd_options cli) m)
    (Some <$> List.filter (fun t => negb (String.eqb t "--")) (tail argv)).
Proof.
  intros Hc Hrun Hk. destruct argv as [|exe rest]; [discriminate|]. cbn [tail] in *.
  assert (Hk' : unwrapped (fst (sift [] rest))).
  { destruct (sift_split rest []) as (mid & Hf & Hp & _). cbn [app] in Hf.
    rewrite Hf. rewrite Hp in Hk. exact (unwrapped_prefix _ _ Hk). }
  destruct (borrowed_parse_sifted exe rest cli0 s cells0 u0 err0 Hk') as [Hok Hfault].
  assert (Hfit : (List.length (sorted_runs (fst (sift [] rest))) = 0 \/
                  s + List.length (sorted_runs (fst (sift [] rest)))
                  <= List.length cells0)%nat).
  { destruct (Nat.eq_dec (List.length (sorted_runs (fst (sift [] rest)))) O) as [Hz|Hnz];
      [now left|].
    destruct (le_lt_dec (s + List.length (sorted_runs (fst (sift [] rest))))
                (List.length cells0)) as [Hle|Hgt]; [now right|].
    rewrite Hfault in Hrun by lia. discriminate. }
  destruct (Hok Hfit) as (cli' & m' & Hrun' & _ & _ & _ & Epo & Ear & Eco).
  rewrite Hrun' in Hrun.
  destruct (snd (sift [] rest)) eqn:Hacc; [|discriminate].
  injection Hrun as <- <- _.
  rewrite Epo, Ear, Eco, <- !fmap_app.
  pose proof (sorted_runs_kept rest [] Hacc) as Hs. cbn [app] in Hs.
  rewrite (sift_all _ _ Hacc). cbn [app]. fold (sorted_runs rest). rewrite Hs. cbn [app].
  unfold Borrowed.stored. rewrite filter_double_dash; [reflexivity|].
  now inversion Hc.
Qed.

(** ** The grammar rules, on both builds *)

(** C1, amended.  On the heap build, and on the arena build while none of
    the three containers has received 65536 tokens ([unwrapped pre]: the
    tokens [pre] have fewer than 65536 leading options, fewer than 65536
    tokens that do not begin with '-', and fewer than 65536 options after
    the first token that is not an option): whenever [cli_parse] meets the
    token "--" after the tokens [pre], if [args] is non-empty it stops with
    [CliErrorUser], the struct and the memory left as they were, and prints
    the double-dash message with the token and the positional argument
    recorded last; if [args] is empty it goes on with the rest of the
    input, the scope flag set and the three containers untouched, so the
    separator is stored nowhere.  On the arena build within that bound,
    [args] holds the tokens of [pre] that do not begin with '-'. *)
Theorem double_dash_rule :
  (forall (cap : nat) exe pre post cli0 w0 b (cli : Cli Owned.CliArray) h err,
     @cli_parse_upto (Owned.container cap) exe pre cli0 w0 = Done (Continue b cli) (h, err) ->
     (Owned.elements (args cli) <> [] ->
      exists prev,
        last (Owned.elements (args cli)) = Some (Some prev) /\
        @cli_parse (Owned.container cap) (exe :: pre ++ "--" :: post) cli0 w0 =
          Done (CliErrorUser, cli)
            (h, err ++ [Diag "CLI error" double_dash_msg ["--"; prev]]))
     /\
     (Owned.elements (args cli) = [] ->
      @cli_parse (Owned.container cap) (exe :: pre ++ "--" :: post) cli0 w0 =
        @cli_parse_loop (Owned.container cap) post true cli (h, err)))
  /\
  (forall exe pre post cli0 (s : nat) cells0 u0 err0 b (cli : Cli Borrowed.CliArray) m err,
     cli_parse_noheap_upto exe pre cli0 (Borrowed.Cell (Z.of_nat s))
       (Borrowed.mkArena cells0 u0, err0) = Done (Continue b cli) (m, err) ->
     unwrapped pre ->
     Borrowed.elements (args cli) m = Some <$> positionals pre
     /\
     (Borrowed.elements (args cli) m <> [] ->
      exists prev,
        last (Borrowed.elements (args cli) m) = Some (Some prev) /\
        Borrowed.cli_parse_noheap (exe :: pre ++ "--" :: post) cli0
          (Borrowed.Cell (Z.of_nat s)) (Borrowed.mkArena cells0 u0, err0) =
          Done (CliErrorUser, cli)
            (m, err ++ [Diag "CLI error" double_dash_msg ["--"; prev]]))
     /\
     (Borrowed.elements (args cli) m = [] ->
      Borrowed.cli_parse_noheap (exe :: pre ++ "--" :: post) cli0
        (Borrowed.Cell (Z.of_nat s)) (Borrowed.mkArena cells0 u0, err0) =
        @cli_parse_loop Borrowed.container post true cli (m, err))).
Proof.
  split.
  - intros cap exe pre post cli0 w0 b cli h err Hu.
    exact (owned_separator_step cap exe pre post cli0 w0 b cli h err Hu).
  - intros exe pre post cli0 s cells0 u0 err0 b cli m err Hu Hk.
    exact (borrowed_separator_step exe pre post cli0 s cells0 u0 err0 b cli m err Hu Hk).
Qed.

Lemma double_dash_rule_witness :
  (@cli_parse_upto Owned.default "prog" ["-v"; "a"] Owned.blank Owned.generous =
     Done (Continue true (Owned.struct "prog" ["a"] [] ["-v"])) (Owned.settled, [])
   /\
   ((Owned.elements (args (Owned.struct "prog" ["a"] [] ["-v"])) <> [] ->
     exists prev,
       last (Owned.elements (args (Owned.struct "prog" ["a"] [] ["-v"]))) = Some (Some prev) /\
       @cli_parse Owned.default ("prog" :: ["-v"; "a"] ++ "--" :: ["b"]) Owned.blank
         Owned.generous =
         Done (CliErrorUser, Owned.struct "prog" ["a"] [] ["-v"])
           (Owned.settled, [] ++ [Diag "CLI error" double_dash_msg ["--"; prev]]))
    /\
    (Owned.elements (args (Owned.struct "prog" ["a"] [] ["-v"])) = [] ->
     @cli_parse Owned.default ("prog" :: ["-v"; "a"] ++ "--" :: ["b"]) Owned.blank
       Owned.generous =
       @cli_parse_loop Owned.default ["b"] true (Owned.struct "prog" ["a"] [] ["-v"])
         (Owned.settled, []))))
  /\
  (cli_parse_noheap_upto "prog" ["-v"; "a"] Borrowed.blank (Borrowed.Cell (Z.of_nat 0))
     (Borrowed.mkArena [None; None; None] Borrowed.NULL, []) =
     Done (Continue true (arranged "prog" 1 1 0))
       (Borrowed.mkArena [Some "-v"; Some "a"; None] (Borrowed.Cell 2), [])
   /\
   unwrapped ["-v"; "a"]
   /\
   (Borrowed.elements (args (arranged "prog" 1 1 0))
      (Borrowed.mkArena [Some "-v"; Some "a"; None] (Borrowed.Cell 2)) =
      Some <$> positionals ["-v"; "a"]
    /\
    (Borrowed.elements (args (arranged "prog" 1 1 0))
       (Borrowed.mkArena [Some "-v"; Some "a"; None] (Borrowed.Cell 2)) <> [] ->
     exists prev,
       last (Borrowed.elements (args (arranged "prog" 1 1 0))
               (Borrowed.mkArena [Some "-v"; Some "a"; None] (Borrowed.Cell 2))) =
         Some (Some prev) /\
       Borrowed.cli_parse_noheap ("prog" :: ["-v"; "a"] ++ "--" :: ["b"]) Borrowed.blank
         (Borrowed.Cell (Z.of_nat 0)) (Borrowed.mkArena [None; None; None] Borrowed.NULL, []) =
         Done (CliErrorUser, arranged "prog" 1 1 0)
           (Borrowed.mkArena [Some "-v"; Some "a"; None] (Borrowed.Cell 2),
            [] ++ [Diag "CLI error" double_dash_msg ["--"; prev]]))
    /\
    (Borrowed.elements (args (arranged "prog" 1 1 0))
       (Borrowed.mkArena [Some "-v"; Some "a"; None] (Borrowed.Cell 2)) = [] ->
     Borrowed.cli_parse_noheap ("prog" :: ["-v"; "a"] ++ "--" :: ["b"]) Borrowed.blank
       (Borrowed.Cell (Z.of_nat 0)) (Borrowed.mkArena [None; None; None] Borrowed.NULL, []) =
       @cli_parse_loop Borrowed.container ["b"] true (arranged "prog" 1 1 0)
         (Borrowed.mkArena [Some "-v"; Some "a"; None] (Borrowed.Cell 2), [])))).
Proof.
  split.
  - split; [vm_compute; reflexivity|].
    apply (proj1 double_dash_rule 5%nat "prog" ["-v"; "a"] ["b"] Owned.blank Owned.generous true
             (Owned.struct "prog" ["a"] [] ["-v"]) Owned.settled []).
    vm_compute; reflexivity.
  - split; [vm_compute; reflexivity|]. split; [intros [| |]; vm_compute; reflexivity|].
    apply (proj2 double_dash_rule "prog" ["-v"; "a"] ["b"] Borrowed.blank 0%nat
             [None; None; None] Borrowed.NULL [] true (arranged "prog" 1 1 0)
             (Borrowed.mkArena [Some "-v"; Some "a"; None] (Borrowed.Cell 2)) []).
    + vm_compute; reflexivity.
    + intros [| |]; vm_compute; reflexivity.
Defined.

(** C2, amended.  On the heap build, and on the arena build while none of
    the three containers has received 65536 tokens ([unwrapped pre], as in
    C1): whenever [cli_parse] meets a token
    that does not begin with '-' (the empty string is one) after the tokens
    [pre], if [cmd_options] is non-empty it stops with [CliErrorUser], the
    struct and the memory left as they were, and prints the positional
    message with the token; otherwise it appends the token to [args] and
    goes on with the scope flag set.  The append completes exactly when
    [args] has room (heap) or the cursor points into the array (arena);
    then [args] holds its former cells followed by the token, on the arena
    build as long as [args], this token included, has received at most
    65535 tokens, and there the two other containers hold what they held.
    On the arena build within the first bound, [cmd_options] holds the
    options of [pre] that come after its first token that is not an
    option. *)
Theorem positional_rule :
  (forall (cap : nat) exe pre post cli0 w0 b (cli : Cli Owned.CliArray) h err t,
     char_at t 0 <> "-"%char ->
     @cli_parse_upto (Owned.container cap) exe pre cli0 w0 = Done (Continue b cli) (h, err) ->
     (Owned.elements (cmd_options cli) <> [] ->
      @cli_parse (Owned.container cap) (exe :: pre ++ t :: post) cli0 w0 =
        Done (CliErrorUser, cli) (h, err ++ [Diag "CLI error" positional_msg [t]]))
     /\
     (Owned.elements (cmd_options cli) = [] ->
      @cli_parse (Owned.container cap) (exe :: pre ++ t :: post) cli0 w0 =
        (a <- Owned.cli_da_append (args cli) t;;
         @cli_parse_loop (Owned.container cap) post true
           (mkCli (execfile cli) a (cmd_options cli) (program_options cli))) (h, err)
      /\
      (Owned.room (args cli) h <->
       exists a w, Owned.cli_da_append (args cli) t (h, err) = Done a w)
      /\
      (forall a w, Owned.cli_da_append (args cli) t (h, err) = Done a w ->
         Owned.elements a = Owned.elements (args cli) ++ [Some t])))
  /\
  (forall exe pre post cli0 (s : nat) cells0 u0 err0 b (cli : Cli Borrowed.CliArray) m err t,
     char_at t 0 <> "-"%char ->
     cli_parse_noheap_upto exe pre cli0 (Borrowed.Cell (Z.of_nat s))
       (Borrowed.mkArena cells0 u0, err0) = Done (Continue b cli) (m, err) ->
     unwrapped pre ->
     Borrowed.elements (cmd_options cli) m = Some <$> later_options pre
     /\
     (Borrowed.elements (cmd_options cli) m <> [] ->
      Borrowed.cli_parse_noheap (exe :: pre ++ t :: post) cli0 (Borrowed.Cell (Z.of_nat s))
        (Borrowed.mkArena cells0 u0, err0) =
        Done (CliErrorUser, cli) (m, err ++ [Diag "CLI error" positional_msg [t]]))
     /\
     (Borrowed.elements (cmd_options cli) m = [] ->
      Borrowed.cli_parse_noheap (exe :: pre ++ t :: post) cli0 (Borrowed.Cell (Z.of_nat s))
        (Borrowed.mkArena cells0 u0, err0) =
        (a <- Borrowed.cli_da_append (args cli) t;;
         @cli_parse_loop Borrowed.container post true
           (mkCli (execfile cli) a (cmd_options cli) (program_options cli))) (m, err)
      /\
      (borrowed_room m <->
       exists a w, Borrowed.cli_da_append (args cli) t (m, err) = Done a w)
      /\
      (forall a m' err',
         Z.of_nat (List.length (positionals pre)) < 65535 ->
         Borrowed.cli_da_append (args cli) t (m, err) = Done a (m', err') ->
         err' = err /\
         Borrowed.elements a m' = Borrowed.elements (args cli) m ++ [Some t] /\
         Borrowed.elements (cmd_options cli) m' = Borrowed.elements (cmd_options cli) m /\
         Borrowed.elements (program_options cli) m' =
           Borrowed.elements (program_options cli) m))).
Proof.
  split.
  - intros cap exe pre post cli0 w0 b cli h err t Ht Hu.
    exact (owned_positional_step cap exe pre post cli0 w0 b cli h err t Ht Hu).
  - intros exe pre post cli0 s cells0 u0 err0 b cli m err t Ht Hu Hk.
    exact (borrowed_positional_step exe pre post cli0 s cells0 u0 err0 b cli m err t
             Ht Hu Hk).
Qed.

Lemma positional_rule_witness :
  (char_at "" 0 <> "-"%char /\
   @cli_parse_upto Owned.default "prog" ["-v"] Owned.blank Owned.generous =
     Done (Continue false (Owned.struct "prog" [] [] ["-v"])) (Owned.settled, [])
   /\
   ((Owned.elements (cmd_options (Owned.struct "prog" [] [] ["-v"])) <> [] ->
     @cli_parse Owned.default ("prog" :: ["-v"] ++ "" :: ["-x"]) Owned.blank Owned.generous =
       Done (CliErrorUser, Owned.struct "prog" [] [] ["-v"])
         (Owned.settled, [] ++ [Diag "CLI error" positional_msg [""]]))
    /\
    (Owned.elements (cmd_options (Owned.struct "prog" [] [] ["-v"])) = [] ->
     @cli_parse Owned.default ("prog" :: ["-v"] ++ "" :: ["-x"]) Owned.blank Owned.generous =
       (a <- Owned.cli_da_append (args (Owned.struct "prog" [] [] ["-v"])) "";;
        @cli_parse_loop Owned.default ["-x"] true
          (mkCli (execfile (Owned.struct "prog" [] [] ["-v"])) a
             (cmd_options (Owned.struct "prog" [] [] ["-v"]))
             (program_options (Owned.struct "prog" [] [] ["-v"])))) (Owned.settled, [])
     /\
     (Owned.room (args (Owned.struct "prog" [] [] ["-v"])) Owned.settled <->
      exists a w,
        Owned.cli_da_append (args (Owned.struct "prog" [] [] ["-v"])) ""
          (Owned.settled, []) = Done a w)
     /\
     (forall a w,
        Owned.cli_da_append (args (Owned.struct "prog" [] [] ["-v"])) ""
          (Owned.settled, []) = Done a w ->
        Owned.elements a =
        Owned.elements (args (Owned.struct "prog" [] [] ["-v"])) ++ [Some ""]))))
  /\
  (char_at "" 0 <> "-"%char /\
   cli_parse_noheap_upto "prog" ["-v"] Borrowed.blank (Borrowed.Cell (Z.of_nat 0))
     (Borrowed.mkArena [None; None; None] Borrowed.NULL, []) =
     Done (Continue false (arranged "prog" 1 0 0))
       (Borrowed.mkArena [Some "-v"; None; None] (Borrowed.Cell 1), [])
   /\
   unwrapped ["-v"]
   /\
   (Borrowed.elements (cmd_options (arranged "prog" 1 0 0))
      (Borrowed.mkArena [Some "-v"; None; None] (Borrowed.Cell 1)) =
      Some <$> later_options ["-v"]
    /\
    (Borrowed.elements (cmd_options (arranged "prog" 1 0 0))
       (Borrowed.mkArena [Some "-v"; None; None] (Borrowed.Cell 1)) <> [] ->
     Borrowed.cli_parse_noheap ("prog" :: ["-v"] ++ "" :: ["-x"]) Borrowed.blank
       (Borrowed.Cell (Z.of_nat 0)) (Borrowed.mkArena [None; None; None] Borrowed.NULL, []) =
       Done (CliErrorUser, arranged "prog" 1 0 0)
         (Borrowed.mkArena [Some "-v"; None; None] (Borrowed.Cell 1),
          [] ++ [Diag "CLI error" positional_msg [""]]))
    /\
    (Borrowed.elements (cmd_options (arranged "prog" 1 0 0))
       (Borrowed.mkArena [Some "-v"; None; None] (Borrowed.Cell 1)) = [] ->
     Borrowed.cli_parse_noheap ("prog" :: ["-v"] ++ "" :: ["-x"]) Borrowed.blank
       (Borrowed.Cell (Z.of_nat 0)) (Borrowed.mkArena [None; None; None] Borrowed.NULL, []) =
       (a <- Borrowed.cli_da_append (args (arranged "prog" 1 0 0)) "";;
        @cli_parse_loop Borrowed.container ["-x"] true
          (mkCli (execfile (arranged "prog" 1 0 0)) a
             (cmd_options (arranged "prog" 1 0 0))
             (program_options (arranged "prog" 1 0 0))))
         (Borrowed.mkArena [Some "-v"; None; None] (Borrowed.Cell 1), [])
     /\
     (borrowed_room (Borrowed.mkArena [Some "-v"; None; None] (Borrowed.Cell 1)) <->
      exists a w,
        Borrowed.cli_da_append (args (arranged "prog" 1 0 0)) ""
          (Borrowed.mkArena [Some "-v"; None; None] (Borrowed.Cell 1), []) = Done a w)
     /\
     (forall a m' err',
        Z.of_nat (List.length (positionals ["-v"])) < 65535 ->
        Borrowed.cli_da_append (args (arranged "prog" 1 0 0)) ""
          (Borrowed.mkArena [Some "-v"; None; None] (Borrowed.Cell 1), []) =
          Done a (m', err') ->
        err' = [] /\
        Borrowed.elements a m' =
          Borrowed.elements (args (arranged "prog" 1 0 0))
            (Borrowed.mkArena [Some "-v"; None; None] (Borrowed.Cell 1)) ++ [Some ""] /\
        Borrowed.elements (cmd_options (arranged "prog" 1 0 0)) m' =
          Borrowed.elements (cmd_options (arranged "prog" 1 0 0))
            (Borrowed.mkArena [Some "-v"; None; None] (Borrowed.Cell 1)) /\
        Borrowed.elements (program_options (arranged "prog" 1 0 0)) m' =
          Borrowed.elements (program_options (arranged "prog" 1 0 0))
            (Borrowed.mkArena [Some "-v"; None; None] (Borrowed.Cell 1)))))).
Proof.
  split.
  - split; [discriminate|]. split; [vm_compute; reflexivity|].
    apply (proj1 positional_rule 5%nat "prog" ["-v"] ["-x"] Owned.blank Owned.generous false
             (Owned.struct "prog" [] [] ["-v"]) Owned.settled [] "").
    + discriminate.
    + vm_compute; reflexivity.
  - split; [discriminate|]. split; [vm_compute; reflexivity|].
    split; [intros [| |]; vm_compute; reflexivity|].
    apply (proj2 positional_rule "prog" ["-v"] ["-x"] Borrowed.blank 0%nat
             [None; None; None] Borrowed.NULL [] false (arranged "prog" 1 0 0)
             (Borrowed.mkArena [Some "-v"; None; None] (Borrowed.Cell 1)) [] "").
    + discriminate.
    + vm_compute; reflexivity.
    + intros [| |]; vm_compute; reflexivity.
Defined.

(** C3, amended.  On the heap build, and on the arena build while none of
    the three containers has received 65536 tokens ([unwrapped pre], as in
    C1): whenever [cli_parse] meets, after
    the tokens [pre], a token that begins with '-' and is not "--" (a lone
    "-" is one), it appends the token to [cmd_options] if the scope flag is
    set and to [program_options] otherwise, and goes on with the flag
    unchanged and the two other containers untouched.  The append completes
    exactly when the destination has room (heap) or the cursor points into
    the array (arena); then the destination holds its former cells followed
    by the token, on the arena build as long as the destination, this token
    included, has received at most 65535 tokens, and there the two other
    containers hold what they held. *)
Theorem option_rule :
  (forall (cap : nat) exe pre post cli0 w0 b (cli : Cli Owned.CliArray) h err t,
     c_string t -> char_at t 0 = "-"%char -> t <> "--" ->
     @cli_parse_upto (Owned.container cap) exe pre cli0 w0 = Done (Continue b cli) (h, err) ->
     let dest := if b then CmdOptions else ProgramOptions in
     @cli_parse (Owned.container cap) (exe :: pre ++ t :: post) cli0 w0 =
       (a <- Owned.cli_da_append (get dest cli) t;;
        @cli_parse_loop (Owned.container cap) post b (set dest a cli)) (h, err)
     /\
     (Owned.room (get dest cli) h <->
      exists a w, Owned.cli_da_append (get dest cli) t (h, err) = Done a w)
     /\
     (forall a w, Owned.cli_da_append (get dest cli) t (h, err) = Done a w ->
        Owned.elements a = Owned.elements (get dest cli) ++ [Some t]))
  /\
  (forall exe pre post cli0 (s : nat) cells0 u0 err0 b (cli : Cli Borrowed.CliArray) m err t,
     c_string t -> char_at t 0 = "-"%char -> t <> "--" ->
     cli_parse_noheap_upto exe pre cli0 (Borrowed.Cell (Z.of_nat s))
       (Borrowed.mkArena cells0 u0, err0) = Done (Continue b cli) (m, err) ->
     unwrapped pre ->
     let dest := if b then CmdOptions else ProgramOptions in
     Borrowed.cli_parse_noheap (exe :: pre ++ t :: post) cli0 (Borrowed.Cell (Z.of_nat s))
       (Borrowed.mkArena cells0 u0, err0) =
       (a <- Borrowed.cli_da_append (get dest cli) t;;
        @cli_parse_loop Borrowed.container post b (set dest a cli)) (m, err)
     /\
     (borrowed_room m <->
      exists a w, Borrowed.cli_da_append (get dest cli) t (m, err) = Done a w)
     /\
     (forall a m' err',
        Z.of_nat (List.length (run_of dest pre)) < 65535 ->
        Borrowed.cli_da_append (get dest cli) t (m, err) = Done a (m', err') ->
        err' = err /\
        Borrowed.elements a m' = Borrowed.elements (get dest cli) m ++ [Some t] /\
        (forall f, f <> dest ->
           Borrowed.elements (get f cli) m' = Borrowed.elements (get f cli) m))).
Proof.
  split.
  - intros cap exe pre post cli0 w0 b cli h err t Hc Ht Hne Hu.
    exact (owned_option_step cap exe pre post cli0 w0 b cli h err t Hc Ht Hne Hu).
  - intros exe pre post cli0 s cells0 u0 err0 b cli m err t Hc Ht Hne Hu Hk.
    exact (borrowed_option_step exe pre post cli0 s cells0 u0 err0 b cli m err t
             Hc Ht Hne Hu Hk).
Qed.

Lemma option_rule_witness :
  (c_string "-" /\ char_at "-" 0 = "-"%char /\ "-" <> "--" /\
   @cli_parse_upto Owned.default "prog" ["-v"; "run"] Owned.blank Owned.generous =
     Done (Continue true (Owned.struct "prog" ["run"] [] ["-v"])) (Owned.settled, [])
   /\
   (let dest := if true then CmdOptions else ProgramOptions in
    @cli_parse Owned.default ("prog" :: ["-v"; "run"] ++ "-" :: []) Owned.blank
      Owned.generous =
      (a <- Owned.cli_da_append (get dest (Owned.struct "prog" ["run"] [] ["-v"])) "-";;
       @cli_parse_loop Owned.default [] true
         (set dest a (Owned.struct "prog" ["run"] [] ["-v"]))) (Owned.settled, [])
    /\
    (Owned.room (get dest (Owned.struct "prog" ["run"] [] ["-v"])) Owned.settled <->
     exists a w,
       Owned.cli_da_append (get dest (Owned.struct "prog" ["run"] [] ["-v"])) "-"
         (Owned.settled, []) = Done a w)
    /\
    (forall a w,
       Owned.cli_da_append (get dest (Owned.struct "prog" ["run"] [] ["-v"])) "-"
         (Owned.settled, []) = Done a w ->
       Owned.elements a =
       Owned.elements (get dest (Owned.struct "prog" ["run"] [] ["-v"])) ++ [Some "-"])))
  /\
  (c_string "-" /\ char_at "-" 0 = "-"%char /\ "-" <> "--" /\
   cli_parse_noheap_upto "prog" ["-v"; "run"] Borrowed.blank (Borrowed.Cell (Z.of_nat 0))
     (Borrowed.mkArena [None; None; None] Borrowed.NULL, []) =
     Done (Continue true (arranged "prog" 1 1 0))
       (Borrowed.mkArena [Some "-v"; Some "run"; None] (Borrowed.Cell 2), [])
   /\
   unwrapped ["-v"; "run"]
   /\
   (let dest := if true then CmdOptions else ProgramOptions in
    Borrowed.cli_parse_noheap ("prog" :: ["-v"; "run"] ++ "-" :: []) Borrowed.blank
      (Borrowed.Cell (Z.of_nat 0)) (Borrowed.mkArena [None; None; None] Borrowed.NULL, []) =
      (a <- Borrowed.cli_da_append (get dest (arranged "prog" 1 1 0)) "-";;
       @cli_parse_loop Borrowed.container [] true (set dest a (arranged "prog" 1 1 0)))
        (Borrowed.mkArena [Some "-v"; Some "run"; None] (Borrowed.Cell 2), [])
    /\
    (borrowed_room (Borrowed.mkArena [Some "-v"; Some "run"; None] (Borrowed.Cell 2)) <->
     exists a w,
       Borrowed.cli_da_append (get dest (arranged "prog" 1 1 0)) "-"
         (Borrowed.mkArena [Some "-v"; Some "run"; None] (Borrowed.Cell 2), []) = Done a w)
    /\
    (forall a m' err',
       Z.of_nat (List.length (run_of dest ["-v"; "run"])) < 65535 ->
       Borrowed.cli_da_append (get dest (arranged "prog" 1 1 0)) "-"
         (Borrowed.mkArena [Some "-v"; Some "run"; None] (Borrowed.Cell 2), []) =
         Done a (m', err') ->
       err' = [] /\
       Borrowed.elements a m' =
         Borrowed.elements (get dest (arranged "prog" 1 1 0))
           (Borrowed.mkArena [Some "-v"; Some "run"; None] (Borrowed.Cell 2)) ++ [Some "-"] /\
       (forall f, f <> dest ->
          Borrowed.elements (get f (arranged "prog" 1 1 0)) m' =
          Borrowed.elements (get f (arranged "prog" 1 1 0))
            (Borrowed.mkArena [Some "-v"; Some "run"; None] (Borrowed.Cell 2)))))).
Proof.
  assert (Hc : c_string "-") by (cbn; intuition discriminate).
  split.
  - split; [exact Hc|]. split; [reflexivity|]. split; [discriminate|].
    split; [vm_compute; reflexivity|].
    apply (proj1 option_rule 5%nat "prog" ["-v"; "run"] [] Owned.blank Owned.generous true
             (Owned.struct "prog" ["run"] [] ["-v"]) Owned.settled [] "-").
    + exact Hc.
    + reflexivity.
    + discriminate.
    + vm_compute; reflexivity.
  - split; [exact Hc|]. split; [reflexivity|]. split; [discriminate|].
    split; [vm_compute; reflexivity|]. split; [intros [| |]; vm_compute; reflexivity|].
    apply (proj2 option_rule "prog" ["-v"; "run"] [] Borrowed.blank 0%nat
             [None; None; None] Borrowed.NULL [] true (arranged "prog" 1 1 0)
             (Borrowed.mkArena [Some "-v"; Some "run"; None] (Borrowed.Cell 2)) [] "-").
    + exact Hc.
    + reflexivity.
    + discriminate.
    + vm_compute; reflexivity.
    + intros [| |]; vm_compute; reflexivity.
Defined.

(** C4, amended.  When [cli_parse] returns [CliErrorOk], on the heap
    build, and on the arena build when the input after the execution path
    has at most 65535 leading options, at most 65535 tokens that do not
    begin with '-', and at most 65535 options after the first token that
    is not an option, the cells of [program_options], then those of [args], then those of
    [cmd_options] are a permutation of the input tokens after the execution
    path with every "--" removed. *)
Theorem parse_ok_permutation :
  (forall (cap : nat) argv cli0 w0 (cli : Cli Owned.CliArray) w,
     Forall c_string argv ->
     @cli_parse (Owned.container cap) argv cli0 w0 = Done (CliErrorOk, cli) w ->
     Permutation
       (Owned.elements (program_options cli) ++ Owned.elements (args cli)
          ++ Owned.elements (cmd_options cli))
       (Some <$> List.filter (fun t => negb (String.eqb t "--")) (tail argv)))
  /\
  (forall argv cli0 (s : nat) cells0 u0 err0 (cli : Cli Borrowed.CliArray) m err,
     Forall c_string argv ->
     Borrowed.cli_parse_noheap argv cli0 (Borrowed.Cell (Z.of_nat s))
       (Borrowed.mkArena cells0 u0, err0) = Done (CliErrorOk, cli) (m, err) ->
     unwrapped (tail argv) ->
     Permutation
       (Borrowed.elements (program_options cli) m ++ Borrowed.elements (args cli) m
          ++ Borrowed.elements (cmd_options cli) m)
       (Some <$> List.filter (fun t => negb (String.eqb t "--")) (tail argv))).
Proof.
  split.
  - intros cap argv cli0 w0 cli w Hc Hrun.
    exact (owned_ok_permutation cap argv cli0 w0 cli w Hc Hrun).
  - intros argv cli0 s cells0 u0 err0 cli m err Hc Hrun Hk.
    exact (borrowed_ok_permutation argv cli0 s cells0 u0 err0 cli m err Hc Hrun Hk).
Qed.

Lemma parse_ok_permutation_witness :
  (Forall c_string ["prog"; "-v"; "--"; "--"; "in"; "-x"; "-y"] /\
   @cli_parse Owned.default ["prog"; "-v"; "--"; "--"; "in"; "-x"; "-y"]
     Owned.blank Owned.generous =
     Done (CliErrorOk, Owned.struct "prog" ["in"] ["-x"; "-y"] ["-v"]) (Owned.settled, [])
   /\
   Permutation
     (Owned.elements (program_options (Owned.struct "prog" ["in"] ["-x"; "-y"] ["-v"]))
        ++ Owned.elements (args (Owned.struct "prog" ["in"] ["-x"; "-y"] ["-v"]))
        ++ Owned.elements (cmd_options (Owned.struct "prog" ["in"] ["-x"; "-y"] ["-v"])))
     (Some <$> List.filter (fun t => negb (String.eqb t "--"))
                 (tail ["prog"; "-v"; "--"; "--"; "in"; "-x"; "-y"])))
  /\
  (Forall c_string ["prog"; "-v"; "--"; "--"; "in"; "-x"; "-y"] /\
   Borrowed.cli_parse_noheap ["prog"; "-v"; "--"; "--"; "in"; "-x"; "-y"] Borrowed.blank
     (Borrowed.Cell (Z.of_nat 0)) (Borrowed.mkArena [None; None; None; None] Borrowed.NULL, []) =
     Done (CliErrorOk, arranged "prog" 1 1 2)
       (Borrowed.mkArena [Some "-v"; Some "in"; Some "-x"; Some "-y"] (Borrowed.Cell 4), [])
   /\
   unwrapped (tail ["prog"; "-v"; "--"; "--"; "in"; "-x"; "-y"])
   /\
   Permutation
     (Borrowed.elements (program_options (arranged "prog" 1 1 2))
        (Borrowed.mkArena [Some "-v"; Some "in"; Some "-x"; Some "-y"] (Borrowed.Cell 4))
      ++ Borrowed.elements (args (arranged "prog" 1 1 2))
           (Borrowed.mkArena [Some "-v"; Some "in"; Some "-x"; Some "-y"] (Borrowed.Cell 4))
      ++ Borrowed.elements (cmd_options (arranged "prog" 1 1 2))
           (Borrowed.mkArena [Some "-v"; Some "in"; Some "-x"; Some "-y"] (Borrowed.Cell 4)))
     (Some <$> List.filter (fun t => negb (String.eqb t "--"))
                 (tail ["prog"; "-v"; "--"; "--"; "in"; "-x"; "-y"]))).
Proof.
  assert (Hc : Forall c_string ["prog"; "-v"; "--"; "--"; "in"; "-x"; "-y"]).
  { repeat constructor; discriminate. }
  split.
  - split; [exact Hc|]. split; [vm_compute; reflexivity|].
    apply (proj1 parse_ok_permutation 5%nat ["prog"; "-v"; "--"; "--"; "in"; "-x"; "-y"]
             Owned.blank Owned.generous
             (Owned.struct "prog" ["in"] ["-x"; "-y"] ["-v"]) (Owned.settled, []) Hc).
    vm_compute; reflexivity.
  - split; [exact Hc|]. split; [vm_compute; reflexivity|].
    split; [intros [| |]; vm_compute; reflexivity|].
    apply (proj2 parse_ok_permutation ["prog"; "-v"; "--"; "--"; "in"; "-x"; "-y"]
             Borrowed.blank 0%nat [None; None; None; None] Borrowed.NULL []
             (arranged "prog" 1 1 2)
             (Borrowed.mkArena [Some "-v"; Some "in"; Some "-x"; Some "-y"] (Borrowed.Cell 4))
             [] Hc).
    + vm_compute; reflexivity.
    + intros [| |]; vm_compute; reflexivity.
Defined.

(** ** The arena build at the limit of [unsigned short] *)

Lemma filter_replicate {A} (f : A -> bool) (n : nat) (x : A) :
  List.filter f (replicate n x) = if f x then replicate n x else [].
Proof.
  induction n as [|n IH]; cbn [replicate List.filter]; [now destruct (f x)|].
  rewrite IH. now destruct (f x).
Qed.

Lemma sift_options t : is_option t = true ->
  forall n pre, sift pre (replicate n t) = (pre ++ replicate n t, []).
Proof.
  intros Ho. destruct (token_kinds t) as [(_ & Hd & Hp)|[(Ho' & _)|(Ho' & _)]];
    try congruence.
  induction n as [|n IH]; intros pre; cbn [replicate sift].
  - now rewrite app_nil_r.
  - unfold misplaced. rewrite Hd, Hp. cbn [andb orb]. rewrite IH, <- app_assoc. reflexivity.
Qed.

Lemma sift_positionals t : is_positional t = true ->
  forall n pre, later_options pre = [] ->
    sift pre (replicate n t) = (pre ++ replicate n t, []).
Proof.
  intros Hp. destruct (token_kinds t) as [(_ & _ & Hp')|[(_ & _ & Hp')|(Ho & Hd & _)]];
    try congruence.
  induction n as [|n IH]; intros pre Hl; cbn [replicate sift].
  - now rewrite app_nil_r.
  - unfold misplaced. rewrite Hd, Hp, Hl. cbn [andb orb nonempty].
    rewrite IH, <- app_assoc; [reflexivity|].
    now destruct (runs_snoc_other pre t Ho) as (_ & -> & _).
Qed.

(** The runs of a row of positional tokens, and of a row of options after
    a separator. *)
Lemma runs_of_positionals t n : is_positional t = true ->
  leading_options (replicate n t) = [] /\
  positionals (replicate n t) = replicate n t /\
  later_options (replicate n t) = [] /\
  forallb is_option (replicate n t) = match n with O => true | S _ => false end.
Proof.
  intros Hp. destruct (token_kinds t) as [(_ & _ & Hp')|[(_ & _ & Hp')|(Ho & Hd & _)]];
    try congruence.
  unfold positionals, later_options. rewrite filter_replicate, Hp.
  destruct n as [|n]; cbn [replicate leading_options after_options forallb];
    [now repeat split|].
  rewrite Ho. cbn [andb]. repeat split.
  change (t :: replicate n t) with (replicate (S n) t). now rewrite filter_replicate, Ho.
Qed.

Lemma runs_of_later_options t n : is_option t = true ->
  leading_options ("--" :: replicate n t) = [] /\
  positionals ("--" :: replicate n t) = [] /\
  later_options ("--" :: replicate n t) = replicate n t /\
  forallb is_option ("--" :: replicate n t) = false.
Proof.
  intros Ho. destruct (token_kinds t) as [(_ & Hd & Hp)|[(Ho' & _)|(Ho' & _)]];
    try congruence.
  unfold positionals, later_options.
  cbn [leading_options after_options forallb List.filter].
  change (is_option "--") with false. change (is_positional "--") with false.
  cbv iota. cbn [List.filter]. change (is_option "--") with false. cbv iota.
  rewrite !filter_replicate, Hp, Ho. now repeat split.
Qed.

Lemma borrowed_sifted_length s cells0 pre b (cli : Cli Borrowed.CliArray) m :
  borrowed_sifted s cells0 pre b cli m ->
  forall f,
    Borrowed.length (get f cli) = Z.of_nat (List.length (run_of f pre)) /\
    Borrowed.next_unused (get f cli) = Borrowed.AddrUnused.
Proof.
  intros (La & Lc & Lp & _ & _ & _ & _ & _ & Rp & Ra & Rc & _) f.
  destruct f; cbn [get run_of]; split;
    solve [apply Ra|apply Rc|apply Rp|apply La|apply Lc|apply Lp].
Qed.

Lemma elements_length_zero a m : Borrowed.length a = 0 -> Borrowed.elements a m = [].
Proof. unfold Borrowed.elements. intros ->. now destruct (Borrowed.data a). Qed.

(** The append that makes a container hold 65536 tokens.  After a prefix
    [pre] whose 65535 stored tokens are all in the container that receives
    [t], the append writes [t] under the cursor and advances the cursor,
    and the [length] of the container wraps to 0: the three [length]
    fields are 0, with 65536 cells written. *)
Lemma borrowed_wrapped exe (s : nat) cells0 u0 err0 cli0 pre t (n : nat) dest :
  Z.of_nat n = 65535 -> is_double_dash t = false ->
  snd (sift [] pre) = [] -> misplaced pre t = false ->
  dest = (if is_positional t then Args
          else if negb (forallb is_option pre) then CmdOptions else ProgramOptions) ->
  run_of dest pre = replicate n t -> sorted_runs pre = replicate n t ->
  (s + S n <= List.length cells0)%nat ->
  exists cli m,
    cli_parse_noheap_upto exe (pre ++ [t]) cli0 (Borrowed.Cell (Z.of_nat s))
      (Borrowed.mkArena cells0 u0, err0) =
      Done (Continue (if is_positional t then true else negb (forallb is_option pre)) cli)
        (m, err0) /\
    (forall f, Borrowed.length (get f cli) = 0 /\
               Borrowed.next_unused (get f cli) = Borrowed.AddrUnused) /\
    Borrowed.unused m = Borrowed.Cell (Z.of_nat (s + S n)) /\
    List.length (Borrowed.cells m) = List.length cells0 /\
    take (S n) (drop s (Borrowed.cells m)) = Some <$> replicate (S n) t.
Proof.
  intros Hn Hd Hacc Hm Hdest Hrun Hruns Hfit.
  assert (Hlen : List.length (sorted_runs pre) = n) by now rewrite Hruns, length_replicate.
  destruct (borrowed_sifted_reach exe pre cli0 s cells0 u0 err0 Hacc
              ltac:(lia) ltac:(lia)) as (b & cli & m & Hu & Hinv).
  pose proof Hinv as (_ & _ & _ & Hun & Hcells & Htake & Hpre & Hpost & _ & _ & _ & Hb).
  rewrite Hlen in Hun, Htake, Hpost.
  pose proof (borrowed_sifted_length _ _ _ _ _ _ Hinv) as Hl.
  pose proof (borrowed_sifted_target _ _ _ _ _ _ _ Hinv Hm Hd) as Htg.
  rewrite <- Hb in Hdest |- *. rewrite <- Hdest in Htg.
  destruct (Hl dest) as [Hld Hnext]. rewrite Hrun, length_replicate, Hn in Hld.
  pose proof (borrowed_append_Done (get dest cli) t m err0 (s + n) Hnext Hun ltac:(lia))
    as Happ.
  destruct (arena_write s n (Borrowed.cells m) cells0 (sorted_runs pre) t
              ltac:(lia) Hcells Htake Hpre Hpost) as (W1 & W2 & W3 & W4).
  eexists _, _. split; [|split; [|split; [|split]]].
  - eapply noheap_upto_snoc; [exact Hu|].
    rewrite (loop_body_target _ _ _ _ Htg). borrowed_methods.
    unfold bind, ret. rewrite Happ. do 2 f_equal.
    rewrite Hdest. now destruct (is_positional t), b.
  - intros f. assert (Hdec : f = dest \/ f <> dest) by (destruct f, dest; auto; right; discriminate).
    destruct Hdec as [->|Hne].
    + rewrite get_set_same. cbn [Borrowed.length Borrowed.next_unused].
      rewrite Hld. split; reflexivity.
    + rewrite (get_set_other _ _ _ _ Hne). destruct (Hl f) as [Hlf Hnf].
      split; [|exact Hnf]. rewrite Hlf.
      assert (Hz : List.length (run_of f pre) = O); [|now rewrite Hz].
      assert (Hsum : (List.length (run_of Args pre) + List.length (run_of CmdOptions pre)
                      + List.length (run_of ProgramOptions pre) = n)%nat).
      { rewrite <- Hlen. unfold sorted_runs. rewrite !length_app. cbn [run_of]. lia. }
      assert (Hdn : List.length (run_of dest pre) = n) by now rewrite Hrun, length_replicate.
      destruct f, dest; try congruence; lia.
  - cbn [Borrowed.unused]. f_equal. lia.
  - exact W1.
  - cbn [Borrowed.cells]. rewrite W2, Hruns. now rewrite replicate_S_end.
Qed.

Lemma noheap_all exe t rest cli0 stack w :
  Borrowed.cli_parse_noheap (exe :: t :: rest) cli0 stack w =
    match cli_parse_noheap_upto exe (t :: rest) cli0 stack w with
    | Done (Continue b cli) w' => Done (CliErrorOk, cli) w'
    | Done (Return e cli) w' => Done (e, cli) w'
    | AssertFailed e w' => AssertFailed e w'
    | MemFault => MemFault
    end.
Proof.
  unfold Borrowed.cli_parse_noheap, cli_parse_noheap_upto, prepared.
  cbn [fst snd Borrowed.cells execfile args cmd_options program_options].
  apply (@cli_parse_all Borrowed.container).
Qed.

(** The state after 65536 positional tokens. *)
Lemma positionals_wrapped (n : nat) exe cli0 (s : nat) cells0 u0 err0 t :
  Z.of_nat n = 65535 -> is_positional t = true -> (s + S n <= List.length cells0)%nat ->
  exists cli m,
    cli_parse_noheap_upto exe (replicate n t ++ [t]) cli0 (Borrowed.Cell (Z.of_nat s))
      (Borrowed.mkArena cells0 u0, err0) = Done (Continue true cli) (m, err0) /\
    (forall f, Borrowed.length (get f cli) = 0 /\
               Borrowed.next_unused (get f cli) = Borrowed.AddrUnused) /\
    Borrowed.unused m = Borrowed.Cell (Z.of_nat (s + S n)) /\
    List.length (Borrowed.cells m) = List.length cells0 /\
    take (S n) (drop s (Borrowed.cells m)) = Some <$> replicate (S n) t.
Proof.
  intros Hn Hp Hfit.
  destruct (token_kinds t) as [(_ & _ & Hp')|[(_ & _ & Hp')|(Ho & Hd & _)]]; try congruence.
  destruct (runs_of_positionals t n Hp) as (Rl & Rp & Rc & _).
  destruct (borrowed_wrapped exe s cells0 u0 err0 cli0 (replicate n t) t n Args Hn Hd)
    as (cli & m & Hu & H); trivial.
  - now rewrite (sift_positionals t Hp).
  - unfold misplaced. now rewrite Hd, Hp, Rc.
  - now rewrite Hp.
  - unfold sorted_runs. now rewrite Rl, Rp, Rc, app_nil_r.
  - rewrite Hp in Hu. eauto.
Qed.

(** The state after a separator and 65536 options. *)
Lemma options_wrapped (n : nat) exe cli0 (s : nat) cells0 u0 err0 t :
  Z.of_nat n = 65535 -> is_option t = true -> (s + S n <= List.length cells0)%nat ->
  exists cli m,
    cli_parse_noheap_upto exe (("--" :: replicate n t) ++ [t]) cli0
      (Borrowed.Cell (Z.of_nat s)) (Borrowed.mkArena cells0 u0, err0) =
      Done (Continue true cli) (m, err0) /\
    (forall f, Borrowed.length (get f cli) = 0 /\
               Borrowed.next_unused (get f cli) = Borrowed.AddrUnused) /\
    Borrowed.unused m = Borrowed.Cell (Z.of_nat (s + S n)) /\
    List.length (Borrowed.cells m) = List.length cells0 /\
    take (S n) (drop s (Borrowed.cells m)) = Some <$> replicate (S n) t.
Proof.
  intros Hn Ho Hfit.
  destruct (token_kinds t) as [(_ & Hd & Hp)|[(Ho' & _)|(Ho' & _)]]; try congruence.
  destruct (runs_of_later_options t n Ho) as (Rl & Rp & Rc & Rall).
  destruct (borrowed_wrapped exe s cells0 u0 err0 cli0 ("--" :: replicate n t) t n
              CmdOptions Hn Hd) as (cli & m & Hu & H); trivial.
  - cbn [sift]. change (misplaced [] "--") with false. cbv iota.
    now rewrite (sift_options t Ho).
  - unfold misplaced. now rewrite Hd, Hp.
  - now rewrite Hp, Rall.
  - unfold sorted_runs. now rewrite Rl, Rp, Rc.
  - rewrite Hp, Rall in Hu. eauto.
Qed.

(** 65536 positional tokens, then the separator: [args.length] is 0 again,
    and the separator passes. *)
Lemma separator_after_wrapped_args (n : nat) exe cli0 (s : nat) cells0 u0 err0 t :
  Z.of_nat n = 65535 -> is_positional t = true -> (s + S n <= List.length cells0)%nat ->
  exists cli m,
    Borrowed.cli_parse_noheap (exe :: (replicate n t ++ [t]) ++ ["--"]) cli0
      (Borrowed.Cell (Z.of_nat s)) (Borrowed.mkArena cells0 u0, err0) =
      Done (CliErrorOk, cli) (m, err0) /\
    (forall f, Borrowed.length (get f cli) = 0) /\
    Borrowed.unused m = Borrowed.Cell (Z.of_nat (s + S n)) /\
    take (S n) (drop s (Borrowed.cells m)) = Some <$> replicate (S n) t.
Proof.
  intros Hn Hp Hfit.
  destruct (positionals_wrapped n exe cli0 s cells0 u0 err0 t Hn Hp Hfit)
    as (cli & m & Hu & Hl & Hun & _ & Hc).
  exists cli, m. split; [|split; [intros f; apply Hl|split; assumption]].
  rewrite noheap_at, Hu. cbn [cli_parse_loop].
  rewrite loop_body_double_dash by reflexivity. borrowed_methods.
  destruct (Hl Args) as [Hla _]. cbn [get] in Hla. rewrite Hla. reflexivity.
Qed.

(** A separator, 65536 options, then a positional token:
    [cmd_options.length] is 0 again, and the positional token passes. *)
Lemma positional_after_wrapped_options (n : nat) exe cli0 (s : nat) cells0 u0 err0 t p :
  Z.of_nat n = 65535 -> is_option t = true -> is_positional p = true ->
  (s + S n < List.length cells0)%nat ->
  exists cli m,
    Borrowed.cli_parse_noheap (exe :: (("--" :: replicate n t) ++ [t]) ++ [p]) cli0
      (Borrowed.Cell (Z.of_nat s)) (Borrowed.mkArena cells0 u0, err0) =
      Done (CliErrorOk, cli) (m, err0) /\
    take (S n) (drop s (Borrowed.cells m)) = Some <$> replicate (S n) t /\
    Borrowed.cells m !! (s + S n)%nat = Some (Some p) /\
    Borrowed.length (cmd_options cli) = 0.
Proof.
  intros Hn Ho Hp Hfit.
  destruct (options_wrapped n exe cli0 s cells0 u0 err0 t Hn Ho ltac:(lia))
    as (cli & m & Hu & Hl & Hun & Hlen & Hc).
  assert (E0 : Ascii.eqb (char_at p 0) "-" = false).
  { unfold is_positional, begins_with_dash in Hp. now apply negb_true_iff in Hp. }
  destruct (Hl Args) as [_ Hnext]. destruct (Hl CmdOptions) as [Hlc _].
  cbn [get] in Hnext, Hlc.
  pose proof (borrowed_append_Done (args cli) p m err0 (s + S n) Hnext Hun ltac:(lia))
    as Happ.
  eexists _, _. split; [|split; [|split]].
  - rewrite noheap_at, Hu. cbn [cli_parse_loop].
    rewrite loop_body_positional by assumption. borrowed_methods.
    rewrite Hlc. change (0 <? 0) with false. cbv iota.
    unfold bind, ret. rewrite Happ. reflexivity.
  - cbn [Borrowed.cells]. rewrite drop_insert_ge by lia.
    rewrite take_insert_ge by lia. exact Hc.
  - cbn [Borrowed.cells]. apply list_lookup_insert_eq. lia.
  - cbn [set cmd_options]. exact Hlc.
Qed.

(** A whole input of 65536 positional tokens, or of a separator and 65536
    options: [CliErrorOk], the cursor 65536 cells further, and three
    containers of [length] 0. *)
Lemma wrapped_positionals_parse (n : nat) exe cli0 (s : nat) cells0 u0 err0 t :
  Z.of_nat n = 65535 -> is_positional t = true -> (s + S n <= List.length cells0)%nat ->
  exists cli m,
    Borrowed.cli_parse_noheap (exe :: replicate (S n) t) cli0
      (Borrowed.Cell (Z.of_nat s)) (Borrowed.mkArena cells0 u0, err0) =
      Done (CliErrorOk, cli) (m, err0) /\
    (forall f, Borrowed.length (get f cli) = 0 /\ Borrowed.elements (get f cli) m = []) /\
    Borrowed.unused m = Borrowed.Cell (Z.of_nat (s + S n)) /\
    take (S n) (drop s (Borrowed.cells m)) = Some <$> replicate (S n) t.
Proof.
  intros Hn Hp Hfit.
  destruct (positionals_wrapped n exe cli0 s cells0 u0 err0 t Hn Hp Hfit)
    as (cli & m & Hu & Hl & Hun & _ & Hc).
  exists cli, m. split; [|split; [|split; assumption]].
  - rewrite <- replicate_cons_app in Hu. cbn [replicate]. now rewrite noheap_all, Hu.
  - intros f. destruct (Hl f) as [Hz _]. split; [exact Hz|].
    now apply elements_length_zero.
Qed.

Lemma wrapped_options_parse (n : nat) exe cli0 (s : nat) cells0 u0 err0 t :
  Z.of_nat n = 65535 -> is_option t = true -> (s + S n <= List.length cells0)%nat ->
  exists cli m,
    Borrowed.cli_parse_noheap (exe :: "--" :: replicate (S n) t) cli0
      (Borrowed.Cell (Z.of_nat s)) (Borrowed.mkArena cells0 u0, err0) =
      Done (CliErrorOk, cli) (m, err0) /\
    (forall f, Borrowed.length (get f cli) = 0 /\ Borrowed.elements (get f cli) m = []) /\
    Borrowed.unused m = Borrowed.Cell (Z.of_nat (s + S n)) /\
    take (S n) (drop s (Borrowed.cells m)) = Some <$> replicate (S n) t.
Proof.
  intros Hn Ho Hfit.
  destruct (options_wrapped n exe cli0 s cells0 u0 err0 t Hn Ho Hfit)
    as (cli & m & Hu & Hl & Hun & _ & Hc).
  exists cli, m. split; [|split; [|split; assumption]].
  - cbn [app] in Hu. rewrite <- replicate_S_end in Hu. rewrite noheap_all.
    unfold token in *. now rewrite Hu.
  - intros f. destruct (Hl f) as [Hz _]. split; [exact Hz|].
    now apply elements_length_zero.
Qed.

Lemma limit_succ : Z.to_nat 65536 = S (Z.to_nat 65535).
Proof. lia. Qed.

Lemma free_cells_length n : 0 <= n -> Z.of_nat (List.length (free_cells n)) = n.
Proof. intros Hn. unfold free_cells. rewrite length_replicate. lia. Qed.

(** C1 as stated fails on the arena build at the limit of
    [unsigned short]: after 65536 positional tokens [args.length] is 0
    again, so a "--" that follows is accepted and [cli_parse_noheap]
    returns [CliErrorOk], although the 65536 cells of [args] hold the
    positional tokens. *)
Lemma separator_accepted_after_65536_positionals :
  exists cli m,
    Borrowed.cli_parse_noheap ("prog" :: many "a" ++ ["--"]) Borrowed.blank
      (Borrowed.Cell 0) (Borrowed.mkArena (free_cells 65536) Borrowed.NULL, []) =
      Done (CliErrorOk, cli) (m, []) /\
    take (Z.to_nat 65536) (Borrowed.cells m) = Some <$> many "a" /\
    Borrowed.length (args cli) = 0 /\
    ~ (exists cli' w,
         Borrowed.cli_parse_noheap ("prog" :: many "a" ++ ["--"]) Borrowed.blank
           (Borrowed.Cell 0) (Borrowed.mkArena (free_cells 65536) Borrowed.NULL, []) =
           Done (CliErrorUser, cli') w).
Proof.
  pose proof (free_cells_length 65536 ltac:(lia)) as Hcells.
  destruct (separator_after_wrapped_args (Z.to_nat 65535) "prog" Borrowed.blank 0%nat
              (free_cells 65536) Borrowed.NULL [] "a") as (cli & m & Hrun & Hl & _ & Hc).
  - lia.
  - reflexivity.
  - lia.
  - change (Z.of_nat 0) with 0 in Hrun.
    rewrite <- replicate_S_end, <- limit_succ in Hrun. rewrite <- limit_succ in Hc.
    fold (many "a") in Hrun, Hc.
    exists cli, m. split; [exact Hrun|]. split; [exact Hc|]. split; [exact (Hl Args)|].
    intros (cli' & w & Hbad). pose proof (eq_trans (eq_sym Hrun) Hbad) as E. discriminate E.
Qed.

(** C2 as stated fails on the arena build at the limit of
    [unsigned short]: after a separator and 65536 options
    [cmd_options.length] is 0 again, so a positional token that follows is
    accepted and stored, and [cli_parse_noheap] returns [CliErrorOk],
    although the 65536 cells of [cmd_options] hold the options. *)
Lemma positional_accepted_after_65536_options :
  exists cli m,
    Borrowed.cli_parse_noheap ("prog" :: ("--" :: many "-o") ++ ["late"]) Borrowed.blank
      (Borrowed.Cell 0) (Borrowed.mkArena (free_cells 65537) Borrowed.NULL, []) =
      Done (CliErrorOk, cli) (m, []) /\
    take (Z.to_nat 65536) (Borrowed.cells m) = Some <$> many "-o" /\
    Borrowed.cells m !! Z.to_nat 65536 = Some (Some "late") /\
    Borrowed.length (cmd_options cli) = 0 /\
    ~ (exists cli' w,
         Borrowed.cli_parse_noheap ("prog" :: ("--" :: many "-o") ++ ["late"]) Borrowed.blank
           (Borrowed.Cell 0) (Borrowed.mkArena (free_cells 65537) Borrowed.NULL, []) =
           Done (CliErrorUser, cli') w).
Proof.
  pose proof (free_cells_length 65537 ltac:(lia)) as Hcells.
  destruct (positional_after_wrapped_options (Z.to_nat 65535) "prog" Borrowed.blank 0%nat
              (free_cells 65537) Borrowed.NULL [] "-o" "late")
    as (cli & m & Hrun & Hc & Hlate & Hz).
  - lia.
  - reflexivity.
  - reflexivity.
  - lia.
  - change (Z.of_nat 0) with 0 in Hrun.
    cbn [app] in Hrun. rewrite <- replicate_S_end in Hrun.
    rewrite <- limit_succ in Hrun. rewrite <- limit_succ in Hc.
    rewrite Nat.add_0_l, <- limit_succ in Hlate. fold (many "-o") in Hrun, Hc.
    exists cli, m. split; [exact Hrun|]. split; [exact Hc|]. split; [exact Hlate|].
    split; [exact Hz|].
    intros (cli' & w & Hbad). pose proof (eq_trans (eq_sym Hrun) Hbad) as E. discriminate E.
Qed.

(** C3 as stated fails on the arena build at the limit of
    [unsigned short]: of 65536 options appended to [cmd_options] the
    container keeps none, its [length] being 0 again; the options are in
    the cells, and the container spans no cell. *)
Lemma options_dropped_at_65536 :
  exists cli m,
    Borrowed.cli_parse_noheap ("prog" :: "--" :: many "-o") Borrowed.blank
      (Borrowed.Cell 0) (Borrowed.mkArena (free_cells 65536) Borrowed.NULL, []) =
      Done (CliErrorOk, cli) (m, []) /\
    take (Z.to_nat 65536) (Borrowed.cells m) = Some <$> many "-o" /\
    Borrowed.length (cmd_options cli) = 0 /\
    Borrowed.elements (cmd_options cli) m = [] /\
    Borrowed.elements (program_options cli) m = [].
Proof.
  pose proof (free_cells_length 65536 ltac:(lia)) as Hcells.
  destruct (wrapped_options_parse (Z.to_nat 65535) "prog" Borrowed.blank 0%nat
              (free_cells 65536) Borrowed.NULL [] "-o") as (cli & m & Hrun & Hl & _ & Hc).
  - lia.
  - reflexivity.
  - lia.
  - change (Z.of_nat 0) with 0 in Hrun.
    rewrite <- limit_succ in Hrun. rewrite <- limit_succ in Hc.
    fold (many "-o") in Hrun, Hc.
    exists cli, m. split; [exact Hrun|]. split; [exact Hc|].
    split; [exact (proj1 (Hl CmdOptions))|].
    split; [exact (proj2 (Hl CmdOptions))|exact (proj2 (Hl ProgramOptions))].
Qed.

(** C4 as stated fails on the arena build at the limit of
    [unsigned short]: on 65536 positional tokens [cli_parse_noheap] returns
    [CliErrorOk] with three containers that span no cell, which is no
    permutation of the 65536 tokens. *)
Lemma wrapped_lists_are_no_permutation :
  exists cli m,
    Borrowed.cli_parse_noheap ("prog" :: many "a") Borrowed.blank
      (Borrowed.Cell 0) (Borrowed.mkArena (free_cells 65536) Borrowed.NULL, []) =
      Done (CliErrorOk, cli) (m, []) /\
    ~ Permutation
        (Borrowed.elements (program_options cli) m ++ Borrowed.elements (args cli) m
           ++ Borrowed.elements (cmd_options cli) m)
        (Some <$> List.filter (fun t => negb (String.eqb t "--"))
                    (tail ("prog" :: many "a"))).
Proof.
  pose proof (free_cells_length 65536 ltac:(lia)) as Hcells.
  destruct (wrapped_positionals_parse (Z.to_nat 65535) "prog" Borrowed.blank 0%nat
              (free_cells 65536) Borrowed.NULL [] "a") as (cli & m & Hrun & Hl & _ & Hc).
  - lia.
  - reflexivity.
  - lia.
  - change (Z.of_nat 0) with 0 in Hrun.
    exists cli, m. split.
    + rewrite <- limit_succ in Hrun. exact Hrun.
    + destruct (Hl ProgramOptions) as [_ Ep], (Hl Args) as [_ Ea], (Hl CmdOptions) as [_ Ec].
      cbn [get] in Ep, Ea, Ec. rewrite Ep, Ea, Ec. cbn [app tail]. intros Hperm.
      apply Permutation_nil in Hperm. apply fmap_nil_inv in Hperm.
      unfold many in Hperm. rewrite filter_replicate in Hperm.
      change (negb (String.eqb "a" "--")) with true in Hperm. cbv iota in Hperm.
      rewrite limit_succ in Hperm. discriminate.
Qed.

(** C10 as stated fails at the limit of [unsigned short]: on 65536
    positional tokens the cursor has consumed 65536 cells, which hold the
    tokens, while the three containers have [length] 0 and span no cell. *)
Lemma wrapped_lengths_miss_the_slots :
  exists cli m,
    Borrowed.cli_parse_noheap ("prog" :: many "a") Borrowed.blank
      (Borrowed.Cell 0) (Borrowed.mkArena (free_cells 65536) Borrowed.NULL, []) =
      Done (CliErrorOk, cli) (m, []) /\
    Borrowed.unused m = Borrowed.Cell 65536 /\
    take (Z.to_nat 65536) (Borrowed.cells m) = Some <$> many "a" /\
    (forall f, Borrowed.length (get f cli) = 0 /\ Borrowed.elements (get f cli) m = []) /\
    Borrowed.length (program_options cli) + Borrowed.length (args cli)
      + Borrowed.length (cmd_options cli) <> 65536.
Proof.
  pose proof (free_cells_length 65536 ltac:(lia)) as Hcells.
  destruct (wrapped_positionals_parse (Z.to_nat 65535) "prog" Borrowed.blank 0%nat
              (free_cells 65536) Borrowed.NULL [] "a") as (cli & m & Hrun & Hl & Hu & Hc).
  - lia.
  - reflexivity.
  - lia.
  - change (Z.of_nat 0) with 0 in Hrun.
    rewrite <- limit_succ in Hrun. rewrite <- limit_succ in Hc. fold (many "a") in Hc.
    exists cli, m. split; [exact Hrun|]. split; [|split; [exact Hc|split; [exact Hl|]]].
    + rewrite Hu. f_equal; lia.
    + destruct (Hl ProgramOptions) as [Zp _], (Hl Args) as [Za _], (Hl CmdOptions) as [Zc _].
      cbn [get] in Zp, Za, Zc. rewrite Zp, Za, Zc. discriminate.
Qed.

(** ** An array that is too small *)

(** The loop under the invariant, over an array with fewer cells than the
    tokens it stores: it reaches a token that it appends while the cursor
    is past the last cell. *)
Lemma borrowed_overrun_point s cells0 rest :
  forall pre b (cli : Cli Borrowed.CliArray) m err,
    borrowed_sifted s cells0 pre b cli m ->
    Z.of_nat (List.length (sorted_runs (fst (sift pre rest)))) < 65536 ->
    ~ (List.length (sorted_runs (fst (sift pre rest))) = 0 \/
       s + List.length (sorted_runs (fst (sift pre rest))) <= List.length cells0)%nat ->
    exists a t post b1 (cli1 : Cli Borrowed.CliArray) m1 dest (i : nat),
      rest = a ++ t :: post /\
      @scan Borrowed.container a b cli (m, err) = Done (Continue b1 cli1) (m1, err) /\
      @target Borrowed.container t b1 cli1 = Some dest /\
      Borrowed.unused m1 = Borrowed.Cell (Z.of_nat i) /\
      (List.length (Borrowed.cells m1) <= i)%nat /\
      List.length (Borrowed.cells m1) = List.length cells0 /\
      Borrowed.cli_da_append (get dest cli1) t (m1, err) = MemFault.
Proof.
  induction rest as [|t rest IH]; intros pre b cli m err Hinv.
  - cbn [sift fst]. intros _ Hn. destruct Hn. exact (borrowed_sifted_fits _ _ _ _ _ _ Hinv).
  - cbn [sift]. destruct (misplaced pre t) eqn:Hm.
    + cbn [fst]. intros _ Hn. destruct Hn. exact (borrowed_sifted_fits _ _ _ _ _ _ Hinv).
    + destruct (is_double_dash t) eqn:Hd.
      * destruct (borrowed_step_separator _ _ _ _ _ _ _ err Hinv Hm Hd) as [Hrun Hinv1].
        intros Hk Hn.
        destruct (IH (pre ++ [t]) true cli m err Hinv1 Hk Hn)
          as (a & t' & post & b1 & cli1 & m1 & dest & i & -> & Hs & H).
        exists (t :: a), t', post, b1, cli1, m1, dest, i. split; [reflexivity|].
        split; [|exact H]. cbn [scan]. now rewrite (bind_eq_Done _ _ _ _ _ Hrun).
      * destruct (borrowed_step_stored _ _ _ _ _ _ _ err Hinv Hm Hd) as [Hok Hfault].
        pose proof (sorted_runs_sift rest (pre ++ [t])) as Hmono.
        rewrite (sorted_runs_snoc _ _ Hm), Hd, length_app in Hmono.
        cbn [List.length] in Hmono. intros Hk Hn.
        pose proof Hinv as (La & Lc & Lp & Hu & Hlen & _).
        destruct (le_lt_dec (List.length cells0) (s + List.length (sorted_runs pre)))
          as [Hfull|Hroom].
        -- pose proof (borrowed_sifted_target _ _ _ _ _ _ _ Hinv Hm Hd) as Htg.
           set (dest := if is_positional t then Args
                        else if b then CmdOptions else ProgramOptions) in *.
           assert (Hnext : Borrowed.next_unused (get dest cli) = Borrowed.AddrUnused)
             by (destruct dest; [apply La|apply Lc|apply Lp]).
           exists [], t, rest, b, cli, m, dest, (s + List.length (sorted_runs pre))%nat.
           split; [reflexivity|]. split; [reflexivity|]. split; [exact Htg|].
           split; [exact Hu|]. split; [lia|]. split; [exact Hlen|].
           apply (borrowed_append_fault _ _ _ _ _ Hnext Hu). lia.
        -- pose proof (runs_total (if is_positional t then Args
                                   else if b then CmdOptions else ProgramOptions) pre) as Hrt.
           destruct (Hok Hroom ltac:(lia)) as (b1 & cli1 & m1 & Hrun & Hinv1).
           destruct (IH (pre ++ [t]) b1 cli1 m1 err Hinv1 Hk Hn)
             as (a & t' & post & b2 & cli2 & m2 & dest & i & -> & Hs & H).
           exists (t :: a), t', post, b2, cli2, m2, dest, i. split; [reflexivity|].
           split; [|exact H]. cbn [scan]. now rewrite (bind_eq_Done _ _ _ _ _ Hrun).
Qed.

(** X9. [cli_parse_noheap] on an array that is too small.  Let [pre] be
    the tokens after the execution path up to the first misplaced one and
    [k], between 1 and 65535, the number of those that are not separators.
    When the array has fewer than [k] cells from cell [s] on, the loop
    reaches a token [t] that it stores while the cursor is past the last
    cell of the array: the append of [t] writes outside the array, which
    nothing in [cli_da_append] tests.  The run of the model ends at that
    write. *)
Theorem noheap_parse_overruns_small_array exe rest (cli0 : Cli Borrowed.CliArray)
    (s : nat) cells0 u0 err0 :
  Z.of_nat (List.length (sorted_runs (fst (sift [] rest)))) < 65536 ->
  (List.length cells0 < s + List.length (sorted_runs (fst (sift [] rest))))%nat ->
  (0 < List.length (sorted_runs (fst (sift [] rest))))%nat ->
  exists a t post b (cli : Cli Borrowed.CliArray) m dest (i : nat),
    rest = a ++ t :: post /\
    cli_parse_noheap_upto exe a cli0 (Borrowed.Cell (Z.of_nat s))
      (Borrowed.mkArena cells0 u0, err0) = Done (Continue b cli) (m, err0) /\
    @target Borrowed.container t b cli = Some dest /\
    Borrowed.unused m = Borrowed.Cell (Z.of_nat i) /\
    (List.length (Borrowed.cells m) <= i)%nat /\
    List.length (Borrowed.cells m) = List.length cells0 /\
    Borrowed.cli_da_append (get dest cli) t (m, err0) = MemFault /\
    Borrowed.cli_parse_noheap (exe :: rest) cli0 (Borrowed.Cell (Z.of_nat s))
      (Borrowed.mkArena cells0 u0, err0) = MemFault.
Proof.
  intros Hk Hsmall Hpos.
  destruct (borrowed_sifted_init s exe cli0 cells0 err0) as (cli1 & Hi & _ & Hinv).
  cbn zeta in Hi.
  destruct (borrowed_overrun_point s cells0 rest [] false cli1 _ err0 Hinv Hk ltac:(lia))
    as (a & t & post & b & cli & m & dest & i & Hsplit & Hs & Htg & Hu & Hi' & Hlen & Hf).
  exists a, t, post, b, cli, m, dest, i.
  split; [exact Hsplit|]. split; [|split; [exact Htg|split; [exact Hu|]]].
  - unfold cli_parse_noheap_upto, cli_parse_upto, prepared. cbn [fst snd Borrowed.cells].
    now rewrite (bind_eq_Done _ _ _ _ _ Hi).
  - split; [exact Hi'|]. split; [exact Hlen|]. split; [exact Hf|].
    destruct (borrowed_parse_sifted exe rest cli0 s cells0 u0 err0 (unwrapped_of_total _ Hk))
      as [_ Hfault].
    apply Hfault. lia.
Qed.

Lemma noheap_parse_overruns_small_array_witness :
  Z.of_nat (List.length (sorted_runs (fst (sift [] ["-v"; "in"; "-x"])))) < 65536 /\
  (List.length [@None token; None]
   < 0 + List.length (sorted_runs (fst (sift [] ["-v"; "in"; "-x"]))))%nat /\
  (0 < List.length (sorted_runs (fst (sift [] ["-v"; "in"; "-x"]))))%nat /\
  exists a t post b (cli : Cli Borrowed.CliArray) m dest (i : nat),
    ["-v"; "in"; "-x"] = a ++ t :: post /\
    cli_parse_noheap_upto "prog" a Borrowed.blank (Borrowed.Cell (Z.of_nat 0))
      (Borrowed.mkArena [None; None] Borrowed.NULL, []) = Done (Continue b cli) (m, []) /\
    @target Borrowed.container t b cli = Some dest /\
    Borrowed.unused m = Borrowed.Cell (Z.of_nat i) /\
    (List.length (Borrowed.cells m) <= i)%nat /\
    List.length (Borrowed.cells m) = List.length [@None token; None] /\
    Borrowed.cli_da_append (get dest cli) t (m, []) = MemFault /\
    Borrowed.cli_parse_noheap ("prog" :: ["-v"; "in"; "-x"]) Borrowed.blank
      (Borrowed.Cell (Z.of_nat 0)) (Borrowed.mkArena [None; None] Borrowed.NULL, []) =
      MemFault.
Proof.
  assert (H1 : Z.of_nat (List.length (sorted_runs (fst (sift [] ["-v"; "in"; "-x"]))))
               < 65536) by (vm_compute; reflexivity).
  assert (H2 : (List.length [@None token; None]
                < 0 + List.length (sorted_runs (fst (sift [] ["-v"; "in"; "-x"]))))%nat)
    by (vm_compute; lia).
  assert (H3 : (0 < List.length (sorted_runs (fst (sift [] ["-v"; "in"; "-x"]))))%nat)
    by (vm_compute; lia).
  split; [exact H1|]. split; [exact H2|]. split; [exact H3|].
  exact (noheap_parse_overruns_small_array "prog" ["-v"; "in"; "-x"] Borrowed.blank 0
           [None; None] Borrowed.NULL [] H1 H2 H3).
Defined.
